(** * TrafficSession: the batch dispatcher of src/traffic-sender.js

    A shallow embedding of the [TrafficSession] class (the first listing of
    src/traffic-sender.js, lines 1-508) and the properties of its planner,
    executor, batch scheduler, retry pass, performance tracker and
    lifecycle.

    Conventions of the embedding.
    - Integer-valued JavaScript numbers (counters, ids, the parsed form
      fields [delay], [maxRetries], [impressions]) are [Z].
    - Other numbers are [num]: exact rationals extended with the two
      infinities and NaN.  The rounding of IEEE doubles is not modelled,
      except in the estimate of [calculateEstimatedTime], whose text
      depends on it and which is computed on binary64 numbers.
    - The request objects live in [requestQueue]; batches and the retry
      queue hold references to them (positions in [requestQueue]), so that
      the retry queue aliases the objects of the request queue as the
      arrays of the source do.
    - [async] methods are state passing functions on a [World]; every
      [await] at which the event loop can run other code is a named
      suspension [Point].  The environment ([Env]) says what each [fetch]
      answers, what [Math.random] and [Date.now] return and at which
      suspension points the host calls [stop()].
    - The collaborators ([ProxyManager], [DeviceProfiles], [Logger],
      [localStorage]) are taken not to throw; of the log only the
      messages of the session's control flow are kept. *)

From Stdlib Require Import ZArith QArith Qround Qminmax Lia Lqa String Bool DecimalString.
From Stdlib Require Floats.SpecFloat.
From stdpp Require Import base list.

Open Scope Z_scope.

(** ** JavaScript numbers *)

Module JS.

Inductive num : Type :=
| Fin (q : Q)
| PosInf
| NegInf
| NaN.

Definition fin (q : Q) : num := Fin (Qred q).
Definition ofZ (z : Z) : num := Fin (inject_Z z).

Definition Qsgn (q : Q) : comparison := Qcompare q 0.

(** [a / b] on integers, as [stats.successful / stats.sent] computes it. *)
Definition div (a b : num) : num :=
  match a, b with
  | NaN, _ | _, NaN => NaN
  | Fin x, Fin y =>
      match Qsgn y with
      | Eq => match Qsgn x with Eq => NaN | Gt => PosInf | Lt => NegInf end
      | _ => fin (x / y)
      end
  | Fin _, (PosInf | NegInf) => Fin 0
  | PosInf, Fin y => match Qsgn y with Lt => NegInf | _ => PosInf end
  | NegInf, Fin y => match Qsgn y with Lt => PosInf | _ => NegInf end
  | (PosInf | NegInf), (PosInf | NegInf) => NaN
  end.

Definition mul (a b : num) : num :=
  match a, b with
  | NaN, _ | _, NaN => NaN
  | Fin x, Fin y => fin (x * y)
  | Fin x, PosInf | PosInf, Fin x =>
      match Qsgn x with Eq => NaN | Gt => PosInf | Lt => NegInf end
  | Fin x, NegInf | NegInf, Fin x =>
      match Qsgn x with Eq => NaN | Gt => NegInf | Lt => PosInf end
  | PosInf, PosInf | NegInf, NegInf => PosInf
  | PosInf, NegInf | NegInf, PosInf => NegInf
  end.

Definition add (a b : num) : num :=
  match a, b with
  | NaN, _ | _, NaN => NaN
  | Fin x, Fin y => fin (x + y)
  | PosInf, NegInf | NegInf, PosInf => NaN
  | PosInf, _ | _, PosInf => PosInf
  | NegInf, _ | _, NegInf => NegInf
  end.

Definition neg (a : num) : num :=
  match a with
  | Fin x => fin (- x)
  | PosInf => NegInf
  | NegInf => PosInf
  | NaN => NaN
  end.

Definition sub (a b : num) : num := add a (neg b).

(** [Math.max(a, b)]: NaN if either argument is NaN. *)
Definition max (a b : num) : num :=
  match a, b with
  | NaN, _ | _, NaN => NaN
  | PosInf, _ | _, PosInf => PosInf
  | NegInf, x | x, NegInf => x
  | Fin x, Fin y => if Qle_bool x y then Fin y else Fin x
  end.

(** [a > b]: false as soon as one side is NaN. *)
Definition gtb (a b : num) : bool :=
  match a, b with
  | NaN, _ | _, NaN => false
  | PosInf, PosInf => false
  | PosInf, _ => true
  | _, PosInf => false
  | NegInf, _ => false
  | Fin _, NegInf => true
  | Fin x, Fin y => negb (Qle_bool x y)
  end.


End JS.

Abbreviation num := JS.num.

(** ** Session configuration (the object built by [getFormData]) *)

Record Config : Type := mkConfig {
  impressions : Z;
  delay : Z;
  proxyQuality : string;
  maxRetries : Z;
  enableJitter : bool
}.

(** ** Concurrency planner *)

(** [Math.floor(1000 / delay)] clamped by [Math.min(10, _)] and
    [Math.max(1, _)].  [1000 / 0] is [Infinity], which the clamp turns
    into 10; for every other integer [delay] the floor of the quotient is
    the floor division of [Z]. *)
Definition baseConcurrency (delayMs : Z) : Z :=
  if delayMs =? 0 then 10
  else Z.max 1 (Z.min 10 (1000 / delayMs)).

Definition tierCap (tier : string) : Z :=
  if String.eqb tier "premium" then 8
  else if String.eqb tier "balanced" then 12
  else if String.eqb tier "aggressive" then 15
  else 5.

Definition adjustConcurrency (cfg : Config) : Z :=
  Z.min (tierCap (proxyQuality cfg)) (baseConcurrency (delay cfg)).

(** ** Printing numbers, as template literals and [toFixed] do *)

Definition showZ (z : Z) : string := NilZero.string_of_int (Z.to_int z).

(** [`${Math.round(x)}`] *)
Definition showRound (x : num) : string :=
  match x with
  | JS.Fin q => showZ (Qfloor (q + (1 # 2)))
  | JS.PosInf => "Infinity"
  | JS.NegInf => "-Infinity"
  | JS.NaN => "NaN"
  end.

(** [x.toFixed(1)] for magnitudes below 1e21: the closest tenth, the larger
    one on a tie, with the sign in front. *)
Definition tenths (q : Q) : string :=
  let n := Qfloor (q * 10 + (1 # 2)) in
  (showZ (n / 10) ++ "." ++ showZ (n mod 10))%string.

Definition toFixed1 (x : num) : string :=
  match x with
  | JS.Fin q =>
      if Qle_bool 0 q then tenths q else ("-" ++ tenths (- q))%string
  | JS.PosInf => "Infinity"
  | JS.NegInf => "-Infinity"
  | JS.NaN => "NaN"
  end.

(** ** Data model *)

(** A request task.  [deviceProfile], [timestamp] and [status] are written
    once by [generateRequestQueue] and never read by the dispatcher's
    control flow; only [id] and [retryCount] are kept. *)
Record Request : Type := mkRequest {
  id : Z;
  retryCount : Z
}.

Record Stats : Type := mkStats {
  sent : Z;
  successful : Z;
  failed : Z;
  total : Z;
  startTime : Z;
  lastBatchTime : Z;
  batchCount : Z
}.

Record Performance : Type := mkPerformance {
  averageResponseTime : num;
  requestsPerSecond : num;
  successRate : num
}.

(** The fields of a [TrafficSession] object.  [requestQueue] is the array
    that owns the request objects; a reference to a request is its
    position in that array.  [currentBatch] holds the abort controllers of
    the batch being joined, each named by the request it guards. *)
Record Session : Type := mkSession {
  isRunning : bool;
  currentBatch : option (list nat);
  retryQueue : list nat;
  requestQueue : list Request;
  concurrency : Z;
  stats : Stats;
  performance : Performance
}.

Inductive Pass : Type := Primary | Retry.

(** What one [fetch] call does: resolve with a response of some status, or
    reject (network error, or [AbortError] once the signal is aborted). *)
Inductive Response : Type :=
| HttpResponse (status : Z)
| FetchRejected.

(** The places where an [async] method of the session is suspended and the
    host can run ([stop()], [getStats()]). *)
Inductive Point : Type :=
| Stagger (batch : Z) (k : nat)   (* processBatch: delay after the k-th launch *)
| Join (batch : Z)                (* processBatch: await Promise.allSettled *)
| InterBatch (batch : Z)          (* adaptiveDelay after the batch *)
| RetryJoin (chunk : Z)           (* processRetryQueue: await Promise.allSettled *)
| RetryWait (chunk : Z)           (* processRetryQueue: delay(500) *)
| Finished.                       (* after start() has resolved *)

Inductive Clock : Type :=
| AtConstruct
| AtStart
| AtRequestStart (p : Pass) (request : Z)
| AtRequestEnd (p : Pass) (request : Z)
| AtBatchEnd (batch : Z)
| AtComplete.

Inductive RandomSite : Type :=
| RStagger (batch : Z) (k : nat)
| RBackoff (p : Pass) (request : Z) (attempt : Z)
| RAdaptive (batch : Z).

(** The environment of a session.  [fetch p i a] is the answer to attempt
    [a] (counted from 0) of request [i] in pass [p]; [abortSeen i] is the
    first attempt of request [i] whose [fetch] observes the aborted signal
    when the request's controller is aborted; [random] are the draws of
    [Math.random()], in [0, 1). *)
Record Env : Type := mkEnv {
  fetch : Pass -> Z -> Z -> Response;
  abortSeen : Z -> Z;
  random : RandomSite -> Q;
  now : Clock -> Z;
  stopAt : Point -> bool
}.

(** The summary object of [complete()]. *)
Record FinalStats : Type := mkFinalStats {
  fs_duration : string;
  fs_totalRequests : Z;
  fs_successful : Z;
  fs_failed : Z;
  fs_successRate : string;
  fs_averageRate : string;
  fs_averageResponse : string
}.

(** Messages of the [Logger] sink that the properties below refer to (the
    per-request debug lines are left out). *)
Inductive LogEvent : Type :=
| LogAlreadyRunning
| LogStarting (c : Z) (totalRequests : Z)
| LogProcessingBatch (number : Z) (size : nat)
| LogBatchError
| LogBatchCompleted (number : Z) (sentSoFar okSoFar failedSoFar : Z)
| LogRetryQueue (size : nat)
| LogRetryCompleted (ok ko : Z)
| LogStopped
| LogSessionCompleted (summary : FinalStats).

(** One call of [executeRequest]: the pass, the request, the number of
    [fetch] calls it made and the backoff waits between them. *)
Record Dispatch : Type := mkDispatch {
  d_pass : Pass;
  d_request : nat;
  d_fetches : Z;
  d_waits : list num
}.

(** The session object together with what surrounds it: the controllers
    on which [abort()] was called, the calls of [executeRequest], the
    timers started by [this.delay], the log, the snapshots a host could
    take at the suspension points, and the [trafficSessions] entry of
    local storage.  The traces are kept newest first. *)
Record World : Type := mkWorld {
  session : Session;
  aborted : list nat;
  dispatched : list Dispatch;
  timers : list (Point * num);
  logs : list LogEvent;
  observed : list (Point * Session);
  storage : list FinalStats
}.

(** *** Field updates *)

Definition withStats (f : Stats -> Stats) (s : Session) : Session :=
  mkSession (isRunning s) (currentBatch s) (retryQueue s) (requestQueue s)
            (concurrency s) (f (stats s)) (performance s).

Definition withPerformance (p : Performance) (s : Session) : Session :=
  mkSession (isRunning s) (currentBatch s) (retryQueue s) (requestQueue s)
            (concurrency s) (stats s) p.

Definition withRunning (b : bool) (s : Session) : Session :=
  mkSession b (currentBatch s) (retryQueue s) (requestQueue s)
            (concurrency s) (stats s) (performance s).

Definition withCurrentBatch (c : option (list nat)) (s : Session) : Session :=
  mkSession (isRunning s) c (retryQueue s) (requestQueue s)
            (concurrency s) (stats s) (performance s).

Definition withRetryQueue (q : list nat) (s : Session) : Session :=
  mkSession (isRunning s) (currentBatch s) q (requestQueue s)
            (concurrency s) (stats s) (performance s).

Definition withRequestQueue (q : list Request) (s : Session) : Session :=
  mkSession (isRunning s) (currentBatch s) (retryQueue s) q
            (concurrency s) (stats s) (performance s).

Definition incSent (t : Stats) : Stats :=
  mkStats (sent t + 1) (successful t) (failed t) (total t)
          (startTime t) (lastBatchTime t) (batchCount t).

Definition incSuccessful (t : Stats) : Stats :=
  mkStats (sent t) (successful t + 1) (failed t) (total t)
          (startTime t) (lastBatchTime t) (batchCount t).

Definition incFailed (t : Stats) : Stats :=
  mkStats (sent t) (successful t) (failed t + 1) (total t)
          (startTime t) (lastBatchTime t) (batchCount t).

Definition incBatchCount (t : Stats) : Stats :=
  mkStats (sent t) (successful t) (failed t) (total t)
          (startTime t) (lastBatchTime t) (batchCount t + 1).

Definition setStartTime (z : Z) (t : Stats) : Stats :=
  mkStats (sent t) (successful t) (failed t) (total t)
          z (lastBatchTime t) (batchCount t).

Definition setLastBatchTime (z : Z) (t : Stats) : Stats :=
  mkStats (sent t) (successful t) (failed t) (total t)
          (startTime t) z (batchCount t).

Definition foldRetries (ok ko : Z) (t : Stats) : Stats :=
  mkStats (sent t) (successful t + ok) (failed t + ko) (total t)
          (startTime t) (lastBatchTime t) (batchCount t).

Definition onSession (f : Session -> Session) (w : World) : World :=
  mkWorld (f (session w)) (aborted w) (dispatched w) (timers w) (logs w)
          (observed w) (storage w).

Definition abortAll (cs : list nat) (w : World) : World :=
  mkWorld (session w) (cs ++ aborted w) (dispatched w) (timers w) (logs w)
          (observed w) (storage w).

Definition recordDispatch (d : Dispatch) (w : World) : World :=
  mkWorld (session w) (aborted w) (d :: dispatched w) (timers w) (logs w)
          (observed w) (storage w).

Definition startTimer (p : Point) (ms : num) (w : World) : World :=
  mkWorld (session w) (aborted w) (dispatched w) ((p, ms) :: timers w)
          (logs w) (observed w) (storage w).

Definition log (e : LogEvent) (w : World) : World :=
  mkWorld (session w) (aborted w) (dispatched w) (timers w) (e :: logs w)
          (observed w) (storage w).

Definition observe (p : Point) (w : World) : World :=
  mkWorld (session w) (aborted w) (dispatched w) (timers w) (logs w)
          ((p, session w) :: observed w) (storage w).

Definition store (l : list FinalStats) (w : World) : World :=
  mkWorld (session w) (aborted w) (dispatched w) (timers w) (logs w)
          (observed w) l.

(** ** Performance tracker *)

Definition elapsedSeconds (from to : Z) : num :=
  JS.div (JS.ofZ (to - from)) (JS.ofZ 1000).

(** [updatePerformanceMetrics(duration, success)] at clock reading [t].
    The [success] argument is not used by the body. *)
Definition updatePerformanceMetrics
    (duration : Z) (success : bool) (t : Z) (s : Session) : Session :=
  let p := performance s in
  let avg :=
    JS.add (JS.mul (averageResponseTime p) (JS.Fin (95 # 100)))
           (JS.mul (JS.ofZ duration) (JS.Fin (5 # 100))) in
  let timeElapsed := elapsedSeconds (startTime (stats s)) t in
  let rps :=
    if JS.gtb timeElapsed (JS.ofZ 0)
    then JS.div (JS.ofZ (sent (stats s))) timeElapsed
    else JS.ofZ 0 in
  let rate :=
    if 0 <? sent (stats s)
    then JS.mul (JS.div (JS.ofZ (successful (stats s)))
                        (JS.ofZ (sent (stats s)))) (JS.ofZ 100)
    else JS.ofZ 100 in
  withPerformance (mkPerformance avg rps rate) s.

(** [getStats()]: the counters merged with the tracker's cached values. *)
Definition getStats (s : Session) : Stats * Performance :=
  (stats s, performance s).

(** ** Request executor *)

(** [response.ok] *)
Definition ok (status : Z) : bool := (200 <=? status) && (status <=? 299).

(** What one pass through the [try] block does with the answer of
    [fetch]: return the result object (with the [note] of the 403/404
    branch, if taken) or end up in the [catch] block. *)
Inductive Attempt : Type :=
| Delivered (note : option string)
| Caught.

Definition classify (r : Response) : Attempt :=
  match r with
  | FetchRejected => Caught
  | HttpResponse status =>
      if negb (ok status) then
        if 500 <=? status then Caught
        else if 400 <=? status then
          if (status =? 404) || (status =? 403)
          then Delivered (Some ("HTTP " ++ showZ status)%string)
          else Caught
        else Delivered None
      else Delivered None
  end.

(** [Math.pow(2, attempt) * 100 + Math.random() * 100], with [attempt]
    already incremented by the [catch] block and [r] the random draw. *)
Definition backoffDelay (attempt : Z) (r : Q) : num :=
  JS.add (JS.mul (JS.ofZ (2 ^ attempt)) (JS.ofZ 100))
         (JS.mul (JS.Fin r) (JS.ofZ 100)).

(** How a call of [executeRequest] ends. *)
Inductive Outcome : Type :=
| Returned (note : option string)   (* resolves with a success object *)
| Threw                             (* rejects after the last attempt *)
| ReturnedUndefined.                (* the loop body never ran *)

(** A finished call: its outcome, the number of [fetch] calls, the
    backoff waits, and the [success] flag handed to the tracker when the
    tracker was updated. *)
Record Execution : Type := mkExecution {
  outcome : Outcome;
  fetches : Z;
  waits : list num;
  tracked : option bool
}.

(** The [while (attempt < maxAttempts)] loop.  Every iteration returns or
    increments [attempt], so [Z.to_nat (maxAttempts - attempt)] iterations
    are enough; [fuel] counts them. *)
Fixpoint attemptLoop (fuel : nat) (maxAttempts : Z)
    (answer : Z -> Response) (draw : Z -> Q) (attempt : Z) : Execution :=
  match fuel with
  | O => mkExecution ReturnedUndefined 0 [] None
  | S fuel' =>
      if attempt <? maxAttempts then
        match classify (answer attempt) with
        | Delivered note => mkExecution (Returned note) 1 [] (Some true)
        | Caught =>
            let attempt' := attempt + 1 in
            if attempt' =? maxAttempts then
              mkExecution Threw 1 [] (Some false)
            else
              let rest := attemptLoop fuel' maxAttempts answer draw attempt' in
              mkExecution (outcome rest) (1 + fetches rest)
                          (backoffDelay attempt' (draw attempt') :: waits rest)
                          (tracked rest)
        end
      else mkExecution ReturnedUndefined 0 [] None
  end.

(** The answers request [i] gets: those of the environment, or rejections
    from attempt [abortSeen i] on when its signal is aborted. *)
Definition answers (env : Env) (p : Pass) (i : Z) (signalAborted : bool)
    (attempt : Z) : Response :=
  if signalAborted && (abortSeen env i <=? attempt) then FetchRejected
  else fetch env p i attempt.

Definition executeRequest (env : Env) (cfg : Config) (p : Pass)
    (i : Z) (signalAborted : bool) : Execution :=
  attemptLoop (Z.to_nat (maxRetries cfg)) (maxRetries cfg)
              (answers env p i signalAborted)
              (fun attempt => random env (RBackoff p i attempt)) 0.

(** What [Promise.allSettled] reports for a launched request.  The
    promises are [executeRequest(...).catch(...)], so all of them are
    fulfilled: with the success object, with the object of the [catch]
    handler, or with [undefined]. *)
Inductive Settled : Type :=
| Value (success : bool) (request : nat)
| Undefined.

Definition settle (ref : nat) (e : Execution) : Settled :=
  match outcome e with
  | Returned _ => Value true ref
  | Threw => Value false ref
  | ReturnedUndefined => Undefined
  end.

Definition requestId (s : Session) (ref : nat) : Z :=
  match requestQueue s !! ref with
  | Some r => id r
  | None => 0
  end.

(** The effects of one finished call on the world: the tracker update made
    by [executeRequest] itself and the record of the call. *)
Definition finish (env : Env) (p : Pass) (ref : nat) (e : Execution)
    (w : World) : World :=
  let i := requestId (session w) ref in
  let w1 :=
    match tracked e with
    | Some success =>
        onSession (updatePerformanceMetrics
                     (now env (AtRequestEnd p i) - now env (AtRequestStart p i))
                     success (now env (AtRequestEnd p i))) w
    | None => w
    end in
  recordDispatch (mkDispatch p ref (fetches e) (waits e)) w1.

(** ** Lifecycle: stop() and the suspension points *)

Definition stop (w : World) : World :=
  let w1 := onSession (withRunning false) w in
  let w2 :=
    match currentBatch (session w1) with
    | Some controllers =>
        onSession (withCurrentBatch None) (abortAll controllers w1)
    | None => w1
    end in
  log LogStopped w2.

(** An [await] that yields to the event loop: the host may look at the
    session and may call [stop()]. *)
Definition await (env : Env) (p : Point) (w : World) : World :=
  let w1 := observe p w in
  if stopAt env p then observe p (stop w1) else w1.

(** ** Batch scheduler *)

Definition retryCountAt (s : Session) (ref : nat) : Z :=
  match requestQueue s !! ref with
  | Some r => retryCount r
  | None => 0
  end.

Definition incRetryCount (r : Request) : Request :=
  mkRequest (id r) (retryCount r + 1).

(** The body of the [results.forEach] callback of [processBatchResults].
    The flag says that the callback threw: [result.value.success] on a
    promise fulfilled with [undefined] is a [TypeError], raised after
    [stats.sent++]. *)
Definition processResult (cfg : Config) (r : Settled) (s : Session)
    : Session * bool :=
  let s1 := withStats incSent s in
  match r with
  | Undefined => (s1, true)
  | Value true _ => (withStats incSuccessful s1, false)
  | Value false ref =>
      let s2 := withStats incFailed s1 in
      if (Z.of_nat (length (retryQueue s2)) <? 1000) then
        let s3 := withRequestQueue (alter incRetryCount ref (requestQueue s2)) s2 in
        if retryCountAt s3 ref <=? maxRetries cfg
        then (withRetryQueue (retryQueue s3 ++ [ref]) s3, false)
        else (s3, false)
      else (s2, false)
  end.

Fixpoint forEachResult (cfg : Config) (results : list Settled) (s : Session)
    : Session * bool :=
  match results with
  | [] => (s, false)
  | r :: rest =>
      let '(s1, threw) := processResult cfg r s in
      if threw then (s1, true) else forEachResult cfg rest s1
  end.

Definition progressDue (batchIndex : Z) (t : Stats) : bool :=
  ((batchIndex + 1) mod 10 =? 0) || (batchIndex + 1 =? 1)
  || (sent t =? total t).

(** [processBatchResults(results, batchStartTime, batchIndex)]; the flag
    is the exception of the callback, which leaves the method at once. *)
Definition processBatchResults (env : Env) (cfg : Config)
    (results : list Settled) (batchIndex : Z) (w : World) : World * bool :=
  let '(s1, threw) := forEachResult cfg results (session w) in
  let w1 := onSession (fun _ => s1) w in
  if threw then (w1, true)
  else
    let t := stats s1 in
    let w2 :=
      if progressDue batchIndex t
      then log (LogBatchCompleted (batchIndex + 1)
                                  (sent t) (successful t) (failed t)) w1
      else w1 in
    (onSession (withStats (setLastBatchTime (now env (AtBatchEnd batchIndex)))) w2,
     false).

(** [Math.random() * 0.4 + 0.8] *)
Definition jitter (r : Q) : num :=
  JS.add (JS.mul (JS.Fin r) (JS.Fin (4 # 10))) (JS.Fin (8 # 10)).

Definition staggerDelay (cfg : Config) (s : Session) (r : Q) : num :=
  JS.mul (JS.div (JS.ofZ (delay cfg)) (JS.ofZ (concurrency s))) (jitter r).

(** The [for (const request of batch)] loop of [processBatch]: it creates
    a controller and starts [executeRequest] for each request while the
    session is running, and returns the requests launched.  [k] counts
    the launches made so far. *)
Fixpoint launch (env : Env) (cfg : Config) (batchIndex : Z) (k : nat)
    (batch : list nat) (w : World) : list nat * World :=
  match batch with
  | [] => ([], w)
  | ref :: rest =>
      if negb (isRunning (session w)) then ([], w)
      else
        let w1 :=
          if enableJitter cfg then
            let p := Stagger batchIndex (S k) in
            await env p
              (startTimer p (staggerDelay cfg (session w)
                                          (random env (RStagger batchIndex (S k)))) w)
          else w in
        let '(launched, w2) := launch env cfg batchIndex (S k) rest w1 in
        (ref :: launched, w2)
  end.

(** The launched calls reach their end while the batch is joined.  The
    tracker updates are applied in launch order. *)
Fixpoint settleAll (env : Env) (cfg : Config) (p : Pass)
    (signalAborted : nat -> bool) (launched : list nat) (w : World)
    : list Settled * World :=
  match launched with
  | [] => ([], w)
  | ref :: rest =>
      let e := executeRequest env cfg p (requestId (session w) ref)
                              (signalAborted ref) in
      let w1 := finish env p ref e w in
      let '(results, w2) := settleAll env cfg p signalAborted rest w1 in
      (settle ref e :: results, w2)
  end.

Definition isAborted (w : World) (ref : nat) : bool :=
  bool_decide (ref ∈ aborted w).

Definition processBatch (env : Env) (cfg : Config) (batch : list nat)
    (batchIndex : Z) (w : World) : World :=
  let w0 := log (LogProcessingBatch (batchIndex + 1) (length batch)) w in
  let '(launched, w1) := launch env cfg batchIndex 0 batch w0 in
  let w2 := onSession (withCurrentBatch (Some launched)) w1 in
  let w3 := await env (Join batchIndex) w2 in
  let '(results, w4) := settleAll env cfg Primary (isAborted w3) launched w3 in
  let '(w5, threw) := processBatchResults env cfg results batchIndex w4 in
  let w6 := if threw then log LogBatchError w5 else w5 in
  onSession (withStats incBatchCount) (onSession (withCurrentBatch None) w6).

(** ** Adaptive delay *)

(** The number handed to [this.delay] by [adaptiveDelay(batchIndex)]. *)
Definition adaptiveDelayMs (cfg : Config) (t : Stats) (batchIndex : Z)
    (r : Q) : num :=
  let d0 := JS.ofZ (delay cfg) in
  let d1 :=
    if 10 <? batchIndex then
      let progress := JS.div (JS.ofZ (sent t)) (JS.ofZ (total t)) in
      JS.max (JS.ofZ 200)
             (JS.mul d0 (JS.sub (JS.ofZ 1) (JS.mul progress (JS.Fin (3 # 10)))))
    else d0 in
  if enableJitter cfg then JS.mul d1 (jitter r) else d1.

Definition adaptiveDelay (env : Env) (cfg : Config) (batchIndex : Z)
    (w : World) : World :=
  let p := InterBatch batchIndex in
  await env p
    (startTimer p (adaptiveDelayMs cfg (stats (session w)) batchIndex
                                   (random env (RAdaptive batchIndex))) w).

(** [Math.ceil(a / b)] for a positive integer [b]. *)
Definition ceilDiv (a b : Z) : Z := - ((- a) / b).

(** [requestQueue.slice(startIdx, endIdx)], as references. *)
Definition sliceQueue (startIdx endIdx : Z) : list nat :=
  seq (Z.to_nat startIdx) (Z.to_nat (endIdx - startIdx)).

(** The [for] loop of [processOptimizedBatches], [remaining] iterations
    before [batchIndex] reaches [totalBatches]. *)
Fixpoint batchesFrom (env : Env) (cfg : Config) (totalBatches : Z)
    (remaining : nat) (batchIndex : Z) (w : World) : World :=
  match remaining with
  | O => w
  | S remaining' =>
      if negb (isRunning (session w)) then w
      else
        let s := session w in
        let startIdx := batchIndex * concurrency s in
        let endIdx := Z.min (startIdx + concurrency s)
                            (Z.of_nat (length (requestQueue s))) in
        let w1 := processBatch env cfg (sliceQueue startIdx endIdx) batchIndex w in
        let w2 :=
          if isRunning (session w1) && (batchIndex <? totalBatches - 1)
          then adaptiveDelay env cfg batchIndex w1
          else w1 in
        batchesFrom env cfg totalBatches remaining' (batchIndex + 1) w2
  end.

Definition processOptimizedBatches (env : Env) (cfg : Config) (w : World)
    : World :=
  let s := session w in
  let totalBatches :=
    ceilDiv (Z.of_nat (length (requestQueue s))) (concurrency s) in
  batchesFrom env cfg totalBatches (Z.to_nat totalBatches) 0 w.

(** ** Retry queue processor *)

(** The [results.forEach] of [processRetryQueue]: it only counts.  The
    flag is the [TypeError] of [result.value.success] on [undefined]. *)
Fixpoint countRetryResults (results : list Settled) (okCount koCount : Z)
    : Z * Z * bool :=
  match results with
  | [] => (okCount, koCount, false)
  | Undefined :: _ => (okCount, koCount, true)
  | Value true _ :: rest => countRetryResults rest (okCount + 1) koCount
  | Value false _ :: rest => countRetryResults rest okCount (koCount + 1)
  end.

(** [await this.delay(index * 100)] in front of each retried call. *)
Fixpoint retryStagger (p : Point) (index : Z) (chunk : list nat) (w : World)
    : World :=
  match chunk with
  | [] => w
  | _ :: rest =>
      retryStagger p (index + 1) rest (startTimer p (JS.ofZ (index * 100)) w)
  end.

(** The [for] loop of [processRetryQueue].  The signal given to a retried
    call belongs to a fresh controller that nothing keeps, so it is never
    aborted. *)
Fixpoint retryChunksFrom (env : Env) (cfg : Config) (retryConcurrency : Z)
    (retryBatches : Z) (remaining : nat) (i : Z) (okCount koCount : Z)
    (w : World) : World * Z * Z * bool :=
  match remaining with
  | O => (w, okCount, koCount, false)
  | S remaining' =>
      if negb (isRunning (session w)) then (w, okCount, koCount, false)
      else
        let q := retryQueue (session w) in
        let startIdx := i * retryConcurrency in
        let endIdx := Z.min (startIdx + retryConcurrency)
                            (Z.of_nat (length q)) in
        let chunk := take (Z.to_nat (endIdx - startIdx))
                          (drop (Z.to_nat startIdx) q) in
        let w1 := await env (RetryJoin i) (retryStagger (RetryJoin i) 0 chunk w) in
        let '(results, w2) := settleAll env cfg Retry (fun _ => false) chunk w1 in
        let '(okCount', koCount', threw) :=
          countRetryResults results okCount koCount in
        if threw then (w2, okCount', koCount', true)
        else
          let w3 :=
            if i <? retryBatches - 1
            then await env (RetryWait i)
                       (startTimer (RetryWait i) (JS.ofZ 500) w2)
            else w2 in
          retryChunksFrom env cfg retryConcurrency retryBatches remaining'
                          (i + 1) okCount' koCount' w3
  end.

(** [processRetryQueue()]; the flag says that it threw. *)
Definition processRetryQueue (env : Env) (cfg : Config) (w : World)
    : World * bool :=
  let q := retryQueue (session w) in
  if Z.of_nat (length q) =? 0 then (w, false)
  else
    let w0 := log (LogRetryQueue (length q)) w in
    let retryConcurrency := Z.max 1 (concurrency (session w) / 2) in
    let retryBatches := ceilDiv (Z.of_nat (length q)) retryConcurrency in
    let '(w1, okCount, koCount, threw) :=
      retryChunksFrom env cfg retryConcurrency retryBatches
                      (Z.to_nat retryBatches) 0 0 0 w0 in
    if threw then (w1, true)
    else
      (onSession (withRetryQueue [])
         (log (LogRetryCompleted okCount koCount)
            (onSession (withStats (foldRetries okCount koCount)) w1)),
       false).

(** ** Session controller *)

(** [sessions.push(sessionData); sessions.slice(-10)] *)
Definition saveSessionResults (summary : FinalStats) (w : World) : World :=
  let sessions := storage w ++ [summary] in
  store (drop (length sessions - 10) sessions) w.

Definition summarize (env : Env) (s : Session) : FinalStats :=
  let t := stats s in
  let sessionDuration := elapsedSeconds (startTime t) (now env AtComplete) in
  mkFinalStats
    (showRound sessionDuration ++ "s")
    (sent t) (successful t) (failed t)
    (toFixed1 (JS.mul (JS.div (JS.ofZ (successful t)) (JS.ofZ (sent t)))
                      (JS.ofZ 100)) ++ "%")
    (toFixed1 (JS.div (JS.ofZ (sent t)) sessionDuration) ++ "/sec")
    (showRound (averageResponseTime (performance s)) ++ "ms").

Definition complete (env : Env) (w : World) : World :=
  let w1 := onSession (withRunning false) w in
  let finalStats := summarize env (session w1) in
  saveSessionResults finalStats (log (LogSessionCompleted finalStats) w1).

Definition generateRequestQueue (cfg : Config) : list Request :=
  map (fun i => mkRequest (Z.of_nat i + 1) 0) (seq 0 (Z.to_nat (impressions cfg))).

(** [new TrafficSession(config)] *)
Definition newSession (env : Env) (cfg : Config) : World :=
  mkWorld
    (mkSession false None [] (generateRequestQueue cfg) (adjustConcurrency cfg)
       (mkStats 0 0 0 (impressions cfg) (now env AtConstruct)
                (now env AtConstruct) 0)
       (mkPerformance (JS.ofZ 0) (JS.ofZ 0) (JS.ofZ 100)))
    [] [] [] [] [] [].

(** [start()].  When [processRetryQueue] throws, the promise of [start]
    rejects and [complete()] is not reached. *)
Definition start (env : Env) (cfg : Config) (w : World) : World :=
  if isRunning (session w) then log LogAlreadyRunning w
  else
    let w1 := onSession (withStats (setStartTime (now env AtStart)))
                        (onSession (withRunning true) w) in
    let w2 := log (LogStarting (concurrency (session w1))
                               (total (stats (session w1)))) w1 in
    let w3 := processOptimizedBatches env cfg w2 in
    let '(w4, threw) :=
      if 0 <? Z.of_nat (length (retryQueue (session w3)))
      then processRetryQueue env cfg w3
      else (w3, false) in
    observe Finished (if threw then w4 else complete env w4).

Definition runSession (env : Env) (cfg : Config) : World :=
  start env cfg (newSession env cfg).

(** The first statements of [start()] on a session that is not running. *)
Definition begin (env : Env) (w : World) : World :=
  let w1 := onSession (withStats (setStartTime (now env AtStart)))
                      (onSession (withRunning true) w) in
  log (LogStarting (concurrency (session w1)) (total (stats (session w1)))) w1.

(** The world when [processOptimizedBatches] has returned. *)
Definition primaryPass (env : Env) (cfg : Config) : World :=
  processOptimizedBatches env cfg (begin env (newSession env cfg)).

(** The retry step of [start()]. *)
Definition retryPass (env : Env) (cfg : Config) (w : World) : World * bool :=
  if 0 <? Z.of_nat (length (retryQueue (session w)))
  then processRetryQueue env cfg w
  else (w, false).

(** * Vocabulary of the properties *)

(** ** Numbers *)

(** The number [v] is finite and equal to the rational [q]. *)
Definition represents (v : num) (q : Q) : Prop :=
  exists q', v = JS.Fin q' /\ (q' == q)%Q.

(** The integers [from], [from + 1], ... ([n] of them). *)
Definition zseq (from : Z) (n : nat) : list Z :=
  map (fun k => from + Z.of_nat k) (seq 0 n).

Arguments zseq : simpl never.


(** ** Environments *)

(** The host never calls [stop()]. *)
Definition neverStopped (env : Env) : Prop := forall p, stopAt env p = false.

(** Every [fetch] resolves with the given status. *)
Definition allAnswer (env : Env) (status : Z) : Prop :=
  forall p i a, fetch env p i a = HttpResponse status.

(** Every answer of the environment ends in the [catch] block. *)
Definition allCaught (env : Env) : Prop :=
  forall p i a, classify (fetch env p i a) = Caught.

(** ** Relations between two states of a session *)

(** [s'] is [s] up to the tracker's cached values. *)
Definition Quiet (s s' : Session) : Prop :=
  isRunning s' = isRunning s /\ currentBatch s' = currentBatch s
  /\ retryQueue s' = retryQueue s /\ requestQueue s' = requestQueue s
  /\ concurrency s' = concurrency s /\ stats s' = stats s.

(** [s'] is [s] up to the tracker, the controllers of the current batch
    and a running flag that may have been cleared. *)
Definition Frame (s s' : Session) : Prop :=
  retryQueue s' = retryQueue s /\ requestQueue s' = requestQueue s
  /\ concurrency s' = concurrency s /\ stats s' = stats s
  /\ (isRunning s = false -> isRunning s' = false).

(** [Frame], with the running flag untouched. *)
Definition Calm (s s' : Session) : Prop :=
  Frame s s' /\ isRunning s' = isRunning s.

(** [Frame], and a tracker that keeps reporting 100 while nothing was
    sent. *)
Definition Steady (s s' : Session) : Prop :=
  Frame s s'
  /\ (sent (stats s) = 0 -> successRate (performance s) = JS.ofZ 100 ->
      successRate (performance s') = JS.ofZ 100).

(** [s'] is [s] after some results were counted: only the three counters,
    the retry queue and the retry counters of the requests may differ. *)
Definition Tally (s s' : Session) : Prop :=
  isRunning s' = isRunning s /\ currentBatch s' = currentBatch s
  /\ concurrency s' = concurrency s /\ performance s' = performance s
  /\ map id (requestQueue s') = map id (requestQueue s)
  /\ length (requestQueue s') = length (requestQueue s)
  /\ total (stats s') = total (stats s)
  /\ startTime (stats s') = startTime (stats s)
  /\ lastBatchTime (stats s') = lastBatchTime (stats s)
  /\ batchCount (stats s') = batchCount (stats s).

(** [s'] is [s] up to what neither the retry pass nor [complete()]
    changes: the requests, the width, and the counters [sent] and
    [total]. *)
Definition Later (s s' : Session) : Prop :=
  requestQueue s' = requestQueue s /\ concurrency s' = concurrency s
  /\ sent (stats s') = sent (stats s) /\ total (stats s') = total (stats s).

(** [sent] has not decreased from [s] to [s']. *)
Definition Monotone (s s' : Session) : Prop :=
  sent (stats s) <= sent (stats s').

(** ** Snapshots and calls *)

(** The snapshots [l] (newest first) taken on the way from [first] to
    [current] are linked by [R]: each state is [R]-related to the next. *)
Fixpoint linked (R : Session -> Session -> Prop) (first : Session)
    (l : list (Point * Session)) (current : Session) : Prop :=
  match l with
  | [] => R first current
  | o :: older => R (snd o) current /\ linked R first older (snd o)
  end.

(** [w'] continues [w]: it adds snapshots, all linked by [R]. *)
Definition Ext (R : Session -> Session -> Prop) (w w' : World) : Prop :=
  exists l, observed w' = l ++ observed w /\ linked R (session w) l (session w').

(** Every snapshot taken so far satisfies [P]. *)
Definition snapshotsIn (P : Session -> Prop) (w : World) : Prop :=
  forall o, In o (observed w) -> P (snd o).

(** The calls of [executeRequest] made so far, newest first. *)
Definition calls (w : World) : list (Pass * nat) :=
  map (fun d => (d_pass d, d_request d)) (dispatched w).

(** What the join of the launched calls yields for a request, and the
    record of its call, as functions of the state at the join. *)
Definition resultOf (env : Env) (cfg : Config) (p : Pass) (s : Session)
    (signalAborted : nat -> bool) (ref : nat) : Settled :=
  settle ref (executeRequest env cfg p (requestId s ref) (signalAborted ref)).

Definition dispatchOf (env : Env) (cfg : Config) (p : Pass) (s : Session)
    (signalAborted : nat -> bool) (ref : nat) : Dispatch :=
  let e := executeRequest env cfg p (requestId s ref) (signalAborted ref) in
  mkDispatch p ref (fetches e) (waits e).

(** ** Invariants *)

(** The requests are numbered 1, 2, ... in queue order. *)
Definition wellNumbered (s : Session) : Prop :=
  map id (requestQueue s) = zseq 1 (length (requestQueue s)).

(** No controller was aborted unless the host stops the session at some
    point. *)
Definition Clean (env : Env) (w : World) : Prop :=
  aborted w = [] \/ exists p, stopAt env p = true.

(** The invariant of the primary pass for a property [St k] of the
    session, where [k] is the position of the next request to launch:
    the requests before [k] were each handed to [executeRequest] once, in
    queue order. *)
Definition Sched (env : Env) (St : nat -> Session -> Prop) (k : nat)
    (w : World) : Prop :=
  St k (session w) /\ wellNumbered (session w) /\ Clean env w
  /\ snapshotsIn (fun s => exists j, St j s) w
  /\ calls w = map (pair Primary) (rev (seq 0 k)).

(** Every counted request is counted as delivered or as failed. *)
Definition balanced (s : Session) : Prop :=
  sent (stats s) = successful (stats s) + failed (stats s).

(** The retry counters of all requests are within the budget. *)
Definition withinBudget (cfg : Config) (s : Session) : Prop :=
  forall r, In r (requestQueue s) -> retryCount r <= maxRetries cfg.

(** Requests before position [k] have failed at most once in the primary
    pass, the others not yet. *)
Definition countedOnce (cfg : Config) (k : nat) (s : Session) : Prop :=
  forall j r, requestQueue s !! j = Some r ->
    retryCount r = 0
    \/ (retryCount r = 1 /\ 1 <= maxRetries cfg /\ (j < k)%nat).

(** A running session in which the first [k] requests were counted as
    delivered. *)
Definition allDelivered (cfg : Config) (k : nat) (s : Session) : Prop :=
  isRunning s = true /\ total (stats s) = impressions cfg
  /\ sent (stats s) = Z.of_nat k /\ successful (stats s) = Z.of_nat k
  /\ failed (stats s) = 0 /\ retryQueue s = [].

(** A running session in which the first [k] requests have failed in the
    primary pass and were admitted to the retry queue. *)
Definition allFailed (cfg : Config) (k : nat) (s : Session) : Prop :=
  isRunning s = true /\ total (stats s) = impressions cfg
  /\ sent (stats s) = Z.of_nat k /\ successful (stats s) = 0
  /\ failed (stats s) = Z.of_nat k /\ retryQueue s = seq 0 k
  /\ (length (requestQueue s) <= 1000)%nat
  /\ forall j r, requestQueue s !! j = Some r ->
       retryCount r = if (j <? k)%nat then 1 else 0.

(** Before any result is counted: nothing is counted as delivered or
    failed, the retry queue is empty and the tracker reports 100. *)
Definition untouched (s : Session) : Prop :=
  0 <= sent (stats s)
  /\ (sent (stats s) = 0 ->
      successful (stats s) = 0 /\ failed (stats s) = 0 /\ retryQueue s = []
      /\ successRate (performance s) = JS.ofZ 100).

(** * Scenarios *)

(** Every [fetch] gets the answer [r], every call of [Math.random()]
    returns [draw], a request takes 250 ms, and the host calls [stop()] at
    the points [stops]; an aborted signal is seen by the attempt under
    way. *)
Definition always (r : Response) (draw : Q) (stops : Point -> bool) : Env :=
  mkEnv (fun _ _ _ => r) (fun _ => 0) (fun _ => draw)
        (fun c =>
           match c with
           | AtConstruct | AtStart => 0
           | AtRequestStart _ _ => 1000
           | AtRequestEnd _ _ => 1250
           | AtBatchEnd _ => 1250
           | AtComplete => 2000
           end)
        stops.

Definition never : Point -> bool := fun _ => false.

Definition onlyAt (p : Point) : Point -> bool :=
  fun p' =>
    match p, p' with
    | Join b, Join b' => b =? b'
    | Stagger b k, Stagger b' k' => (b =? b') && Nat.eqb k k'
    | InterBatch b, InterBatch b' => b =? b'
    | RetryJoin b, RetryJoin b' => b =? b'
    | RetryWait b, RetryWait b' => b =? b'
    | Finished, Finished => true
    | _, _ => false
    end.

Definition failing500 : Env := always (HttpResponse 500) (1 # 2) never.
Definition answering404 : Env := always (HttpResponse 404) (1 # 2) never.
Definition lowJitter : Env := always (HttpResponse 200) 0 never.
Definition stoppedInFirstJoin : Env :=
  always (HttpResponse 200) (1 # 2) (onlyAt (Join 0)).
Definition stoppedInFirstStagger : Env :=
  always (HttpResponse 200) (1 # 2) (onlyAt (Stagger 0 1)).

(** One request, [delay = 1000], [maxRetries = 3], no jitter. *)
Definition oneRequest : Config := mkConfig 1 1000 "balanced" 3 false.

(** Two requests in two batches, [maxRetries = 3], no jitter. *)
Definition twoRequests : Config := mkConfig 2 1000 "balanced" 3 false.

(** Two requests in two batches, one attempt each. *)
Definition twoSingleAttempts : Config := mkConfig 2 1000 "balanced" 1 false.

(** 100 requests in 20 batches of 5, [delay = 200], with jitter. *)
Definition hundredWithJitter : Config := mkConfig 100 200 "balanced" 3 true.

(** Three requests in one batch, with jitter. *)
Definition threeWithJitter : Config := mkConfig 3 300 "balanced" 3 true.


(** * The session as a whole *)

(** ** Further invariants of the primary pass *)

(** The first [k] requests were counted, each once: [sent] is [k], every
    counted request is counted as delivered or as failed, and the retry
    queue holds some of them, none twice. *)
Definition counted (k : nat) (s : Session) : Prop :=
  (k <= length (requestQueue s))%nat
  /\ sent (stats s) = Z.of_nat k
  /\ balanced s
  /\ 0 <= successful (stats s) /\ 0 <= failed (stats s)
  /\ NoDup (retryQueue s)
  /\ Forall (fun ref => (ref < k)%nat) (retryQueue s).

(** No result was counted as delivered or as failed, and nothing waits for
    a retry. *)
Definition idle (s : Session) : Prop :=
  retryQueue s = [] /\ successful (stats s) = 0 /\ failed (stats s) = 0.

(** [s'] is [s] after the last statements of [processRetryQueue]: the
    outcomes [ok] and [ko] of the retried calls are added to [successful]
    and [failed] and the retry queue is emptied. *)
Definition Folded (ok ko : Z) (s s' : Session) : Prop :=
  isRunning s' = isRunning s /\ currentBatch s' = currentBatch s
  /\ requestQueue s' = requestQueue s /\ concurrency s' = concurrency s
  /\ performance s' = performance s
  /\ stats s' = foldRetries ok ko (stats s)
  /\ retryQueue s' = [].

(** [s'] has the target, the width and the requests of [s], with the
    same ids in the same order. *)
Definition sameSetup (s s' : Session) : Prop :=
  total (stats s') = total (stats s) /\ concurrency s' = concurrency s
  /\ map id (requestQueue s') = map id (requestQueue s).

(** ** Calls and fetches *)

Definition isRetryCall (c : Pass * nat) : bool :=
  match fst c with Retry => true | Primary => false end.

(** The number of calls of [executeRequest] made by the retry pass. *)
Definition retryCalls (w : World) : Z :=
  Z.of_nat (length (List.filter isRetryCall (calls w))).

(** The number of [fetch] calls made so far. *)
Definition fetchesMade (w : World) : Z :=
  fold_right Z.add 0 (map d_fetches (dispatched w)).

(** A recorded call kept to the attempts it may make: at most
    [maxRetries] fetches, and one backoff wait between two of them. *)
Definition withinAttempts (cfg : Config) (d : Dispatch) : Prop :=
  0 <= d_fetches d <= Z.max 0 (maxRetries cfg)
  /\ Z.of_nat (length (d_waits d)) = Z.max 0 (d_fetches d - 1).

(** ** What the tracker may report *)

(** The three cached values are finite numbers, the rate of requests is
    not negative and the success rate is a percentage. *)
Definition trackerSound (p : Performance) : Prop :=
  (exists q, averageResponseTime p = JS.Fin q)
  /\ (exists q, requestsPerSecond p = JS.Fin q /\ (0 <= q)%Q)
  /\ (exists q, successRate p = JS.Fin q /\ (0 <= q <= 100)%Q).

(** Not more requests are counted as delivered than were counted, and the
    tracker is sound. *)
Definition plausible (s : Session) : Prop :=
  0 <= successful (stats s) <= sent (stats s)
  /\ trackerSound (performance s).

(** [Frame], and a session that stays plausible. *)
Definition Sound (s s' : Session) : Prop :=
  Frame s s' /\ (plausible s -> plausible s').

(** ** The estimate logged by [start()] *)

(** [Math.floor] and [Math.ceil] *)
Definition floorNum (a : num) : num :=
  match a with JS.Fin q => JS.ofZ (Qfloor q) | _ => a end.

Definition ceilNum (a : num) : num :=
  match a with JS.Fin q => JS.ofZ (Qceiling q) | _ => a end.

(** The integer part of a rational, rounded towards zero. *)
Definition Qtrunc (q : Q) : Z :=
  if Qle_bool 0 q then Qfloor q else Qceiling q.

(** [a % b]: the remainder has the sign of the dividend. *)
Definition remNum (a b : num) : num :=
  match a, b with
  | JS.Fin x, JS.Fin y =>
      if Qeq_bool y 0 then JS.NaN
      else JS.fin (x - y * inject_Z (Qtrunc (x / y)))
  | JS.Fin _, (JS.PosInf | JS.NegInf) => a
  | _, _ => JS.NaN
  end.

(** [`${x}`] for a number without a fractional part, below [10^21] in
    magnitude. *)
Definition showInt (x : num) : string :=
  match x with
  | JS.Fin q => showZ (Qfloor q)
  | JS.PosInf => "Infinity"
  | JS.NegInf => "-Infinity"
  | JS.NaN => "NaN"
  end.

(** The text of the estimate depends on how its two quotients and its
    product are rounded, so they are computed as the engine computes
    them: on IEEE 754 binary64 numbers, with the operations of [SpecFloat]
    at precision 53 and exponent bound 1024 (rounding to nearest, ties to
    even). *)
Module Binary64.

Definition prec : Z := 53.
Definition emax : Z := 1024.

(** The binary64 number of an integer: the integer itself up to [2^53]
    in magnitude, the nearest number beyond. *)
Definition ofZ (z : Z) : SpecFloat.spec_float :=
  SpecFloat.binary_normalize prec emax z 0 false.

(** [x / y] and [x * y] *)
Definition div (x y : SpecFloat.spec_float) : SpecFloat.spec_float :=
  SpecFloat.SFdiv prec emax x y.

Definition mul (x y : SpecFloat.spec_float) : SpecFloat.spec_float :=
  SpecFloat.SFmul prec emax x y.

(** The value of a binary64 number: [m * 2^e] with its sign, exactly. *)
Definition value (x : SpecFloat.spec_float) : num :=
  match x with
  | SpecFloat.S754_zero _ => JS.Fin 0
  | SpecFloat.S754_infinity false => JS.PosInf
  | SpecFloat.S754_infinity true => JS.NegInf
  | SpecFloat.S754_nan => JS.NaN
  | SpecFloat.S754_finite sign m e =>
      JS.fin ((if sign then - inject_Z (Z.pos m) else inject_Z (Z.pos m)) * 2 ^ e)
  end.

End Binary64.

(** [estimatedSeconds] of [calculateEstimatedTime()] *)
Definition estimatedSeconds (cfg : Config) (s : Session) : SpecFloat.spec_float :=
  let estimatedRate :=
    Binary64.mul (Binary64.div (Binary64.ofZ 1000) (Binary64.ofZ (delay cfg)))
                 (Binary64.ofZ (concurrency s)) in
  Binary64.div (Binary64.ofZ (total (stats s))) estimatedRate.

(** [minutes] and [seconds] of [calculateEstimatedTime()].  [Math.floor],
    [Math.ceil] and [%] are exact on binary64 numbers, so they are taken
    on the values. *)
Definition shownMinutes (cfg : Config) (s : Session) : num :=
  floorNum (Binary64.value (Binary64.div (estimatedSeconds cfg s) (Binary64.ofZ 60))).

Definition shownSeconds (cfg : Config) (s : Session) : num :=
  ceilNum (remNum (Binary64.value (estimatedSeconds cfg s)) (JS.ofZ 60)).

Definition calculateEstimatedTime (cfg : Config) (s : Session) : string :=
  let minutes := shownMinutes cfg s in
  let seconds := shownSeconds cfg s in
  if JS.gtb minutes (JS.ofZ 0)
  then (showInt minutes ++ "m " ++ showInt seconds ++ "s")%string
  else (showInt seconds ++ "s")%string.

(** ** The referrer of a request *)

Definition referrers : list string :=
  [ "https://www.google.com/"; "https://www.facebook.com/";
    "https://www.youtube.com/"; "https://www.twitter.com/";
    "https://www.reddit.com/"; "https://www.linkedin.com/";
    "https://www.instagram.com/"; "https://www.pinterest.com/";
    "https://www.tumblr.com/"; "https://www.quora.com/" ]%string.

(** [array[i]] for a number [i] without a fractional part: [undefined]
    outside the array. *)
Definition at_index {A : Type} (l : list A) (i : Z) : option A :=
  if i <? 0 then None else l !! Z.to_nat i.

(** [getRandomReferrer()], for the draw [r] of [Math.random()]. *)
Definition getRandomReferrer (r : Q) : option string :=
  at_index referrers (Qfloor (r * inject_Z (Z.of_nat (length referrers)))).

(** The [referrer] of the request options built by [executeRequest]. *)
Definition referrerOf (enableReferrer : bool) (r : Q) : option string :=
  if enableReferrer then getRandomReferrer r
  else Some "https://www.google.com/"%string.

(** * The proxy pool of src/proxy-manager.js *)

(** [a <= b] on numbers: false as soon as one side is NaN. *)
Definition lebNum (a b : num) : bool :=
  match a, b with
  | JS.NaN, _ | _, JS.NaN => false
  | JS.NegInf, _ => true
  | _, JS.PosInf => true
  | JS.PosInf, _ => false
  | _, JS.NegInf => false
  | JS.Fin x, JS.Fin y => Qle_bool x y
  end.

Module ProxyManager.

(** A tested proxy, as [testSingleProxy] builds it; [speed] is the time
    its test took, in milliseconds. *)
Record Proxy : Type := mkProxy {
  url : string;
  ip : string;
  speed : Z;
  country : string;
  lastTested : Z
}.

(** The manager.  [activeProxies] is a [Map] from [url] to the proxy; its
    values are kept in insertion order, the order of
    [Array.from(this.activeProxies.values())].  [refreshes] counts the
    refreshes started by [backgroundRefresh]. *)
Record State : Type := mkState {
  activeProxies : list Proxy;
  refreshInProgress : bool;
  refreshes : nat
}.

(** [1 / (p.speed / 1000 + 1)] *)
Definition weight (p : Proxy) : num :=
  JS.div (JS.ofZ 1) (JS.add (JS.div (JS.ofZ (speed p)) (JS.ofZ 1000)) (JS.ofZ 1)).

(** The [switch (quality)] of [getRandomProxy]. *)
Definition qualityFilter (quality : string) (proxies : list Proxy) : list Proxy :=
  if String.eqb quality "premium"
  then List.filter (fun p => speed p <? 2000) proxies
  else if String.eqb quality "balanced"
  then List.filter (fun p => speed p <? 4000) proxies
  else proxies.

(** The candidates of the weighted selection: the proxies that pass the
    filter, or all of them when none does. *)
Definition candidates (quality : string) (proxies : list Proxy) : list Proxy :=
  match qualityFilter quality proxies with
  | [] => proxies
  | filtered => filtered
  end.

(** The selection loop: [random -= weights[i]; if (random <= 0) return
    filteredProxies[i]].  The weights are subtracted exactly here; with
    the rounding of binary64 the loop can also end with [random] still
    positive, and [getRandomProxy] then falls back to the first candidate,
    as it does below when [pick] selects nothing.  What is proved of the
    selection holds of both ways out. *)
Fixpoint pick (random : num) (filteredProxies : list Proxy) : option Proxy :=
  match filteredProxies with
  | [] => None
  | p :: rest =>
      let random' := JS.sub random (weight p) in
      if lebNum random' (JS.ofZ 0) then Some p else pick random' rest
  end.

Definition totalWeight (filteredProxies : list Proxy) : num :=
  fold_left JS.add (map weight filteredProxies) (JS.ofZ 0).

(** [getRandomProxy(quality)], for the draw [r] of [Math.random()];
    [None] is [null]. *)
Definition getRandomProxy (quality : string) (r : Q) (st : State) : option Proxy :=
  match activeProxies st with
  | [] => None
  | proxies =>
      let filteredProxies := candidates quality proxies in
      match pick (JS.mul (JS.Fin r) (totalWeight filteredProxies)) filteredProxies with
      | Some p => Some p
      | None => head filteredProxies
      end
  end.

(** The object handed to [executeRequest]. *)
Record ProxyConfig : Type := mkProxyConfig {
  pc_url : string;
  pc_ip : string;
  pc_speed : Z;
  pc_headers : list (string * string)
}.

Definition getProxyForRequest (quality : string) (r : Q) (st : State)
    : option ProxyConfig :=
  match getRandomProxy quality r st with
  | Some proxy =>
      Some (mkProxyConfig (url proxy) (ip proxy) (speed proxy)
              [ ("X-Forwarded-For", ip proxy); ("X-Real-IP", ip proxy);
                ("Via", "1.1 " ++ ip proxy) ]%string)
  | None => None
  end.

(** [backgroundRefresh()] up to its first [await]: it starts a refresh
    unless one is under way. *)
Definition backgroundRefresh (st : State) : State :=
  if refreshInProgress st then st
  else mkState (activeProxies st) true (S (refreshes st)).

Definition has (proxyUrl : string) (st : State) : bool :=
  existsb (fun p => String.eqb (url p) proxyUrl) (activeProxies st).

(** [this.activeProxies.delete(proxyUrl)] *)
Definition delete (proxyUrl : string) (st : State) : State :=
  mkState (List.filter (fun p => negb (String.eqb (url p) proxyUrl)) (activeProxies st))
          (refreshInProgress st) (refreshes st).

Definition reportProxyFailure (proxyUrl : string) (st : State) : State :=
  if has proxyUrl st then
    let st1 := delete proxyUrl st in
    if Z.of_nat (length (activeProxies st1)) <? 10
    then backgroundRefresh st1
    else st1
  else st.

End ProxyManager.

(** * The log of src/logging.js *)

Module Logger.

Inductive Level : Type := DEBUG | INFO | WARN | ERROR.

(** [Logger.levels] *)
Definition levels (l : Level) : Z :=
  match l with DEBUG => 0 | INFO => 1 | WARN => 2 | ERROR => 3 end.

(** [Logger.levels.hasOwnProperty(name)] and [Logger.levels[name]] *)
Definition levelOfName (name : string) : option Level :=
  if String.eqb name "DEBUG" then Some DEBUG
  else if String.eqb name "INFO" then Some INFO
  else if String.eqb name "WARN" then Some WARN
  else if String.eqb name "ERROR" then Some ERROR
  else None.

(** An entry of [Logger.logs]; of its fields the level, the message and
    the time are kept. *)
Record Entry : Type := mkEntry {
  level : Level;
  message : string;
  timestamp : Z
}.

(** [currentLevel] and [logs] (oldest entry first). *)
Record State : Type := mkState {
  currentLevel : Z;
  logs : list Entry
}.

Definition maxEntries : Z := 2000.

(** [l.slice(start)] for an integer [start]: a negative [start] counts
    from the end. *)
Definition slice {A : Type} (start : Z) (l : list A) : list A :=
  let len := Z.of_nat (length l) in
  let from := if start <? 0 then Z.max (len + start) 0 else Z.min start len in
  drop (Z.to_nat from) l.

(** [Logger.log(level, message)] at time [t]. *)
Definition log (lvl : Level) (msg : string) (t : Z) (st : State) : State :=
  if levels lvl <? currentLevel st then st
  else
    let logs1 := logs st ++ [mkEntry lvl msg t] in
    mkState (currentLevel st)
            (if maxEntries <? Z.of_nat (length logs1)
             then slice (- maxEntries) logs1
             else logs1).

(** [Logger.info(message)] *)
Definition info : string -> Z -> State -> State := log INFO.

(** A sequence of calls of [Logger.log]: the level, the message and the
    time of each. *)
Definition logAll (calls : list (Level * string * Z)) (st : State) : State :=
  fold_left (fun st c => log (fst (fst c)) (snd (fst c)) (snd c) st) calls st.

(** The entries of the calls at or above a threshold, in the order of the
    calls. *)
Definition entryOf (c : Level * string * Z) : Entry :=
  mkEntry (fst (fst c)) (snd (fst c)) (snd c).

Definition accepted (threshold : Z) (calls : list (Level * string * Z)) : list Entry :=
  map entryOf (List.filter (fun c => threshold <=? levels (fst (fst c))) calls).

(** The newest [maxEntries] elements of a list. *)
Definition newest {A : Type} (l : list A) : list A :=
  drop (length l - Z.to_nat maxEntries) l.

(** [Logger.getRecentLogs(count)] *)
Definition getRecentLogs (count : Z) (st : State) : list Entry :=
  slice (- count) (logs st).

(** [Logger.setLevel(level)] *)
Definition setLevel (name : string) (t : Z) (st : State) : State :=
  match levelOfName name with
  | Some l => info ("Log level set to: " ++ name) t (mkState (levels l) (logs st))
  | None => st
  end.

(** The initial state: [currentLevel = levels.INFO], no entry. *)
Definition initial : State := mkState (levels INFO) [].

(** [s.replace(/c/g, replacement)] for a character [c] and a replacement
    without [$].  The replacement goes through the string one character
    at a time, whatever the alphabet; strings are taken here over 8-bit
    characters. *)
Fixpoint replaceAll (c : Ascii.ascii) (replacement : string) (s : string) : string :=
  match s with
  | EmptyString => EmptyString
  | String x rest =>
      if Ascii.eqb x c
      then (replacement ++ replaceAll c replacement rest)%string
      else String x (replaceAll c replacement rest)
  end.

(** The five characters replaced: [&], [<], [>], the double quote and
    the apostrophe, by their codes. *)
Definition ampersand : Ascii.ascii := Ascii.ascii_of_nat 38.
Definition lessThan : Ascii.ascii := Ascii.ascii_of_nat 60.
Definition greaterThan : Ascii.ascii := Ascii.ascii_of_nat 62.
Definition doubleQuote : Ascii.ascii := Ascii.ascii_of_nat 34.
Definition apostrophe : Ascii.ascii := Ascii.ascii_of_nat 39.

(** [Logger.escapeHtml(unsafe)] *)
Definition escapeHtml (unsafe : string) : string :=
  replaceAll apostrophe "&#039;"
    (replaceAll doubleQuote "&quot;"
       (replaceAll greaterThan "&gt;"
          (replaceAll lessThan "&lt;"
             (replaceAll ampersand "&amp;" unsafe)))).

(** The entity that stands for a character in the output. *)
Definition escapeChar (c : Ascii.ascii) : string :=
  if Ascii.eqb c ampersand then "&amp;"
  else if Ascii.eqb c lessThan then "&lt;"
  else if Ascii.eqb c greaterThan then "&gt;"
  else if Ascii.eqb c doubleQuote then "&quot;"
  else if Ascii.eqb c apostrophe then "&#039;"
  else String c EmptyString.

(** The characters of a string. *)
Fixpoint chars (s : string) : list Ascii.ascii :=
  match s with
  | EmptyString => []
  | String c rest => c :: chars rest
  end.

(** Every character replaced by the entity that stands for it. *)
Fixpoint escapeAll (s : string) : string :=
  match s with
  | EmptyString => EmptyString
  | String c rest => (escapeChar c ++ escapeAll rest)%string
  end.

Definition isSpecial (c : Ascii.ascii) : bool :=
  Ascii.eqb c ampersand || Ascii.eqb c lessThan || Ascii.eqb c greaterThan
  || Ascii.eqb c doubleQuote || Ascii.eqb c apostrophe.

End Logger.

(** * The form of the application controller (src/unnamed/part_001) *)

Module TrafficSenderApp.

(** The object built by [getFormData()].  The three fields read with
    [parseInt] are [None] when [parseInt] returns NaN. *)
Record FormData : Type := mkFormData {
  adUrl : string;
  country : string;
  impressions : option Z;
  deviceType : string;
  proxyQuality : string;
  delay : option Z;
  maxRetries : option Z;
  enableJitter : bool;
  enableReferrer : bool
}.

Section Validation.

(** [isValidUrl]: whether [new URL(string)] succeeds. *)
Variable isValidUrl : string -> bool.

Definition isEmpty (s : string) : bool :=
  match s with EmptyString => true | _ => false end.

(** The [errors] array of [validateForm(data)]. *)
Definition formErrors (data : FormData) : list string :=
  (if isEmpty (adUrl data) then ["Ad network URL is required"%string]
   else if negb (isValidUrl (adUrl data)) then ["Please enter a valid URL"%string]
   else [])
  ++ (if isEmpty (country data) then ["Target country is required"%string] else [])
  ++ (match impressions data with
      | Some n =>
          if (n =? 0) || (n <? 100)
          then ["Impressions must be at least 100"%string] else []
      | None => ["Impressions must be at least 100"%string]
      end)
  ++ (match delay data with
      | Some d =>
          if (d <? 200) || (5000 <? d)
          then ["Delay must be between 200 and 5000 milliseconds"%string] else []
      | None => []
      end).

Definition validateForm (data : FormData) : bool :=
  match formErrors data with
  | [] => true
  | _ => false
  end.

End Validation.

(** The configuration read by [TrafficSession] when the three numbers of
    the form are numbers. *)
Definition toConfig (data : FormData) : option Config :=
  match impressions data, delay data, maxRetries data with
  | Some n, Some d, Some m =>
      Some (mkConfig n d (proxyQuality data) m (enableJitter data))
  | _, _, _ => None
  end.

End TrafficSenderApp.

(** * Further scenarios *)

(** Three calls with no attempt each. *)
Definition threeWithoutAttempts : Config := mkConfig 3 1000 "balanced" 0 false.

(** 600 impressions at three requests per batch, a batch every 255 ms:
    51 seconds when computed exactly. *)
Definition sixHundredAt255 : Config := mkConfig 600 255 "balanced" 3 false.

(** 1000 impressions at four requests per batch, a batch every 240 ms:
    60 seconds when computed exactly. *)
Definition thousandAt240 : Config := mkConfig 1000 240 "aggressive" 3 false.


Definition slowProxy : ProxyManager.Proxy :=
  ProxyManager.mkProxy "http://10.0.0.1:80" "10.0.0.1" 5000 "Unknown" 0.

Definition fastProxy : ProxyManager.Proxy :=
  ProxyManager.mkProxy "http://10.0.0.2:80" "10.0.0.2" 300 "Unknown" 0.

Definition twoProxies : ProxyManager.State :=
  ProxyManager.mkState [slowProxy; fastProxy] false 0.

(** Three calls of the logger, the first one below the initial
    threshold. *)
Definition threeCalls : list (Logger.Level * string * Z) :=
  [(Logger.DEBUG, "probing"%string, 1); (Logger.INFO, "started"%string, 2);
   (Logger.ERROR, "failed"%string, 3)].

(** A form that passes the validation. *)
Definition sampleForm : TrafficSenderApp.FormData :=
  TrafficSenderApp.mkFormData "https://example.com/ad" "us" (Some 500) "random"
    "aggressive" (Some 250) (Some 3) true false.

(** A URL check that accepts every string with a colon in it. *)
Definition hasColon (s : string) : bool :=
  existsb (fun c => Ascii.eqb c (Ascii.ascii_of_nat 58)) (Logger.chars s).

(** * Properties *)

(** ** Numbers *)

Lemma gtb_Fin (x y : Q) : JS.gtb (JS.Fin x) (JS.Fin y) = true <-> (y < x)%Q.
Proof.
  simpl. rewrite negb_true_iff. split; intro H.
  - apply Qnot_le_lt. intro Hle. apply Qle_bool_iff in Hle. congruence.
  - destruct (Qle_bool x y) eqn:E; [| reflexivity].
    apply Qle_bool_iff in E. exfalso. apply (Qlt_not_le _ _ H E).
Qed.


Lemma zseq_S (from : Z) (n : nat) : zseq from (S n) = from :: zseq (from + 1) n.
Proof.
  unfold zseq. simpl. f_equal; [lia |].
  rewrite <- seq_shift, map_map. apply map_ext. intro k. lia.
Qed.

Lemma represents_ofZ (z : Z) : represents (JS.ofZ z) (inject_Z z).
Proof. exists (inject_Z z). split; reflexivity. Qed.

Lemma represents_Fin (q : Q) : represents (JS.Fin q) q.
Proof. exists q. split; reflexivity. Qed.

Lemma represents_mul (a b : num) (x y : Q) :
  represents a x -> represents b y -> represents (JS.mul a b) (x * y).
Proof.
  intros (x' & -> & Ex) (y' & -> & Ey). exists (Qred (x' * y')).
  split; [reflexivity |]. rewrite Qred_correct, Ex, Ey. reflexivity.
Qed.

Lemma represents_add (a b : num) (x y : Q) :
  represents a x -> represents b y -> represents (JS.add a b) (x + y).
Proof.
  intros (x' & -> & Ex) (y' & -> & Ey). exists (Qred (x' + y')).
  split; [reflexivity |]. rewrite Qred_correct, Ex, Ey. reflexivity.
Qed.

Lemma represents_sub (a b : num) (x y : Q) :
  represents a x -> represents b y -> represents (JS.sub a b) (x - y).
Proof.
  intros (x' & -> & Ex) (y' & -> & Ey). exists (Qred (x' + Qred (- y'))).
  split; [reflexivity |]. rewrite !Qred_correct, Ex, Ey. reflexivity.
Qed.

Lemma represents_div (a b : num) (x y : Q) :
  ~ (y == 0)%Q -> represents a x -> represents b y -> represents (JS.div a b) (x / y).
Proof.
  intros Hy (x' & -> & Ex) (y' & -> & Ey). exists (Qred (x' / y')).
  split.
  - unfold JS.div, JS.Qsgn. destruct (Qcompare y' 0) eqn:E; try reflexivity.
    apply Qeq_alt in E. rewrite Ey in E. contradiction.
  - rewrite Qred_correct, Ex, Ey. reflexivity.
Qed.

Lemma represents_max (a b : num) (x y : Q) :
  represents a x -> represents b y -> represents (JS.max a b) (Qmax x y).
Proof.
  intros (x' & -> & Ex) (y' & -> & Ey). simpl.
  destruct (Qle_bool x' y') eqn:E.
  - exists y'. split; [reflexivity |]. apply Qle_bool_iff in E.
    rewrite Ex, Ey in E. rewrite Q.max_r by exact E. exact Ey.
  - exists x'. split; [reflexivity |].
    assert (H : (y <= x)%Q).
    { apply Qlt_le_weak, Qnot_le_lt. intro Hle. rewrite <- Ex, <- Ey in Hle.
      apply Qle_bool_iff in Hle. congruence. }
    rewrite Q.max_l by exact H. exact Ex.
Qed.

Lemma jitter_value (r : Q) : represents (jitter r) (r * (4 # 10) + (8 # 10)).
Proof.
  unfold jitter. apply represents_add; [apply represents_mul |]; apply represents_Fin.
Qed.


(** ** Concurrency planner *)

Lemma tierCap_cases (tier : string) :
  (tier = "premium"%string /\ tierCap tier = 8)
  \/ (tier = "balanced"%string /\ tierCap tier = 12)
  \/ (tier = "aggressive"%string /\ tierCap tier = 15)
  \/ (tier <> "premium"%string /\ tier <> "balanced"%string
      /\ tier <> "aggressive"%string /\ tierCap tier = 5).
Proof.
  unfold tierCap.
  destruct (String.eqb_spec tier "premium") as [-> | H1]; [now left |].
  destruct (String.eqb_spec tier "balanced") as [-> | H2]; [now right; left |].
  destruct (String.eqb_spec tier "aggressive") as [-> | H3];
    [now right; right; left |].
  now right; right; right.
Qed.

Lemma baseConcurrency_pos (d : Z) : 1 <= baseConcurrency d <= 10.
Proof. unfold baseConcurrency. destruct (d =? 0); lia. Qed.

Lemma adjustConcurrency_pos (cfg : Config) : 1 <= adjustConcurrency cfg <= 10.
Proof.
  unfold adjustConcurrency.
  pose proof (baseConcurrency_pos (delay cfg)).
  destruct (tierCap_cases (proxyQuality cfg))
    as [[_ C] | [[_ C] | [[_ C] | (_ & _ & _ & C)]]]; rewrite C; lia.
Qed.

(** ** Snapshots *)

Section Snapshots.

Variable R : Session -> Session -> Prop.
Hypothesis R_refl : forall s, R s s.
Hypothesis R_trans : forall a b c, R a b -> R b c -> R a c.

Lemma linked_last (a b c : Session) (l : list (Point * Session)) :
  linked R a l b -> R b c -> linked R a l c.
Proof.
  destruct l as [| o older]; simpl.
  - intros. eapply R_trans; eassumption.
  - intros [H1 H2] H3. split; [eapply R_trans; eassumption | assumption].
Qed.

Lemma linked_app (a b c : Session) (l1 l2 : list (Point * Session)) :
  linked R a l1 b -> linked R b l2 c -> linked R a (l2 ++ l1) c.
Proof.
  revert c. induction l2 as [| o l2 IH]; simpl; intros c H1 H2.
  - eapply linked_last; eassumption.
  - destruct H2 as [H2 H3]. split; [assumption | apply IH; assumption].
Qed.

Lemma linked_ends (a c : Session) (l : list (Point * Session)) :
  linked R a l c -> R a c.
Proof.
  revert c. induction l as [| o l IH]; simpl; intros c H; [assumption |].
  destruct H as [H1 H2]. eapply R_trans; [apply IH; eassumption | assumption].
Qed.

Lemma linked_In (a c : Session) (l : list (Point * Session)) (o : Point * Session) :
  linked R a l c -> In o l -> R a (snd o) /\ R (snd o) c.
Proof.
  revert c. induction l as [| x l IH]; simpl; intros c H Hin; [contradiction |].
  destruct H as [H1 H2]. destruct Hin as [-> | Hin].
  - split; [eapply linked_ends; eassumption | assumption].
  - destruct (IH _ H2 Hin) as [H3 H4]. split; [assumption |].
    eapply R_trans; eassumption.
Qed.

Lemma Ext_refl (w : World) : Ext R w w.
Proof. exists []. split; [reflexivity | apply R_refl]. Qed.

Lemma Ext_trans (w1 w2 w3 : World) : Ext R w1 w2 -> Ext R w2 w3 -> Ext R w1 w3.
Proof.
  intros (l1 & E1 & H1) (l2 & E2 & H2). exists (l2 ++ l1). split.
  - rewrite E2, E1. apply app_assoc.
  - eapply linked_app; eassumption.
Qed.

Lemma Ext_silent (w w' : World) :
  observed w' = observed w -> R (session w) (session w') -> Ext R w w'.
Proof. intros E H. exists []. split; assumption. Qed.

Lemma Ext_observe (p : Point) (w : World) : Ext R w (observe p w).
Proof.
  exists [(p, session w)]. split; [reflexivity |]. simpl. split; apply R_refl.
Qed.

Lemma Ext_ends (w w' : World) : Ext R w w' -> R (session w) (session w').
Proof. intros (l & _ & H). eapply linked_ends; eassumption. Qed.

Lemma Ext_observed (w w' : World) (o : Point * Session) :
  Ext R w w' -> In o (observed w') ->
  In o (observed w) \/ (R (session w) (snd o) /\ R (snd o) (session w')).
Proof.
  intros (l & E & H) Hin. rewrite E in Hin. apply in_app_or in Hin.
  destruct Hin as [Hin | Hin]; [right | left; assumption].
  eapply linked_In; eassumption.
Qed.

End Snapshots.

Lemma linked_mono (R R' : Session -> Session -> Prop) a l c :
  (forall s s', R s s' -> R' s s') -> linked R a l c -> linked R' a l c.
Proof.
  intros Hsub. revert c. induction l as [| o l IH]; simpl; intros c H.
  - apply Hsub, H.
  - destruct H as [H1 H2]. split; [apply Hsub, H1 | apply IH, H2].
Qed.

Lemma Ext_mono (R R' : Session -> Session -> Prop) w w' :
  (forall s s', R s s' -> R' s s') -> Ext R w w' -> Ext R' w w'.
Proof.
  intros Hsub (l & E & H). exists l. split; [assumption |].
  eapply linked_mono; eassumption.
Qed.

(** ** Updates that leave the queues and the counters alone *)

Lemma Quiet_refl (s : Session) : Quiet s s.
Proof. repeat split. Qed.

Lemma Quiet_trans (a b c : Session) : Quiet a b -> Quiet b c -> Quiet a c.
Proof.
  unfold Quiet. intros (A1 & A2 & A3 & A4 & A5 & A6) (B1 & B2 & B3 & B4 & B5 & B6).
  repeat split; congruence.
Qed.

Lemma Frame_refl (s : Session) : Frame s s.
Proof. repeat split. auto. Qed.

Lemma Frame_trans (a b c : Session) : Frame a b -> Frame b c -> Frame a c.
Proof.
  unfold Frame. intros (A1 & A2 & A3 & A4 & A5) (B1 & B2 & B3 & B4 & B5).
  repeat split; try congruence. auto.
Qed.

Lemma Quiet_Frame (s s' : Session) : Quiet s s' -> Frame s s'.
Proof.
  unfold Quiet, Frame. intros (A1 & A2 & A3 & A4 & A5 & A6).
  repeat split; congruence.
Qed.

Lemma Quiet_tracker (d : Z) (b : bool) (t : Z) (s : Session) :
  Quiet s (updatePerformanceMetrics d b t s).
Proof. repeat split. Qed.

Lemma Frame_tracker (d : Z) (b : bool) (t : Z) (s : Session) :
  Frame s (updatePerformanceMetrics d b t s).
Proof. apply Quiet_Frame, Quiet_tracker. Qed.

Lemma stop_session (w : World) :
  session (stop w) = withCurrentBatch None (withRunning false (session w)).
Proof.
  unfold stop. destruct w as [[r c q rq n t p] a d ti l o st]. cbn.
  destruct c; reflexivity.
Qed.

Lemma stop_observed (w : World) : observed (stop w) = observed w.
Proof.
  unfold stop. destruct w as [s a d t l o st]. cbn.
  destruct (currentBatch s); reflexivity.
Qed.

Lemma stop_dispatched (w : World) : dispatched (stop w) = dispatched w.
Proof.
  unfold stop. destruct w as [s a d t l o st]. cbn.
  destruct (currentBatch s); reflexivity.
Qed.

Lemma stop_Frame (w : World) : Frame (session w) (session (stop w)).
Proof. rewrite stop_session. repeat split. Qed.

Lemma Ext_stop (w : World) : Ext Frame w (stop w).
Proof. apply Ext_silent; [apply stop_observed | apply stop_Frame]. Qed.

Lemma Ext_await (env : Env) (p : Point) (w : World) : Ext Frame w (await env p w).
Proof.
  unfold await. destruct (stopAt env p).
  - eapply Ext_trans; [apply Frame_trans | apply Ext_observe, Frame_refl |].
    eapply Ext_trans; [apply Frame_trans | apply Ext_stop |].
    apply Ext_observe, Frame_refl.
  - apply Ext_observe, Frame_refl.
Qed.

Lemma await_dispatched (env : Env) (p : Point) (w : World) :
  dispatched (await env p w) = dispatched w.
Proof.
  unfold await. destruct (stopAt env p); [| reflexivity].
  change (dispatched (stop (observe p w)) = dispatched w).
  rewrite stop_dispatched. reflexivity.
Qed.

Lemma launch_dispatched (env : Env) (cfg : Config) (b : Z) (batch : list nat) :
  forall (k : nat) (w : World),
    dispatched (snd (launch env cfg b k batch w)) = dispatched w.
Proof.
  induction batch as [| ref rest IH]; intros k w; simpl; [reflexivity |].
  destruct (isRunning (session w)); simpl; [| reflexivity].
  destruct (enableJitter cfg).
  - specialize (IH (S k) (await env (Stagger b (S k))
        (startTimer (Stagger b (S k))
           (staggerDelay cfg (session w) (random env (RStagger b (S k)))) w))).
    destruct (launch env cfg b (S k) rest _) as [launched w2]. simpl in *.
    rewrite IH, await_dispatched. reflexivity.
  - specialize (IH (S k) w).
    destruct (launch env cfg b (S k) rest w) as [launched w2]. exact IH.
Qed.

(** The launch loop starts a prefix of the batch, and the whole batch
    unless the session was stopped meanwhile. *)
Lemma launch_prefix (env : Env) (cfg : Config) (b : Z) (batch : list nat) :
  forall (k : nat) (w : World),
    let r := launch env cfg b k batch w in
    exists rest, batch = fst r ++ rest
                 /\ (rest = [] \/ isRunning (session (snd r)) = false).
Proof.
  induction batch as [| ref rest IH]; intros k w; simpl.
  - exists []. split; [reflexivity | left; reflexivity].
  - destruct (isRunning (session w)) eqn:Hrun; simpl.
    + match goal with |- context [launch env cfg b (S k) rest ?w'] =>
        specialize (IH (S k) w'); destruct (launch env cfg b (S k) rest w') as [l w2]
      end.
      simpl in *. destruct IH as (rest' & -> & H). exists rest'. split; [reflexivity | exact H].
    + exists (ref :: rest). split; [reflexivity | right; exact Hrun].
Qed.

Lemma finish_Quiet (env : Env) (p : Pass) (ref : nat) (e : Execution) (w : World) :
  Quiet (session w) (session (finish env p ref e w))
  /\ observed (finish env p ref e w) = observed w
  /\ aborted (finish env p ref e w) = aborted w
  /\ logs (finish env p ref e w) = logs w
  /\ dispatched (finish env p ref e w)
     = mkDispatch p ref (fetches e) (waits e) :: dispatched w.
Proof.
  unfold finish. destruct (tracked e); cbn; repeat split.
Qed.

Lemma requestId_Quiet (s s' : Session) (ref : nat) :
  Quiet s s' -> requestId s' ref = requestId s ref.
Proof. intros (_ & _ & _ & E & _). unfold requestId. rewrite E. reflexivity. Qed.

Lemma settleAll_spec (env : Env) (cfg : Config) (p : Pass)
    (ab : nat -> bool) (launched : list nat) :
  forall w : World,
    let r := settleAll env cfg p ab launched w in
    fst r = map (resultOf env cfg p (session w) ab) launched
    /\ Quiet (session w) (session (snd r))
    /\ observed (snd r) = observed w
    /\ aborted (snd r) = aborted w
    /\ logs (snd r) = logs w
    /\ dispatched (snd r)
       = rev (map (dispatchOf env cfg p (session w) ab) launched) ++ dispatched w.
Proof.
  induction launched as [| ref rest IH]; intros w; simpl.
  - repeat split.
  - set (e := executeRequest env cfg p (requestId (session w) ref) (ab ref)).
    destruct (finish_Quiet env p ref e w) as (Q1 & O1 & A1 & L1 & D1).
    specialize (IH (finish env p ref e w)).
    destruct (settleAll env cfg p ab rest (finish env p ref e w)) as [results w2].
    simpl in *. destruct IH as (E & Q2 & O2 & A2 & L2 & D2).
    assert (Hid : forall r, requestId (session (finish env p ref e w)) r
                            = requestId (session w) r)
      by (intro r; apply requestId_Quiet, Q1).
    split; [| split; [| split; [| split; [| split]]]]; try congruence.
    + rewrite E. f_equal. apply map_ext. intro r. unfold resultOf. rewrite Hid. reflexivity.
    + eapply Quiet_trans; eassumption.
    + rewrite D2, D1. rewrite <- app_assoc. simpl. f_equal.
      f_equal. apply map_ext. intro r. unfold dispatchOf. rewrite Hid. reflexivity.
Qed.

(** ** Request executor *)

Section Executor.

Variables (maxAttempts : Z) (answer : Z -> Response) (draw : Z -> Q).

(** More fuel than the loop can use changes nothing. *)
Lemma attemptLoop_fuel (fuel : nat) :
  forall attempt : Z,
    (Z.to_nat (maxAttempts - attempt) <= fuel)%nat ->
    attemptLoop fuel maxAttempts answer draw attempt
    = attemptLoop (Z.to_nat (maxAttempts - attempt)) maxAttempts answer draw attempt.
Proof.
  induction fuel as [| fuel IH]; intros attempt Hfuel.
  - replace (Z.to_nat (maxAttempts - attempt)) with 0%nat by lia. reflexivity.
  - destruct (Z.ltb_spec attempt maxAttempts) as [Hlt | Hge].
    + replace (Z.to_nat (maxAttempts - attempt))
        with (S (Z.to_nat (maxAttempts - (attempt + 1)))) by lia.
      simpl. destruct (Z.ltb_spec attempt maxAttempts); [| lia].
      destruct (classify (answer attempt)); [reflexivity |].
      destruct (attempt + 1 =? maxAttempts); [reflexivity |].
      rewrite IH by lia. reflexivity.
    + replace (Z.to_nat (maxAttempts - attempt)) with 0%nat by lia.
      simpl. destruct (Z.ltb_spec attempt maxAttempts); [lia | reflexivity].
Qed.

(** The loop returns [undefined] only when its body never runs. *)
Lemma attemptLoop_defined (fuel : nat) :
  forall attempt : Z,
    attempt < maxAttempts -> fuel = Z.to_nat (maxAttempts - attempt) ->
    outcome (attemptLoop fuel maxAttempts answer draw attempt) <> ReturnedUndefined.
Proof.
  induction fuel as [| fuel IH]; intros attempt Hlt Hfuel; [lia |].
  simpl. destruct (Z.ltb_spec attempt maxAttempts); [| lia].
  destruct (classify (answer attempt)); [discriminate |].
  destruct (Z.eqb_spec (attempt + 1) maxAttempts); [discriminate |].
  simpl. apply IH; lia.
Qed.

(** The waits of a call are the backoff delays of its failed attempts
    but the last, in order: [backoffDelay 1], [backoffDelay 2], ... *)
Lemma attemptLoop_waits (fuel : nat) :
  forall attempt : Z,
    let e := attemptLoop fuel maxAttempts answer draw attempt in
    waits e = map (fun a => backoffDelay a (draw a))
                  (zseq (attempt + 1) (length (waits e)))
    /\ (outcome e <> ReturnedUndefined ->
        Z.of_nat (length (waits e)) = fetches e - 1).
Proof.
  induction fuel as [| fuel IH]; intros attempt; simpl.
  - split; [reflexivity | congruence].
  - destruct (attempt <? maxAttempts); [| split; [reflexivity | simpl; congruence]].
    destruct (classify (answer attempt)); [split; reflexivity |].
    destruct (attempt + 1 =? maxAttempts); [split; reflexivity |].
    destruct (IH (attempt + 1)) as [Hw Hn].
    cbn [waits outcome fetches length]. split.
    + rewrite zseq_S. cbn [map]. f_equal. exact Hw.
    + intro Hdef. specialize (Hn Hdef). lia.
Qed.

(** A first answer that is delivered ends the call at once. *)
Lemma attemptLoop_delivered (fuel : nat) (attempt : Z) (note : option string) :
  attempt < maxAttempts ->
  classify (answer attempt) = Delivered note ->
  attemptLoop (S fuel) maxAttempts answer draw attempt
  = mkExecution (Returned note) 1 [] (Some true).
Proof.
  intros Hlt Hc. simpl. destruct (Z.ltb_spec attempt maxAttempts); [| lia].
  rewrite Hc. reflexivity.
Qed.

(** When every answer ends in the [catch] block the call makes all its
    attempts and throws. *)
Lemma attemptLoop_exhausted (fuel : nat) :
  (forall a, classify (answer a) = Caught) ->
  forall attempt : Z,
    attempt < maxAttempts -> fuel = Z.to_nat (maxAttempts - attempt) ->
    attemptLoop fuel maxAttempts answer draw attempt
    = mkExecution Threw (maxAttempts - attempt)
        (map (fun a => backoffDelay a (draw a))
             (zseq (attempt + 1) (Z.to_nat (maxAttempts - attempt - 1))))
        (Some false).
Proof.
  intros Hall. induction fuel as [| fuel IH]; intros attempt Hlt Hfuel; [lia |].
  simpl. destruct (Z.ltb_spec attempt maxAttempts); [| lia].
  rewrite Hall. destruct (Z.eqb_spec (attempt + 1) maxAttempts) as [E | N].
  - replace (maxAttempts - attempt) with 1 by lia. reflexivity.
  - rewrite IH by lia. cbn [waits outcome fetches tracked].
    replace (Z.to_nat (maxAttempts - attempt - 1))
      with (S (Z.to_nat (maxAttempts - (attempt + 1) - 1))) by lia.
    rewrite zseq_S. cbn [map]. f_equal. lia.
Qed.

End Executor.

Lemma executeRequest_undefined env cfg p i ab :
  maxRetries cfg < 1 ->
  executeRequest env cfg p i ab = mkExecution ReturnedUndefined 0 [] None.
Proof.
  intro H. unfold executeRequest.
  replace (Z.to_nat (maxRetries cfg)) with 0%nat by lia. reflexivity.
Qed.

Lemma executeRequest_defined env cfg p i ab :
  1 <= maxRetries cfg ->
  outcome (executeRequest env cfg p i ab) <> ReturnedUndefined.
Proof.
  intro H. unfold executeRequest. apply attemptLoop_defined; [lia | f_equal; lia].
Qed.

Lemma executeRequest_delivered env cfg p i (note : option string) :
  1 <= maxRetries cfg ->
  classify (fetch env p i 0) = Delivered note ->
  executeRequest env cfg p i false = mkExecution (Returned note) 1 [] (Some true).
Proof.
  intros H Hc. unfold executeRequest.
  replace (Z.to_nat (maxRetries cfg)) with (S (Z.to_nat (maxRetries cfg - 1))) by lia.
  apply attemptLoop_delivered; [lia | exact Hc].
Qed.

Lemma executeRequest_exhausted env cfg p i ab :
  1 <= maxRetries cfg ->
  (forall a, classify (answers env p i ab a) = Caught) ->
  executeRequest env cfg p i ab
  = mkExecution Threw (maxRetries cfg)
      (map (fun a => backoffDelay a (random env (RBackoff p i a)))
           (zseq 1 (Z.to_nat (maxRetries cfg - 1))))
      (Some false).
Proof.
  intros H Hall. unfold executeRequest.
  rewrite (attemptLoop_exhausted _ _ _ (Z.to_nat (maxRetries cfg)) Hall 0);
    [| lia | f_equal; lia].
  f_equal; [lia |]. do 2 f_equal. lia.
Qed.

(** ** Counting results *)

Lemma Tally_refl (s : Session) : Tally s s.
Proof. repeat split. Qed.

Lemma Tally_trans (a b c : Session) : Tally a b -> Tally b c -> Tally a c.
Proof.
  unfold Tally.
  intros (A1 & A2 & A3 & A4 & A5 & A6 & A7 & A8 & A9 & A10)
         (B1 & B2 & B3 & B4 & B5 & B6 & B7 & B8 & B9 & B10).
  repeat split; congruence.
Qed.

Lemma map_id_alter (ref : nat) (l : list Request) :
  map id (alter incRetryCount ref l) = map id l.
Proof.
  revert ref. induction l as [| r l IH]; intros [| ref]; simpl; try reflexivity.
  f_equal. apply IH.
Qed.

Lemma processResult_Tally (cfg : Config) (r : Settled) (s : Session) :
  Tally s (fst (processResult cfg r s)).
Proof.
  unfold processResult. destruct r as [[|] ref |]; cbn; try (repeat split; fail).
  destruct (Z.of_nat (length (retryQueue s)) <? 1000); cbn; [| repeat split].
  match goal with |- context [if ?c then _ else _] => destruct c end; simpl;
    repeat split; try apply map_id_alter; try apply length_alter.
Qed.

Lemma processResult_failure (cfg : Config) (ref : nat) (s : Session) :
  fst (processResult cfg (Value false ref) s)
  = let s2 := withStats incFailed (withStats incSent s) in
    if Z.of_nat (length (retryQueue s)) <? 1000 then
      let s3 := withRequestQueue (alter incRetryCount ref (requestQueue s)) s2 in
      if retryCountAt s3 ref <=? maxRetries cfg
      then withRetryQueue (retryQueue s ++ [ref]) s3
      else s3
    else s2.
Proof.
  unfold processResult. simpl.
  destruct (Z.of_nat (length (retryQueue s)) <? 1000); [| reflexivity].
  match goal with |- context [if ?c then _ else _] => destruct c end; reflexivity.
Qed.

Lemma processResult_flag (cfg : Config) (b : bool) (ref : nat) (s : Session) :
  snd (processResult cfg (Value b ref) s) = false.
Proof.
  unfold processResult. destruct b; cbn; [reflexivity |].
  destruct (Z.of_nat (length (retryQueue s)) <? 1000); cbn; [| reflexivity].
  match goal with |- context [if ?c then _ else _] => destruct c end; reflexivity.
Qed.

Lemma forEachResult_Tally (cfg : Config) (results : list Settled) :
  forall s, Tally s (fst (forEachResult cfg results s)).
Proof.
  induction results as [| r rest IH]; intro s; simpl; [apply Tally_refl |].
  pose proof (processResult_Tally cfg r s) as H.
  destruct (processResult cfg r s) as [s1 threw]. simpl in H.
  destruct threw; [exact H |].
  eapply Tally_trans; [exact H | apply IH].
Qed.

Lemma requestId_map (s : Session) (ref : nat) :
  requestId s ref = match map id (requestQueue s) !! ref with
                    | Some i => i
                    | None => 0
                    end.
Proof.
  unfold requestId. change (map id (requestQueue s)) with (id <$> requestQueue s).
  rewrite list_lookup_fmap. destruct (requestQueue s !! ref); reflexivity.
Qed.

Lemma zseq_lookup (from : Z) (n k : nat) :
  (k < n)%nat -> zseq from n !! k = Some (from + Z.of_nat k).
Proof.
  intro H. unfold zseq. change (map ?f ?l) with (f <$> l).
  rewrite list_lookup_fmap, lookup_seq_lt by exact H. reflexivity.
Qed.

Lemma requestId_wellNumbered (s : Session) (ref : nat) :
  wellNumbered s -> (ref < length (requestQueue s))%nat ->
  requestId s ref = Z.of_nat ref + 1.
Proof.
  intros Hw Hlt. rewrite requestId_map, Hw, zseq_lookup by exact Hlt. lia.
Qed.

Lemma wellNumbered_ids (s s' : Session) :
  map id (requestQueue s') = map id (requestQueue s) ->
  length (requestQueue s') = length (requestQueue s) ->
  wellNumbered s -> wellNumbered s'.
Proof. unfold wellNumbered. intros -> ->. auto. Qed.

Lemma processBatchResults_spec (env : Env) (cfg : Config)
    (results : list Settled) (b : Z) (w : World) :
  let r := processBatchResults env cfg results b w in
  let c := forEachResult cfg results (session w) in
  snd r = snd c
  /\ session (fst r)
     = (if snd c then fst c
        else withStats (setLastBatchTime (now env (AtBatchEnd b))) (fst c))
  /\ observed (fst r) = observed w
  /\ aborted (fst r) = aborted w
  /\ dispatched (fst r) = dispatched w.
Proof.
  unfold processBatchResults.
  destruct (forEachResult cfg results (session w)) as [s1 threw]. simpl.
  destruct threw; simpl; [repeat split |].
  destruct (progressDue b (stats s1)); simpl; repeat split.
Qed.

(** ** The primary pass, for an invariant indexed by the next request *)

Lemma Clean_await (env : Env) (p : Point) (w : World) :
  Clean env w -> Clean env (await env p w).
Proof.
  unfold Clean, await. intros H. destruct (stopAt env p) eqn:E.
  - right. exists p. exact E.
  - exact H.
Qed.

Lemma Clean_launch (env : Env) (cfg : Config) (b : Z) (batch : list nat) :
  forall (k : nat) (w : World),
    Clean env w -> Clean env (snd (launch env cfg b k batch w)).
Proof.
  induction batch as [| ref rest IH]; intros k w H; simpl; [exact H |].
  destruct (isRunning (session w)); simpl; [| exact H].
  match goal with |- context [launch env cfg b (S k) rest ?w'] =>
    specialize (IH (S k) w'); destruct (launch env cfg b (S k) rest w') as [l w2]
  end.
  simpl in *. apply IH. destruct (enableJitter cfg); [| exact H].
  apply Clean_await. exact H.
Qed.

Lemma seq_prefix (a m : nat) (l rest : list nat) :
  seq a m = l ++ rest -> l = seq a (length l) /\ (length l <= m)%nat.
Proof.
  revert a m. induction l as [| x l IH]; intros a m H; simpl.
  - split; [reflexivity | lia].
  - destruct m as [| m]; [discriminate |]. simpl in H. injection H as -> H.
    destruct (IH _ _ H) as [E Hle]. split; [f_equal; exact E | lia].
Qed.

Lemma batchesFrom_stopped env cfg T remaining b w :
  isRunning (session w) = false -> batchesFrom env cfg T remaining b w = w.
Proof. intro H. destruct remaining; simpl; [reflexivity |]. rewrite H. reflexivity. Qed.

Lemma ceilDiv_bounds (n c : Z) :
  1 <= c -> 0 <= n ->
  0 <= ceilDiv n c /\ n <= ceilDiv n c * c /\ (ceilDiv n c - 1) * c < n.
Proof.
  intros Hc Hn. unfold ceilDiv.
  pose proof (Z.div_mod (- n) c ltac:(lia)) as E.
  pose proof (Z.mod_pos_bound (- n) c ltac:(lia)) as B.
  nia.
Qed.

Section Scheduler.

Variables (env : Env) (cfg : Config).
Variable F : Session -> Session -> Prop.
Variable St : nat -> Session -> Prop.

Hypothesis F_refl : forall s, F s s.
Hypothesis F_trans : forall a b c, F a b -> F b c -> F a c.
Hypothesis F_Frame : forall s s', F s s' -> Frame s s'.
Hypothesis F_tracker : forall d b t s, F s (updatePerformanceMetrics d b t s).
Hypothesis F_batch : forall c s, F s (withCurrentBatch c s).
Hypothesis F_await : forall p w, Ext F w (await env p w).

Hypothesis St_F : forall k s s', F s s' -> St k s -> St k s'.
Hypothesis St_batchCount : forall k s, St k s -> St k (withStats incBatchCount s).
Hypothesis St_lastBatchTime :
  forall k z s, St k s -> St k (withStats (setLastBatchTime z) s).
Hypothesis St_step :
  forall k s ab,
    St k s -> (k < length (requestQueue s))%nat ->
    (ab = true -> exists p, stopAt env p = true) ->
    match settle k (executeRequest env cfg Primary (Z.of_nat k + 1) ab) with
    | Value b _ => St (S k) (fst (processResult cfg (Value b k) s))
    | Undefined => forall k', (k < k')%nat -> St k' (withStats incSent s)
    end.

Lemma Ext_launch_F (b : Z) (batch : list nat) :
  forall (k : nat) (w : World), Ext F w (snd (launch env cfg b k batch w)).
Proof.
  induction batch as [| ref rest IH]; intros k w; simpl.
  - apply Ext_refl, F_refl.
  - destruct (isRunning (session w)); simpl; [| apply Ext_refl, F_refl].
    match goal with |- context [launch env cfg b (S k) rest ?w'] =>
      specialize (IH (S k) w'); destruct (launch env cfg b (S k) rest w') as [l w2]
    end.
    simpl in *. destruct (enableJitter cfg); [| exact IH].
    eapply Ext_trans; [apply F_trans | | exact IH].
    apply (F_await _ (startTimer _ _ w)).
Qed.

Lemma settleAll_F (p : Pass) (ab : nat -> bool) (launched : list nat) :
  forall w : World, F (session w) (session (snd (settleAll env cfg p ab launched w))).
Proof.
  induction launched as [| ref rest IH]; intros w; simpl; [apply F_refl |].
  match goal with |- context [settleAll env cfg p ab rest ?w1] =>
    specialize (IH w1); destruct (settleAll env cfg p ab rest w1) as [results w2]
  end.
  simpl in *. eapply F_trans; [| exact IH].
  unfold finish. destruct (tracked _); simpl; [apply F_tracker | apply F_refl].
Qed.

Lemma Ext_adaptiveDelay_F (b : Z) (w : World) : Ext F w (adaptiveDelay env cfg b w).
Proof. unfold adaptiveDelay. apply (F_await _ (startTimer _ _ w)). Qed.

Lemma Sched_Ext (k : nat) (w w' : World) :
  Ext F w w' -> Clean env w' -> dispatched w' = dispatched w ->
  Sched env St k w -> Sched env St k w'.
Proof.
  intros HE HC HD (H1 & H2 & _ & H4 & H5).
  pose proof (Ext_ends F F_trans _ _ HE) as Hends.
  destruct (F_Frame _ _ Hends) as (_ & Eq & _).
  split; [eapply St_F; eassumption |].
  split; [unfold wellNumbered in *; rewrite Eq; exact H2 |].
  split; [exact HC |].
  split; [| unfold calls; rewrite HD; exact H5].
  intros o Hin. destruct (Ext_observed F F_trans _ _ o HE Hin) as [Hold | [Hnew _]].
  - apply H4, Hold.
  - exists k. eapply St_F; eassumption.
Qed.

Lemma forEach_St (ab : nat -> bool) (m : nat) :
  (forall ref, ab ref = true -> exists p, stopAt env p = true) ->
  forall (a : nat) (s : Session),
    St a s -> (a + m <= length (requestQueue s))%nat ->
    St (a + m)
       (fst (forEachResult cfg
               (map (fun ref => settle ref (executeRequest env cfg Primary
                                              (Z.of_nat ref + 1) (ab ref)))
                    (seq a m)) s)).
Proof.
  intro Hab. induction m as [| m IH]; intros a s HSt Hlen; simpl.
  - replace (a + 0)%nat with a by lia. exact HSt.
  - pose proof (St_step a s (ab a) HSt ltac:(lia) (Hab a)) as Hstep.
    destruct (settle a (executeRequest env cfg Primary (Z.of_nat a + 1) (ab a)))
      as [ok ref |] eqn:Er.
    + assert (ref = a) as ->.
      { unfold settle in Er. destruct (outcome _); congruence. }
      pose proof (processResult_flag cfg ok a s) as Hflag.
      pose proof (processResult_Tally cfg (Value ok a) s) as HT.
      destruct (processResult cfg (Value ok a) s) as [s1 threw].
      simpl in *. subst threw.
      replace (a + S m)%nat with (S a + m)%nat by lia.
      apply IH; [exact Hstep |].
      destruct HT as (_ & _ & _ & _ & _ & -> & _). lia.
    + simpl. apply Hstep. lia.
Qed.

Lemma processBatch_Sched (b : Z) (a m : nat) (w : World) :
  Sched env St a w -> (a + m <= length (requestQueue (session w)))%nat ->
  let w' := processBatch env cfg (seq a m) b w in
  (exists k, Sched env St k w'
             /\ (isRunning (session w') = true -> k = (a + m)%nat))
  /\ length (requestQueue (session w')) = length (requestQueue (session w))
  /\ concurrency (session w') = concurrency (session w).
Proof.
  intros HS Hlen. unfold processBatch.
  set (w0 := log (LogProcessingBatch (b + 1) (length (seq a m))) w).
  assert (HS0 : Sched env St a w0) by exact HS.
  pose proof (launch_prefix env cfg b (seq a m) 0 w0) as Hpre.
  pose proof (Ext_launch_F b (seq a m) 0 w0) as HE1.
  pose proof (Clean_launch env cfg b (seq a m) 0 w0 (proj1 (proj2 (proj2 HS0)))) as HC1.
  pose proof (launch_dispatched env cfg b (seq a m) 0 w0) as HD1.
  destruct (launch env cfg b 0 (seq a m) w0) as [launched w1].
  simpl in Hpre, HE1, HC1, HD1.
  destruct Hpre as (rest & Hsplit & Hrest).
  destruct (seq_prefix _ _ _ _ Hsplit) as [Hl Hm'].
  set (m' := length launched) in *.
  set (w2 := onSession (withCurrentBatch (Some launched)) w1).
  set (w3 := await env (Join b) w2).
  assert (HE3 : Ext F w0 w3).
  { eapply Ext_trans; [apply F_trans | exact HE1 |].
    eapply Ext_trans; [apply F_trans | | apply F_await].
    apply Ext_silent; [reflexivity | apply F_batch]. }
  assert (HC3 : Clean env w3) by (apply Clean_await; exact HC1).
  assert (HD3 : dispatched w3 = dispatched w0).
  { subst w3. rewrite await_dispatched. exact HD1. }
  pose proof (Sched_Ext a w0 w3 HE3 HC3 HD3 HS0) as HS3.
  pose proof (settleAll_spec env cfg Primary (isAborted w3) launched w3) as Hset.
  pose proof (settleAll_F Primary (isAborted w3) launched w3) as HF4.
  destruct (settleAll env cfg Primary (isAborted w3) launched w3) as [results w4].
  simpl in Hset, HF4. destruct Hset as (Eres & Q4 & O4 & A4 & _ & D4).
  pose proof (processBatchResults_spec env cfg results b w4) as Hpbr.
  destruct (processBatchResults env cfg results b w4) as [w5 threw].
  simpl in Hpbr. destruct Hpbr as (Eflag & Es5 & O5 & A5 & D5).
  (* the states along the way *)
  pose proof (F_Frame _ _ (Ext_ends F F_trans _ _ HE3)) as (_ & Eq3 & Ec3 & _ & Hrun3).
  assert (HSt4 : St a (session w4))
    by (eapply St_F; [exact HF4 | apply HS3]).
  destruct Q4 as (Er4 & _ & _ & Eq4 & Ec4 & _).
  assert (Hlen3 : (a + m' <= length (requestQueue (session w4)))%nat).
  { rewrite Eq4, Eq3. change (session w0) with (session w). lia. }
  assert (Hab : forall ref, isAborted w3 ref = true -> exists p, stopAt env p = true).
  { intros ref Href. destruct HC3 as [Hnil | Hp]; [| exact Hp].
    unfold isAborted in Href. rewrite Hnil in Href.
    apply bool_decide_eq_true in Href. inversion Href. }
  assert (Eres' : results
                  = map (fun ref => settle ref (executeRequest env cfg Primary
                                                  (Z.of_nat ref + 1) (isAborted w3 ref)))
                        (seq a m')).
  { rewrite Eres, Hl. apply map_ext_in. intros ref Hin. apply in_seq in Hin.
    unfold resultOf. rewrite requestId_wellNumbered; [reflexivity | apply HS3 |].
    rewrite Eq3. change (session w0) with (session w). lia. }
  pose proof (forEach_St (isAborted w3) m' Hab a (session w4) HSt4 Hlen3) as HSt5.
  rewrite <- Eres' in HSt5.
  pose proof (forEachResult_Tally cfg results (session w4)) as HT.
  destruct (forEachResult cfg results (session w4)) as [s5 flag]. simpl in *.
  destruct HT as (Tr & _ & Tc & _ & Tid & Tlen & _).
  set (s6 := if flag then s5 else withStats (setLastBatchTime (now env (AtBatchEnd b))) s5) in *.
  assert (HSt6 : St (a + m') s6) by (subst s6; destruct flag; auto).
  assert (E6 : isRunning s6 = isRunning s5 /\ requestQueue s6 = requestQueue s5
               /\ concurrency s6 = concurrency s5)
    by (subst s6; destruct flag; repeat split).
  destruct E6 as (Er6 & Eq6 & Ec6).
  set (w6 := if threw then log LogBatchError w5 else w5).
  assert (Es6 : session w6 = s6) by (subst w6; destruct threw; exact Es5).
  assert (O6 : observed w6 = observed w3)
    by (subst w6; destruct threw; simpl; congruence).
  assert (A6 : aborted w6 = aborted w3)
    by (subst w6; destruct threw; simpl; congruence).
  assert (D6 : calls w6 = map (pair Primary) (rev (seq 0 (a + m')))).
  { assert (E : dispatched w6 = dispatched w4) by (subst w6; destruct threw; exact D5).
    unfold calls. rewrite E, D4, map_app, map_rev, map_map. simpl.
    destruct HS3 as (_ & _ & _ & _ & Hcalls). unfold calls in Hcalls.
    rewrite Hcalls, seq_app, rev_app_distr, map_app, Hl. simpl.
    rewrite !map_rev. reflexivity. }
  split; [| split].
  - exists (a + m')%nat. split.
    + unfold Sched. simpl. rewrite Es6. split; [| split; [| split; [| split]]].
      * apply St_batchCount. eapply St_F; [apply F_batch | exact HSt6].
      * eapply wellNumbered_ids; [| | apply HS3]; simpl; congruence.
      * unfold Clean in *. simpl. rewrite A6. exact HC3.
      * intros o Hin. simpl in Hin. rewrite O6 in Hin. apply HS3, Hin.
      * exact D6.
    + simpl. rewrite Es6. simpl. rewrite Er6, Tr, Er4. intro Hrun.
      destruct Hrest as [-> | Hstop].
      * rewrite app_nil_r in Hsplit. subst m'. rewrite <- Hsplit, length_seq. reflexivity.
      * exfalso.
        assert (isRunning (session w3) = false); [| congruence].
        pose proof (F_Frame _ _ (Ext_ends F F_trans _ _ (F_await (Join b) w2)))
          as (_ & _ & _ & _ & Hr).
        apply Hr. exact Hstop.
  - simpl. rewrite Es6. simpl. rewrite Eq6, Tlen, Eq4, Eq3. reflexivity.
  - simpl. rewrite Es6. simpl. rewrite Ec6, Tc, Ec4, Ec3. reflexivity.
Qed.

Lemma batchesFrom_Sched (remaining : nat) :
  forall (b : Z) (w : World),
    let n := length (requestQueue (session w)) in
    let c := concurrency (session w) in
    let T := ceilDiv (Z.of_nat n) c in
    1 <= c -> 0 <= b -> b + Z.of_nat remaining = T ->
    Sched env St (Z.to_nat (Z.min (b * c) (Z.of_nat n))) w ->
    let w' := batchesFrom env cfg T remaining b w in
    (exists k, Sched env St k w' /\ (isRunning (session w') = true -> k = n))
    /\ length (requestQueue (session w')) = n
    /\ concurrency (session w') = c.
Proof.
  induction remaining as [| remaining IH]; intros b w n c T Hc Hb HT HS w'.
  - subst w'. simpl. split; [| split; reflexivity].
    eexists. split; [exact HS |]. intros _.
    pose proof (ceilDiv_bounds (Z.of_nat n) c Hc ltac:(lia)) as (_ & B & _).
    fold T in B. assert (b = T) by lia. subst b. lia.
  - destruct (isRunning (session w)) eqn:Hrun.
    2:{ subst w'. rewrite batchesFrom_stopped by exact Hrun.
        split; [| split; reflexivity].
        eexists. split; [exact HS |]. congruence. }
    pose proof (ceilDiv_bounds (Z.of_nat n) c Hc ltac:(lia)) as (B0 & B1 & B2).
    fold T in B0, B1, B2.
    assert (Hbc : b * c < Z.of_nat n) by nia.
    set (a := Z.to_nat (b * c)).
    set (m := Z.to_nat (Z.min (b * c + c) (Z.of_nat n) - b * c)).
    assert (Ha : Z.to_nat (Z.min (b * c) (Z.of_nat n)) = a) by (subst a; lia).
    rewrite Ha in HS.
    assert (Ham : (a + m <= n)%nat) by (subst a m; nia).
    assert (Hnext : Z.to_nat (Z.min ((b + 1) * c) (Z.of_nat n)) = (a + m)%nat)
      by (subst a m; nia).
    subst w'. simpl. rewrite Hrun. simpl.
    fold n c. unfold sliceQueue. fold a m.
    destruct (processBatch_Sched b a m w HS Ham) as ((k1 & HS1 & Hk1) & Hl1 & Hc1).
    set (w1 := processBatch env cfg (seq a m) b w) in *.
    set (w2 := if isRunning (session w1) && (b <? T - 1)
               then adaptiveDelay env cfg b w1 else w1).
    assert (HE2 : Ext F w1 w2).
    { subst w2. destruct (isRunning (session w1) && (b <? T - 1));
        [apply Ext_adaptiveDelay_F | apply Ext_refl, F_refl]. }
    assert (HC2 : Clean env w2).
    { subst w2. destruct (isRunning (session w1) && (b <? T - 1));
        [apply Clean_await | ]; apply HS1. }
    assert (HD2 : dispatched w2 = dispatched w1).
    { subst w2. destruct (isRunning (session w1) && (b <? T - 1)); [| reflexivity].
      apply (await_dispatched env _ (startTimer _ _ w1)). }
    pose proof (Sched_Ext k1 w1 w2 HE2 HC2 HD2 HS1) as HS2.
    pose proof (F_Frame _ _ (Ext_ends F F_trans _ _ HE2)) as (_ & Eq2 & Ec2 & _ & Hr2).
    assert (Hl2 : length (requestQueue (session w2)) = n) by (rewrite Eq2; exact Hl1).
    assert (Hc2 : concurrency (session w2) = c) by (rewrite Ec2; exact Hc1).
    destruct (isRunning (session w2)) eqn:Hrun2.
    + assert (Hrun1 : isRunning (session w1) = true).
      { destruct (isRunning (session w1)); [reflexivity |].
        specialize (Hr2 eq_refl). discriminate. }
      specialize (Hk1 Hrun1). subst k1.
      specialize (IH (b + 1) w2). simpl in IH. rewrite Hl2, Hc2 in IH.
      fold T in IH. rewrite Hnext in IH.
      apply IH; [exact Hc | lia | lia | exact HS2].
    + rewrite batchesFrom_stopped by exact Hrun2.
      split; [| split; assumption].
      exists k1. split; [exact HS2 |]. congruence.
Qed.

Theorem processOptimizedBatches_Sched (w : World) :
  1 <= concurrency (session w) ->
  Sched env St 0 w ->
  let w' := processOptimizedBatches env cfg w in
  (exists k, Sched env St k w'
             /\ (isRunning (session w') = true
                 -> k = length (requestQueue (session w))))
  /\ length (requestQueue (session w')) = length (requestQueue (session w))
  /\ concurrency (session w') = concurrency (session w).
Proof.
  intros Hc HS. unfold processOptimizedBatches.
  pose proof (ceilDiv_bounds (Z.of_nat (length (requestQueue (session w))))
                (concurrency (session w)) Hc ltac:(lia)) as (B0 & _ & _).
  apply (batchesFrom_Sched _ 0 w); [exact Hc | lia | lia |].
  replace (Z.to_nat _) with 0%nat by lia. exact HS.
Qed.

End Scheduler.

Lemma Ext_launch (env : Env) (cfg : Config) (b : Z) (batch : list nat)
    (k : nat) (w : World) :
  Ext Frame w (snd (launch env cfg b k batch w)).
Proof. apply Ext_launch_F; [apply Frame_refl | apply Frame_trans | apply Ext_await]. Qed.

Lemma Ext_adaptiveDelay (env : Env) (cfg : Config) (b : Z) (w : World) :
  Ext Frame w (adaptiveDelay env cfg b w).
Proof. apply Ext_adaptiveDelay_F, Ext_await. Qed.

(** ** The session around the primary pass *)

Lemma runSession_eq (env : Env) (cfg : Config) :
  runSession env cfg
  = observe Finished
      (let '(w4, threw) := retryPass env cfg (primaryPass env cfg) in
       if threw then w4 else complete env w4).
Proof.
  unfold runSession, start.
  change (isRunning (session (newSession env cfg))) with false. cbv iota.
  change (processOptimizedBatches env cfg _) with (primaryPass env cfg).
  change (if 0 <? Z.of_nat (length (retryQueue (session (primaryPass env cfg))))
          then processRetryQueue env cfg (primaryPass env cfg)
          else (primaryPass env cfg, false))
    with (retryPass env cfg (primaryPass env cfg)).
  destruct (retryPass env cfg (primaryPass env cfg)) as [w4 threw]. reflexivity.
Qed.

(** The state in which [start()] leaves the session is a snapshot. *)
Lemma runSession_finished (env : Env) (cfg : Config) :
  In (Finished, session (runSession env cfg)) (observed (runSession env cfg)).
Proof.
  unfold runSession, start.
  change (isRunning (session (newSession env cfg))) with false. cbv iota.
  match goal with |- context [let '(w4, threw) := ?x in _] => destruct x as [w4 threw] end.
  left. reflexivity.
Qed.

Lemma generateRequestQueue_length (cfg : Config) :
  length (generateRequestQueue cfg) = Z.to_nat (impressions cfg).
Proof. unfold generateRequestQueue. rewrite length_map, length_seq. reflexivity. Qed.

Lemma generateRequestQueue_lookup (cfg : Config) (j : nat) (r : Request) :
  generateRequestQueue cfg !! j = Some r -> r = mkRequest (Z.of_nat j + 1) 0.
Proof.
  unfold generateRequestQueue. change (map ?f ?l) with (f <$> l).
  rewrite list_lookup_fmap. intro H.
  destruct (seq 0 (Z.to_nat (impressions cfg)) !! j) as [k |] eqn:E; [| discriminate].
  apply lookup_seq in E. destruct E as [-> _]. simpl in H. congruence.
Qed.

Lemma newSession_wellNumbered (env : Env) (cfg : Config) :
  wellNumbered (session (begin env (newSession env cfg))).
Proof.
  unfold wellNumbered. simpl. unfold generateRequestQueue.
  rewrite map_map, length_map, length_seq. unfold zseq. apply map_ext.
  intro k. simpl. lia.
Qed.

Lemma begin_Sched (env : Env) (cfg : Config) (St : nat -> Session -> Prop) :
  St 0%nat (session (begin env (newSession env cfg))) ->
  Sched env St 0 (begin env (newSession env cfg)).
Proof.
  intro H. split; [exact H |]. split; [apply newSession_wellNumbered |].
  split; [left; reflexivity |]. split; [intros o [] | reflexivity].
Qed.

Lemma snapshotsIn_Ext (R : Session -> Session -> Prop) (P : Session -> Prop)
    (w w' : World) :
  (forall a b c, R a b -> R b c -> R a c) ->
  (forall s s', R s s' -> P s -> P s') ->
  Ext R w w' -> P (session w) -> snapshotsIn P w ->
  P (session w') /\ snapshotsIn P w'.
Proof.
  intros Rt HP HE Hs Hobs. split.
  - eapply HP; [eapply Ext_ends; eassumption | exact Hs].
  - intros o Hin. destruct (Ext_observed R Rt _ _ o HE Hin) as [Hold | [Hnew _]].
    + apply Hobs, Hold.
    + eapply HP; eassumption.
Qed.

(** ** The retry pass *)

Lemma Later_refl (s : Session) : Later s s.
Proof. repeat split. Qed.

Lemma Later_trans (a b c : Session) : Later a b -> Later b c -> Later a c.
Proof.
  unfold Later. intros (A1 & A2 & A3 & A4) (B1 & B2 & B3 & B4).
  repeat split; congruence.
Qed.

Lemma Frame_Later (s s' : Session) : Frame s s' -> Later s s'.
Proof. unfold Frame, Later. intros (_ & A2 & A3 & A4 & _). repeat split; congruence. Qed.

Lemma retryStagger_fields (p : Point) (chunk : list nat) :
  forall (i : Z) (w : World),
    let w' := retryStagger p i chunk w in
    session w' = session w /\ observed w' = observed w
    /\ dispatched w' = dispatched w /\ aborted w' = aborted w
    /\ logs w' = logs w.
Proof.
  induction chunk as [| ref rest IH]; intros i w; simpl; [repeat split |].
  apply (IH (i + 1) (startTimer p (JS.ofZ (i * 100)) w)).
Qed.

Lemma retryChunksFrom_stopped env cfg rc T remaining i okc koc w :
  isRunning (session w) = false ->
  retryChunksFrom env cfg rc T remaining i okc koc w = (w, okc, koc, false).
Proof. intro H. destruct remaining; simpl; [reflexivity |]. rewrite H. reflexivity. Qed.

Lemma retryChunksFrom_Ext env cfg rc T (remaining : nat) :
  forall i okc koc w,
    Ext Frame w (fst (fst (fst (retryChunksFrom env cfg rc T remaining i okc koc w)))).
Proof.
  induction remaining as [| remaining IH]; intros i okc koc w; simpl.
  - apply Ext_refl, Frame_refl.
  - destruct (isRunning (session w)); simpl; [| apply Ext_refl, Frame_refl].
    set (chunk := take _ (drop _ (retryQueue (session w)))).
    set (w0 := retryStagger (RetryJoin i) 0 chunk w).
    destruct (retryStagger_fields (RetryJoin i) chunk 0 w) as (Es0 & Eo0 & _).
    fold w0 in Es0, Eo0.
    set (w1 := await env (RetryJoin i) w0).
    assert (HE1 : Ext Frame w w1).
    { eapply Ext_trans; [apply Frame_trans | | apply Ext_await].
      apply Ext_silent; [exact Eo0 | rewrite Es0; apply Frame_refl]. }
    pose proof (settleAll_spec env cfg Retry (fun _ => false) chunk w1) as Hset.
    destruct (settleAll env cfg Retry (fun _ => false) chunk w1) as [results w2].
    simpl in Hset. destruct Hset as (_ & Q2 & O2 & _).
    assert (HE2 : Ext Frame w w2).
    { eapply Ext_trans; [apply Frame_trans | exact HE1 |].
      apply Ext_silent; [exact O2 | apply Quiet_Frame, Q2]. }
    destruct (countRetryResults results okc koc) as [[okc' koc'] threw].
    destruct threw; simpl; [exact HE2 |].
    match goal with |- context [retryChunksFrom _ _ _ _ _ _ _ _ ?w3] =>
      eapply Ext_trans; [apply Frame_trans | | apply (IH (i + 1) okc' koc' w3)]
    end.
    eapply Ext_trans; [apply Frame_trans | exact HE2 |].
    destruct (i <? T - 1); [| apply Ext_refl, Frame_refl].
    apply (Ext_await env _ (startTimer _ _ w2)).
Qed.

Lemma processRetryQueue_Ext (env : Env) (cfg : Config) (w : World) :
  Ext Later w (fst (processRetryQueue env cfg w)).
Proof.
  unfold processRetryQueue.
  destruct (Z.of_nat (length (retryQueue (session w))) =? 0); simpl;
    [apply Ext_refl, Later_refl |].
  match goal with |- context [retryChunksFrom ?e ?c ?rc ?T ?r ?i ?a ?b ?w0] =>
    pose proof (retryChunksFrom_Ext e c rc T r i a b w0) as HE;
    destruct (retryChunksFrom e c rc T r i a b w0) as [[[w1 okc] koc] threw]
  end.
  simpl in HE. apply (Ext_mono Frame Later _ _ Frame_Later) in HE.
  destruct threw; simpl; [exact HE |].
  eapply Ext_trans; [apply Later_trans | exact HE |].
  apply Ext_silent; [reflexivity | repeat split].
Qed.

Lemma retryPass_Ext (env : Env) (cfg : Config) (w : World) :
  Ext Later w (fst (retryPass env cfg w)).
Proof.
  unfold retryPass. destruct (0 <? _); [apply processRetryQueue_Ext |].
  apply Ext_refl, Later_refl.
Qed.

Lemma complete_Ext (env : Env) (w : World) : Ext Later w (complete env w).
Proof. apply Ext_silent; [reflexivity | repeat split]. Qed.

(** From the end of the primary pass to the end of [start()]. *)
Lemma afterPrimary_Ext (env : Env) (cfg : Config) :
  Ext Later (primaryPass env cfg) (runSession env cfg).
Proof.
  rewrite runSession_eq.
  pose proof (retryPass_Ext env cfg (primaryPass env cfg)) as HE.
  destruct (retryPass env cfg (primaryPass env cfg)) as [w4 threw]. simpl in HE.
  eapply Ext_trans; [apply Later_trans | exact HE |].
  eapply Ext_trans; [apply Later_trans | | apply Ext_observe, Later_refl].
  destruct threw; [apply Ext_refl, Later_refl | apply complete_Ext].
Qed.

(** ** Retry counters *)

Lemma Frame_batch (c : option (list nat)) (s : Session) :
  Frame s (withCurrentBatch c s).
Proof. repeat split. simpl. auto. Qed.

Lemma countedOnce_step (env : Env) (cfg : Config) (k : nat) (s : Session) (ab : bool) :
  countedOnce cfg k s ->
  match settle k (executeRequest env cfg Primary (Z.of_nat k + 1) ab) with
  | Value b _ => countedOnce cfg (S k) (fst (processResult cfg (Value b k) s))
  | Undefined => forall k', (k < k')%nat -> countedOnce cfg k' (withStats incSent s)
  end.
Proof.
  intro H.
  destruct (settle k (executeRequest env cfg Primary (Z.of_nat k + 1) ab))
    as [b ref |] eqn:Er.
  - assert (Hmax : 1 <= maxRetries cfg).
    { destruct (Z_lt_le_dec (maxRetries cfg) 1) as [Hlt | Hle]; [| exact Hle].
      rewrite executeRequest_undefined in Er by exact Hlt. discriminate. }
    assert (Hweak : forall j r, requestQueue s !! j = Some r ->
              retryCount r = 0 \/ (retryCount r = 1 /\ 1 <= maxRetries cfg /\ (j < S k)%nat)).
    { intros j r Hj. destruct (H j r Hj) as [E | (E & M & L)]; [left | right]; auto. }
    assert (Halter : forall j r,
              alter incRetryCount k (requestQueue s) !! j = Some r ->
              retryCount r = 0 \/ (retryCount r = 1 /\ 1 <= maxRetries cfg /\ (j < S k)%nat)).
    { intros j r Hj. rewrite list_lookup_alter in Hj.
      destruct (decide (k = j)) as [<- | Hne]; [| apply Hweak, Hj].
      destruct (requestQueue s !! k) as [r0 |] eqn:E0; [| discriminate].
      simpl in Hj. injection Hj as <-. right. simpl.
      destruct (H k r0 E0) as [E | (_ & _ & L)]; [| lia].
      repeat split; [lia | exact Hmax | lia]. }
    unfold processResult. destruct b; simpl; [exact Hweak |].
    destruct (Z.of_nat (length (retryQueue s)) <? 1000); simpl; [| exact Hweak].
    match goal with |- context [if ?c then _ else _] => destruct c end; exact Halter.
  - intros k' Hk' j r Hj. simpl in Hj.
    destruct (H j r Hj) as [E | (E & M & L)]; [left | right]; auto.
    repeat split; auto. lia.
Qed.

Lemma countedOnce_withinBudget (cfg : Config) (s : Session) :
  0 <= maxRetries cfg -> (exists k, countedOnce cfg k s) -> withinBudget cfg s.
Proof.
  intros Hmax [k H] r Hin. apply list_elem_of_In, list_elem_of_lookup in Hin.
  destruct Hin as [j Hj]. destruct (H j r Hj) as [E | (E & M & _)]; lia.
Qed.

Lemma primary_countedOnce (env : Env) (cfg : Config) :
  exists k, Sched env (countedOnce cfg) k (primaryPass env cfg).
Proof.
  unfold primaryPass.
  destruct (processOptimizedBatches_Sched env cfg Frame (countedOnce cfg)
              Frame_refl Frame_trans (fun s s' H => H) Frame_tracker Frame_batch
              (Ext_await env))
    with (w := begin env (newSession env cfg)) as ((k & HS & _) & _).
  - intros k s s' (_ & E & _) H j r Hj. rewrite E in Hj. apply (H j r Hj).
  - intros k s H. exact H.
  - intros k z s H. exact H.
  - intros k s ab H _ _. apply countedOnce_step, H.
  - simpl. apply adjustConcurrency_pos.
  - apply begin_Sched. intros j r Hj. simpl in Hj.
    apply generateRequestQueue_lookup in Hj. subst r. left. reflexivity.
  - exists k. exact HS.
Qed.

(** The primary pass keeps the queue of requests and the width. *)
Lemma primaryPass_shape (env : Env) (cfg : Config) :
  length (requestQueue (session (primaryPass env cfg))) = Z.to_nat (impressions cfg)
  /\ 1 <= concurrency (session (primaryPass env cfg)) <= 10.
Proof.
  unfold primaryPass.
  destruct (processOptimizedBatches_Sched env cfg Frame (fun _ _ => True)
              Frame_refl Frame_trans (fun s s' H => H) Frame_tracker Frame_batch
              (Ext_await env))
    with (w := begin env (newSession env cfg)) as (_ & Hl & Hc); auto.
  - intros k s ab _ _ _. destruct (settle k _); auto.
  - simpl. apply adjustConcurrency_pos.
  - apply begin_Sched. exact I.
  - rewrite Hl, Hc. simpl. split; [apply generateRequestQueue_length |].
    apply adjustConcurrency_pos.
Qed.

Lemma session_withinBudget (env : Env) (cfg : Config) :
  0 <= maxRetries cfg ->
  snapshotsIn (withinBudget cfg) (runSession env cfg).
Proof.
  intro Hmax. destruct (primary_countedOnce env cfg) as (k & HS & _ & _ & Hobs & _).
  destruct (snapshotsIn_Ext Later (fun s => exists j, countedOnce cfg j s)
              (primaryPass env cfg) (runSession env cfg) Later_trans) as [_ H].
  - intros s s' (E & _) [j Hj]. exists j. intros i r Hi. rewrite E in Hi. apply (Hj i r Hi).
  - apply afterPrimary_Ext.
  - exists k. exact HS.
  - exact Hobs.
  - intros o Hin. apply countedOnce_withinBudget; [exact Hmax | apply H, Hin].
Qed.

(** ** Sessions that are never stopped *)

Lemma Calm_refl (s : Session) : Calm s s.
Proof. split; [apply Frame_refl | reflexivity]. Qed.

Lemma Calm_trans (a b c : Session) : Calm a b -> Calm b c -> Calm a c.
Proof.
  intros [F1 R1] [F2 R2]. split; [eapply Frame_trans; eassumption | congruence].
Qed.

Lemma Calm_Frame (s s' : Session) : Calm s s' -> Frame s s'.
Proof. intros [H _]. exact H. Qed.

Lemma Quiet_Calm (s s' : Session) : Quiet s s' -> Calm s s'.
Proof. intro H. split; [apply Quiet_Frame, H | apply H]. Qed.

Lemma Calm_tracker (d : Z) (b : bool) (t : Z) (s : Session) :
  Calm s (updatePerformanceMetrics d b t s).
Proof. apply Quiet_Calm, Quiet_tracker. Qed.

Lemma Calm_batch (c : option (list nat)) (s : Session) : Calm s (withCurrentBatch c s).
Proof. split; [apply Frame_batch | reflexivity]. Qed.

Section NeverStopped.

Variables (env : Env) (cfg : Config).
Hypothesis Hnever : neverStopped env.

Lemma await_never (p : Point) (w : World) : await env p w = observe p w.
Proof. unfold await. rewrite Hnever. reflexivity. Qed.

Lemma Ext_await_never (p : Point) (w : World) : Ext Calm w (await env p w).
Proof. rewrite await_never. apply Ext_observe, Calm_refl. Qed.

Lemma never_aborted (ab : bool) : (ab = true -> exists p, stopAt env p = true) -> ab = false.
Proof.
  intro H. destruct ab; [| reflexivity].
  destruct (H eq_refl) as [p Hp]. rewrite Hnever in Hp. discriminate.
Qed.

(** The primary pass of a session that is never stopped, for a property
    [St] that holds as long as the session runs. *)
Lemma primaryPass_never (St : nat -> Session -> Prop) :
  (forall k s s', Calm s s' -> St k s -> St k s') ->
  (forall k s, St k s -> St k (withStats incBatchCount s)) ->
  (forall k z s, St k s -> St k (withStats (setLastBatchTime z) s)) ->
  (forall k s, St k s -> isRunning s = true) ->
  (forall k s, St k s -> (k < length (requestQueue s))%nat ->
     match settle k (executeRequest env cfg Primary (Z.of_nat k + 1) false) with
     | Value b _ => St (S k) (fst (processResult cfg (Value b k) s))
     | Undefined => forall k', (k < k')%nat -> St k' (withStats incSent s)
     end) ->
  St 0%nat (session (begin env (newSession env cfg))) ->
  Sched env St (Z.to_nat (impressions cfg)) (primaryPass env cfg).
Proof.
  intros H1 H2 H3 Hrun Hstep H0. unfold primaryPass.
  destruct (processOptimizedBatches_Sched env cfg Calm St
              Calm_refl Calm_trans Calm_Frame Calm_tracker Calm_batch
              Ext_await_never H1 H2 H3)
    with (w := begin env (newSession env cfg)) as ((k & HS & Hk) & _).
  - intros k s ab HSt Hlt Hab. rewrite (never_aborted ab Hab). apply Hstep; assumption.
  - simpl. apply adjustConcurrency_pos.
  - apply begin_Sched, H0.
  - rewrite Hk in HS.
    + simpl in HS. rewrite generateRequestQueue_length in HS. exact HS.
    + eapply Hrun, HS.
Qed.

End NeverStopped.

(** ** Outcome classification *)

Lemma classify_server_error (status : Z) :
  500 <= status -> classify (HttpResponse status) = Caught.
Proof.
  intro H. unfold classify, ok.
  destruct (Z.leb_spec status 299); [lia |]. rewrite andb_false_r. simpl.
  destruct (Z.leb_spec 500 status); [reflexivity | lia].
Qed.

Lemma classify_blocked (status : Z) :
  status = 403 \/ status = 404 ->
  classify (HttpResponse status) = Delivered (Some ("HTTP " ++ showZ status)%string).
Proof. intros [-> | ->]; reflexivity. Qed.

Lemma classify_client_error (status : Z) :
  400 <= status < 500 -> status <> 403 -> status <> 404 ->
  classify (HttpResponse status) = Caught.
Proof.
  intros H N1 N2. unfold classify, ok.
  destruct (Z.leb_spec status 299); [lia |]. rewrite andb_false_r. simpl.
  destruct (Z.leb_spec 500 status); [lia |].
  destruct (Z.leb_spec 400 status); [| lia].
  destruct (Z.eqb_spec status 404); [lia |].
  destruct (Z.eqb_spec status 403); [lia | reflexivity].
Qed.

Lemma classify_success (status : Z) :
  200 <= status < 400 -> classify (HttpResponse status) = Delivered None.
Proof.
  intro H. unfold classify, ok.
  destruct (Z.leb_spec 200 status); [| lia].
  destruct (Z.leb_spec status 299); simpl; [reflexivity |].
  destruct (Z.leb_spec 500 status); [lia |].
  destruct (Z.leb_spec 400 status); [lia | reflexivity].
Qed.

(** ** Every request answered 404 *)

Lemma runSession_noRetry (env : Env) (cfg : Config) :
  retryQueue (session (primaryPass env cfg)) = [] ->
  session (runSession env cfg) = withRunning false (session (primaryPass env cfg))
  /\ dispatched (runSession env cfg) = dispatched (primaryPass env cfg).
Proof.
  intro H. rewrite runSession_eq. unfold retryPass. rewrite H. simpl. split; reflexivity.
Qed.

Lemma allDelivered_primary (env : Env) (cfg : Config) :
  neverStopped env -> allAnswer env 404 ->
  1 <= maxRetries cfg ->
  Sched env (allDelivered cfg) (Z.to_nat (impressions cfg)) (primaryPass env cfg).
Proof.
  intros Hnever H404 Hmax. apply primaryPass_never; [exact Hnever | ..].
  - intros k s s' [(E1 & _ & _ & E4 & _) E5] (A1 & A2 & A3 & A4 & A5 & A6).
    unfold allDelivered. rewrite E1, E4, E5. repeat split; assumption.
  - intros k s H. exact H.
  - intros k z s H. exact H.
  - intros k s H. apply H.
  - intros k s (A1 & A2 & A3 & A4 & A5 & A6) _.
    rewrite (executeRequest_delivered env cfg Primary _ (Some "HTTP 404"%string) Hmax)
      by (rewrite H404; reflexivity).
    unfold allDelivered. simpl. rewrite A3, A4.
    repeat split; try assumption; lia.
  - repeat split.
Qed.

(** ** Every request failing *)

Lemma allCaught_exhausted (env : Env) (cfg : Config) (p : Pass) (i : Z) :
  allCaught env -> 1 <= maxRetries cfg ->
  executeRequest env cfg p i false
  = mkExecution Threw (maxRetries cfg)
      (map (fun a => backoffDelay a (random env (RBackoff p i a)))
           (zseq 1 (Z.to_nat (maxRetries cfg - 1))))
      (Some false).
Proof.
  intros Hall Hmax. apply executeRequest_exhausted; [exact Hmax |].
  intro a. unfold answers. simpl. apply Hall.
Qed.

Lemma allFailed_primary (env : Env) (cfg : Config) :
  neverStopped env -> allCaught env ->
  1 <= maxRetries cfg -> impressions cfg <= 1000 ->
  Sched env (allFailed cfg) (Z.to_nat (impressions cfg)) (primaryPass env cfg).
Proof.
  intros Hnever Hall Hmax Hcap. apply primaryPass_never; [exact Hnever | ..].
  - intros k s s' [(E1 & E2 & _ & E4 & _) E5] (A1 & A2 & A3 & A4 & A5 & A6 & A7 & A8).
    unfold allFailed. rewrite E1, E2, E4, E5. repeat split; assumption.
  - intros k s H. exact H.
  - intros k z s H. exact H.
  - intros k s H. apply H.
  - intros k s (A1 & A2 & A3 & A4 & A5 & A6 & A7 & A8) Hk.
    rewrite (allCaught_exhausted env cfg Primary _ Hall Hmax).
    unfold settle, processResult. cbn [outcome].
    assert (Hq : (Z.of_nat (length (retryQueue (withStats incFailed (withStats incSent s))))
                  <? 1000) = true).
    { simpl. rewrite A6, length_seq. apply Z.ltb_lt. lia. }
    rewrite Hq.
    destruct (lookup_lt_is_Some_2 (requestQueue s) k Hk) as [r0 Hr0].
    pose proof (A8 k r0 Hr0) as Hc0. rewrite Nat.ltb_irrefl in Hc0.
    assert (Hcount : retryCountAt
                       (withRequestQueue (alter incRetryCount k
                          (requestQueue (withStats incFailed (withStats incSent s))))
                          (withStats incFailed (withStats incSent s))) k = 1).
    { unfold retryCountAt. simpl. rewrite list_lookup_alter.
      destruct (decide (k = k)); [| congruence]. rewrite Hr0. simpl. lia. }
    rewrite Hcount. destruct (Z.leb_spec 1 (maxRetries cfg)); [| lia].
    unfold allFailed. simpl. rewrite A3, A4, A5, A6, length_alter.
    repeat split; try assumption; try lia.
    + change (0%nat :: seq 1 k) with (seq 0 (S k)). rewrite seq_S. reflexivity.
    + intros j r Hj. rewrite list_lookup_alter in Hj.
      destruct (decide (k = j)) as [<- | Hne].
      * rewrite Hr0 in Hj. simpl in Hj. injection Hj as <-. simpl.
        destruct (Nat.ltb_spec k (S k)); lia.
      * rewrite (A8 j r Hj).
        destruct (Nat.ltb_spec j k), (Nat.ltb_spec j (S k)); lia.
  - repeat split; simpl.
    + rewrite generateRequestQueue_length. lia.
    + intros j r Hj. apply generateRequestQueue_lookup in Hj. subst r. reflexivity.
Qed.

Lemma calls_dispatchOf env cfg p s ab (l : list nat) :
  map (fun d => (d_pass d, d_request d)) (rev (map (dispatchOf env cfg p s ab) l))
  = map (pair p) (rev l).
Proof. rewrite <- map_rev, map_map. apply map_ext. reflexivity. Qed.

Lemma countRetryResults_failed (chunk : list nat) :
  forall okc koc,
    countRetryResults (map (Value false) chunk) okc koc
    = (okc, koc + Z.of_nat (length chunk), false).
Proof.
  induction chunk as [| ref rest IH]; intros okc koc;
    cbn [map countRetryResults length].
  - do 2 f_equal. simpl. lia.
  - rewrite IH. do 2 f_equal. lia.
Qed.

Section RetryAllFailing.

Variables (env : Env) (cfg : Config).
Hypothesis Hnever : neverStopped env.
Hypothesis Hall : allCaught env.
Hypothesis Hmax : 1 <= maxRetries cfg.

Lemma retryChunksFrom_allFail (rc T : Z) (remaining : nat) :
  forall (i okc koc : Z) (w : World),
    let q := retryQueue (session w) in
    let a := Z.to_nat (Z.min (i * rc) (Z.of_nat (length q))) in
    isRunning (session w) = true -> 1 <= rc -> 0 <= i ->
    T = ceilDiv (Z.of_nat (length q)) rc -> i + Z.of_nat remaining = T ->
    exists w',
      retryChunksFrom env cfg rc T remaining i okc koc w
      = (w', okc, koc + Z.of_nat (length q - a), false)
      /\ Calm (session w) (session w')
      /\ calls w' = map (pair Retry) (rev (drop a q)) ++ calls w.
Proof.
  induction remaining as [| remaining IH]; intros i okc koc w q a Hrun Hrc Hi HT Hrem.
  - pose proof (ceilDiv_bounds (Z.of_nat (length q)) rc Hrc ltac:(lia)) as (_ & B & _).
    rewrite <- HT in B. assert (i = T) by lia. subst i.
    assert (Ea : a = length q) by (subst a; lia).
    exists w. simpl. rewrite Ea, Nat.sub_diag, drop_all. simpl.
    split; [repeat f_equal; lia |]. split; [apply Calm_refl | reflexivity].
  - pose proof (ceilDiv_bounds (Z.of_nat (length q)) rc Hrc ltac:(lia)) as (B0 & B1 & B2).
    rewrite <- HT in B0, B1, B2.
    assert (Hirc : i * rc < Z.of_nat (length q)) by nia.
    assert (Ea : a = Z.to_nat (i * rc)) by (subst a; lia).
    simpl. rewrite Hrun. simpl. fold q.
    set (m := Z.to_nat (Z.min (i * rc + rc) (Z.of_nat (length q)) - i * rc)).
    rewrite <- Ea.
    set (chunk := take m (drop a q)).
    assert (Hchunk : length chunk = m).
    { subst chunk. rewrite length_take, length_drop. subst m. lia. }
    set (w0 := retryStagger (RetryJoin i) 0 chunk w).
    destruct (retryStagger_fields (RetryJoin i) chunk 0 w) as (Es0 & Eo0 & Ed0 & _).
    fold w0 in Es0, Eo0, Ed0.
    rewrite await_never by exact Hnever.
    pose proof (settleAll_spec env cfg Retry (fun _ => false) chunk
                  (observe (RetryJoin i) w0)) as Hset.
    destruct (settleAll env cfg Retry (fun _ => false) chunk
                (observe (RetryJoin i) w0)) as [results w2].
    simpl in Hset. destruct Hset as (Eres & Q2 & _ & _ & _ & D2).
    assert (Eres' : results = map (Value false) chunk).
    { rewrite Eres. apply map_ext. intro ref. unfold resultOf.
      rewrite (allCaught_exhausted env cfg Retry _ Hall Hmax). reflexivity. }
    rewrite Eres', countRetryResults_failed, Hchunk.
    set (w3 := if i <? T - 1
               then await env (RetryWait i) (startTimer (RetryWait i) (JS.ofZ 500) w2)
               else w2).
    assert (Es3 : session w3 = session w2 /\ dispatched w3 = dispatched w2).
    { subst w3. destruct (i <? T - 1); [| split; reflexivity].
      rewrite await_never by exact Hnever. split; reflexivity. }
    destruct Es3 as [Es3 Ed3].
    assert (HC3 : Calm (session w) (session w3)).
    { rewrite Es3. apply Quiet_Calm. rewrite <- Es0. exact Q2. }
    assert (Hq3 : retryQueue (session w3) = q) by (destruct HC3 as [(E & _) _]; exact E).
    assert (Hrun3 : isRunning (session w3) = true)
      by (destruct HC3 as [_ E]; rewrite E; exact Hrun).
    destruct (IH (i + 1) okc (koc + Z.of_nat m) w3) as (w' & Eloop & HC' & Hcalls');
      try assumption; try lia.
    { rewrite Hq3. exact HT. }
    rewrite Hq3 in Eloop, Hcalls'.
    assert (Enext : Z.to_nat (Z.min ((i + 1) * rc) (Z.of_nat (length q))) = (a + m)%nat)
      by (subst m; nia).
    rewrite Enext in Eloop, Hcalls'.
    exists w'. split; [| split].
    + rewrite Eloop. do 2 f_equal. subst m. lia.
    + eapply Calm_trans; eassumption.
    + rewrite Hcalls'. unfold calls at 1. rewrite Ed3, D2.
      change (dispatched (observe (RetryJoin i) w0)) with (dispatched w0).
      rewrite Ed0, map_app, calls_dispatchOf. fold (calls w).
      rewrite app_assoc. f_equal.
      rewrite <- (take_drop m (drop a q)) at 1. fold chunk.
      rewrite drop_drop, rev_app_distr, map_app. reflexivity.
Qed.

Lemma processRetryQueue_allFail (w : World) :
  let q := retryQueue (session w) in
  isRunning (session w) = true -> 1 <= concurrency (session w) -> q <> [] ->
  let w' := fst (processRetryQueue env cfg w) in
  snd (processRetryQueue env cfg w) = false
  /\ Later (session w) (session w')
  /\ retryQueue (session w') = []
  /\ calls w' = map (pair Retry) (rev q) ++ calls w.
Proof.
  intros q Hrun Hc Hq. unfold processRetryQueue. fold q.
  destruct (Z.eqb_spec (Z.of_nat (length q)) 0) as [E | _].
  { destruct q; [congruence | simpl in E; lia]. }
  set (rc := Z.max 1 (concurrency (session w) / 2)).
  set (T := ceilDiv (Z.of_nat (length q)) rc).
  pose proof (ceilDiv_bounds (Z.of_nat (length q)) rc ltac:(lia) ltac:(lia)) as (B0 & _).
  destruct (retryChunksFrom_allFail rc T (Z.to_nat T) 0 0 0 (log (LogRetryQueue (length q)) w))
    as (w1 & Eloop & HC & Hcalls); try assumption; try lia; try reflexivity.
  simpl in Eloop, Hcalls, HC. fold q in Eloop, Hcalls.
  replace (Z.to_nat (Z.min (0 * rc) (Z.of_nat (length q)))) with 0%nat
    in Eloop, Hcalls by lia.
  rewrite Eloop. simpl. split; [reflexivity |]. split; [| split].
  - destruct HC as [(_ & E2 & E3 & E4 & _) _]. unfold Later. simpl.
    rewrite E2, E3, E4. repeat split.
  - reflexivity.
  - unfold calls in *. simpl. rewrite Hcalls. reflexivity.
Qed.

End RetryAllFailing.

(** ** The tracker before any traffic *)

Lemma Steady_refl (s : Session) : Steady s s.
Proof. split; [apply Frame_refl | auto]. Qed.

Lemma Steady_trans (a b c : Session) : Steady a b -> Steady b c -> Steady a c.
Proof.
  intros [F1 H1] [F2 H2]. split; [eapply Frame_trans; eassumption |].
  intros Hs Hr. apply H2; [| apply H1; assumption].
  destruct F1 as (_ & _ & _ & E & _). rewrite E. exact Hs.
Qed.

Lemma Steady_tracker (d : Z) (b : bool) (t : Z) (s : Session) :
  Steady s (updatePerformanceMetrics d b t s).
Proof.
  split; [apply Frame_tracker |]. intros Hs _. simpl. rewrite Hs. reflexivity.
Qed.

Lemma Steady_batch (c : option (list nat)) (s : Session) : Steady s (withCurrentBatch c s).
Proof. split; [apply Frame_batch | auto]. Qed.

Lemma Ext_await_Steady (env : Env) (p : Point) (w : World) : Ext Steady w (await env p w).
Proof.
  unfold await. destruct (stopAt env p); [| apply Ext_observe, Steady_refl].
  eapply Ext_trans; [apply Steady_trans | apply Ext_observe, Steady_refl |].
  eapply Ext_trans; [apply Steady_trans | | apply Ext_observe, Steady_refl].
  apply Ext_silent; [apply stop_observed |].
  split; [apply stop_Frame |]. rewrite stop_session. auto.
Qed.

Lemma untouched_counted (cfg : Config) (r : Settled) (s : Session) :
  untouched s -> untouched (fst (processResult cfg r s)).
Proof.
  intros [H0 _].
  assert (Hs : sent (stats (fst (processResult cfg r s))) = sent (stats s) + 1).
  { unfold processResult. destruct r as [[|] ref |]; simpl; try reflexivity.
    destruct (Z.of_nat (length (retryQueue s)) <? 1000); simpl; [| reflexivity].
    match goal with |- context [if ?c then _ else _] => destruct c end; reflexivity. }
  split; [lia |]. intro E. lia.
Qed.

Lemma primary_untouched (env : Env) (cfg : Config) :
  exists k, Sched env (fun _ => untouched) k (primaryPass env cfg).
Proof.
  unfold primaryPass.
  destruct (processOptimizedBatches_Sched env cfg Steady (fun _ => untouched)
              Steady_refl Steady_trans (fun s s' H => proj1 H) Steady_tracker
              Steady_batch (Ext_await_Steady env))
    with (w := begin env (newSession env cfg)) as ((k & HS & _) & _).
  - intros _ s s' [(E1 & _ & _ & E4 & _) Hr] [H0 H1]. unfold untouched.
    rewrite E1, E4. split; [exact H0 |]. intro Hs.
    destruct (H1 Hs) as (A1 & A2 & A3 & A4). repeat split; auto.
  - intros _ s H. exact H.
  - intros _ z s H. exact H.
  - intros k s ab H _ _.
    destruct (settle k _) as [b ref |].
    + apply untouched_counted, H.
    + intros _ _. apply (untouched_counted cfg Undefined), H.
  - simpl. apply adjustConcurrency_pos.
  - apply begin_Sched. split; [simpl; lia |]. intros _. repeat split.
  - exists k. exact HS.
Qed.


(** ** Counters during the primary pass *)

Lemma balanced_counted (cfg : Config) (b : bool) (ref : nat) (s : Session) :
  balanced s -> balanced (fst (processResult cfg (Value b ref) s)).
Proof.
  unfold balanced, processResult. intro H. destruct b; simpl; [lia |].
  destruct (Z.of_nat (length (retryQueue s)) <? 1000); simpl; [| lia].
  match goal with |- context [if ?c then _ else _] => destruct c end; simpl; lia.
Qed.

Lemma primary_balanced (env : Env) (cfg : Config) :
  1 <= maxRetries cfg ->
  balanced (session (primaryPass env cfg))
  /\ snapshotsIn balanced (primaryPass env cfg).
Proof.
  intro Hmax. unfold primaryPass.
  destruct (processOptimizedBatches_Sched env cfg Frame (fun _ => balanced)
              Frame_refl Frame_trans (fun s s' H => H) Frame_tracker Frame_batch
              (Ext_await env))
    with (w := begin env (newSession env cfg)) as ((k & HS & _) & _).
  - intros _ s s' (_ & _ & _ & E & _) H. unfold balanced. rewrite E. exact H.
  - intros _ s H. exact H.
  - intros _ z s H. exact H.
  - intros k s ab H _ _.
    pose proof (executeRequest_defined env cfg Primary (Z.of_nat k + 1) ab Hmax) as Hdef.
    unfold settle. destruct (outcome _); try congruence; apply balanced_counted, H.
  - simpl. apply adjustConcurrency_pos.
  - apply begin_Sched. reflexivity.
  - destruct HS as (H1 & _ & _ & H4 & _). split; [exact H1 |].
    intros o Hin. destruct (H4 o Hin) as [_ H]. exact H.
Qed.

(** ** Stopping *)

Lemma stop_aborted (w : World) :
  aborted (stop w)
  = match currentBatch (session w) with
    | Some controllers => controllers ++ aborted w
    | None => aborted w
    end.
Proof.
  unfold stop. destruct w as [[r c q rq n t p] a d ti l o st]. cbn.
  destruct c; reflexivity.
Qed.

Lemma stop_idempotent (w : World) :
  session (stop (stop w)) = session (stop w)
  /\ aborted (stop (stop w)) = aborted (stop w).
Proof.
  split.
  - rewrite !stop_session. reflexivity.
  - rewrite (stop_aborted (stop w)), stop_session. reflexivity.
Qed.

Lemma forEachResult_running (cfg : Config) (results : list Settled) (s : Session) :
  isRunning (fst (forEachResult cfg results s)) = isRunning s.
Proof. apply (forEachResult_Tally cfg results s). Qed.

(** A [stop()] while the batch is joined: the batch ends with the
    session stopped and the controllers of all launched requests
    aborted. *)
Lemma processBatch_stopped (env : Env) (cfg : Config) (batch : list nat)
    (b : Z) (w : World) :
  stopAt env (Join b) = true ->
  let w' := processBatch env cfg batch b w in
  isRunning (session w') = false
  /\ forall ref,
       In ref (fst (launch env cfg b 0 batch
                      (log (LogProcessingBatch (b + 1) (length batch)) w))) ->
       In ref (aborted w').
Proof.
  intro Hstop. unfold processBatch.
  destruct (launch env cfg b 0 batch _) as [launched w1]. simpl fst.
  set (w2 := onSession (withCurrentBatch (Some launched)) w1).
  assert (E3 : await env (Join b) w2 = observe (Join b) (stop (observe (Join b) w2)))
    by (unfold await; rewrite Hstop; reflexivity).
  rewrite E3. set (w3 := observe (Join b) (stop (observe (Join b) w2))).
  assert (Hr3 : isRunning (session w3) = false).
  { subst w3. change (isRunning (session (stop (observe (Join b) w2))) = false).
    rewrite stop_session. reflexivity. }
  assert (Ha3 : aborted w3 = launched ++ aborted w1).
  { subst w3. change (aborted (stop (observe (Join b) w2)) = launched ++ aborted w1).
    rewrite stop_aborted. reflexivity. }
  pose proof (settleAll_spec env cfg Primary (isAborted w3) launched w3) as Hset.
  destruct (settleAll env cfg Primary (isAborted w3) launched w3) as [results w4].
  simpl in Hset. destruct Hset as (_ & Q4 & _ & A4 & _).
  pose proof (processBatchResults_spec env cfg results b w4) as Hpbr.
  pose proof (forEachResult_running cfg results (session w4)) as Hrun.
  destruct (processBatchResults env cfg results b w4) as [w5 threw].
  destruct (forEachResult cfg results (session w4)) as [s5 flag].
  simpl in Hpbr, Hrun. destruct Hpbr as (_ & Es5 & _ & A5 & _).
  assert (Hr5 : isRunning (session w5) = false).
  { rewrite Es5. destruct Q4 as (E & _).
    destruct flag; simpl; rewrite Hrun, E; exact Hr3. }
  split.
  - destruct threw; simpl; exact Hr5.
  - intros ref Hin.
    assert (Ha : aborted (if threw then log LogBatchError w5 else w5) = aborted w3)
      by (destruct threw; simpl; congruence).
    simpl. rewrite Ha, Ha3. apply in_or_app. left. exact Hin.
Qed.

(** After a [stop()] during the join of batch [b] the loop of
    [processOptimizedBatches] ends with that batch. *)
Lemma batchesFrom_stopped_at (env : Env) (cfg : Config) (T : Z)
    (remaining : nat) (b : Z) (w : World) :
  isRunning (session w) = true -> stopAt env (Join b) = true ->
  let s := session w in
  let startIdx := b * concurrency s in
  let endIdx := Z.min (startIdx + concurrency s)
                      (Z.of_nat (length (requestQueue s))) in
  batchesFrom env cfg T (S remaining) b w
  = processBatch env cfg (sliceQueue startIdx endIdx) b w.
Proof.
  intros Hrun Hstop s startIdx endIdx. simpl. rewrite Hrun. simpl.
  fold s startIdx endIdx.
  destruct (processBatch_stopped env cfg (sliceQueue startIdx endIdx) b w Hstop)
    as [Hr _].
  rewrite Hr. simpl. apply batchesFrom_stopped, Hr.
Qed.

(** The retry step of a stopped session makes no call and counts nothing. *)
Lemma retryPass_stopped (env : Env) (cfg : Config) (w : World) :
  isRunning (session w) = false ->
  let w' := fst (retryPass env cfg w) in
  snd (retryPass env cfg w) = false
  /\ dispatched w' = dispatched w /\ observed w' = observed w
  /\ sent (stats (session w')) = sent (stats (session w))
  /\ successful (stats (session w')) = successful (stats (session w))
  /\ failed (stats (session w')) = failed (stats (session w)).
Proof.
  intro Hrun. unfold retryPass, processRetryQueue.
  destruct (0 <? Z.of_nat (length (retryQueue (session w)))); [| repeat split].
  destruct (Z.of_nat (length (retryQueue (session w))) =? 0); [repeat split |].
  rewrite retryChunksFrom_stopped by exact Hrun. simpl.
  repeat split; lia.
Qed.

Lemma runSession_stopped (env : Env) (cfg : Config) :
  isRunning (session (primaryPass env cfg)) = false ->
  let wp := primaryPass env cfg in
  let w := runSession env cfg in
  calls w = calls wp
  /\ (forall c, In c (calls w) -> fst c = Primary)
  /\ sent (stats (session w)) = sent (stats (session wp))
  /\ successful (stats (session w)) = successful (stats (session wp))
  /\ failed (stats (session w)) = failed (stats (session wp)).
Proof.
  intros Hrun wp w. subst w wp. rewrite runSession_eq.
  destruct (retryPass_stopped env cfg _ Hrun) as (E1 & E2 & _ & E4 & E5 & E6).
  destruct (retryPass env cfg (primaryPass env cfg)) as [w4 threw].
  simpl in E1, E2, E4, E5, E6. subst threw.
  assert (Ec : calls (observe Finished (complete env w4)) = calls (primaryPass env cfg))
    by (unfold calls; simpl; rewrite E2; reflexivity).
  split; [exact Ec |]. split; [| simpl; auto].
  intros c Hin. rewrite Ec in Hin.
  destruct (primary_countedOnce env cfg) as (k & _ & _ & _ & _ & Hcalls).
  rewrite Hcalls in Hin. apply in_map_iff in Hin.
  destruct Hin as (ref & <- & _). reflexivity.
Qed.

Lemma session_untouched (env : Env) (cfg : Config) :
  snapshotsIn untouched (runSession env cfg).
Proof.
  destruct (primary_untouched env cfg) as (k & HU & _ & _ & Hobs & _).
  intros o Hin.
  destruct (Ext_observed Later Later_trans _ _ o (afterPrimary_Ext env cfg) Hin)
    as [Hold | [(_ & _ & Es & _) _]].
  - destruct (Hobs o Hold) as [_ H]. exact H.
  - destruct (Z.eq_dec (sent (stats (session (primaryPass env cfg)))) 0) as [E0 | N0].
    + destruct HU as [H0 H1]. destruct (H1 E0) as (A1 & A2 & A3 & A4).
      rewrite runSession_eq in Hin. unfold retryPass in Hin. rewrite A3 in Hin.
      cbv iota beta in Hin.
      change (0 <? Z.of_nat (length (@nil nat))) with false in Hin.
      cbv iota beta in Hin. destruct Hin as [<- | Hold].
      * split; [exact H0 |]. intros _. repeat split; assumption.
      * destruct (Hobs o Hold) as [_ H]. exact H.
    + destruct HU as [H0 _]. split; [lia |]. intro E. lia.
Qed.


Lemma tracker_first_failure (d : Z) (b : bool) (t : Z) (s : Session) :
  sent (stats s) = 1 -> successful (stats s) = 0 ->
  successRate (performance (updatePerformanceMetrics d b t s)) = JS.Fin 0.
Proof. intros H1 H2. simpl. rewrite H1, H2. reflexivity. Qed.

Lemma stop_timers (w : World) : timers (stop w) = timers w.
Proof.
  unfold stop. destruct w as [[r c q rq n t p] a d ti l o st]. cbn.
  destruct c; reflexivity.
Qed.

Lemma adaptiveDelay_timers (env : Env) (cfg : Config) (b : Z) (w : World) :
  timers (adaptiveDelay env cfg b w)
  = (InterBatch b,
     adaptiveDelayMs cfg (stats (session w)) b (random env (RAdaptive b)))
    :: timers w.
Proof.
  unfold adaptiveDelay, await. destruct (stopAt env (InterBatch b)); [| reflexivity].
  match goal with |- timers (observe _ (stop ?x)) = _ =>
    change (timers (stop x) = (InterBatch b,
              adaptiveDelayMs cfg (stats (session w)) b (random env (RAdaptive b)))
              :: timers w)
  end.
  rewrite stop_timers. reflexivity.
Qed.


(** The summary handed to [saveSessionResults] is the last entry stored. *)
Lemma saveSessionResults_last (summary : FinalStats) (w : World) :
  last (storage (saveSessionResults summary w)) = Some summary.
Proof.
  unfold saveSessionResults. simpl.
  set (l := storage w ++ [summary]).
  assert (Hlen : length l = S (length (storage w)))
    by (subst l; rewrite length_app; simpl; lia).
  rewrite last_lookup, lookup_drop, length_drop.
  replace (length l - 10 + pred (length l - (length l - 10)))%nat
    with (pred (length l)) by lia.
  rewrite <- last_lookup. subst l. apply last_snoc.
Qed.

(** ** The chain of snapshots of a whole session *)

Section Chained.

Variables (env : Env) (cfg : Config).
Variable R : Session -> Session -> Prop.

Hypothesis R_refl : forall s, R s s.
Hypothesis R_trans : forall a b c, R a b -> R b c -> R a c.
Hypothesis R_Later : forall s s', Later s s' -> R s s'.
Hypothesis R_result : forall r s, R s (fst (processResult cfg r s)).

Lemma R_Frame (s s' : Session) : Frame s s' -> R s s'.
Proof. intro H. apply R_Later, Frame_Later, H. Qed.

Lemma forEachResult_R (results : list Settled) :
  forall s, R s (fst (forEachResult cfg results s)).
Proof.
  induction results as [| r rest IH]; intro s; simpl; [apply R_refl |].
  pose proof (R_result r s) as H.
  destruct (processResult cfg r s) as [s1 threw]. simpl in H.
  destruct threw; [exact H |]. eapply R_trans; [exact H | apply IH].
Qed.

Lemma processBatch_R (batch : list nat) (b : Z) (w : World) :
  Ext R w (processBatch env cfg batch b w).
Proof.
  unfold processBatch.
  set (w0 := log (LogProcessingBatch (b + 1) (length batch)) w).
  pose proof (Ext_launch env cfg b batch 0 w0) as HE1.
  destruct (launch env cfg b 0 batch w0) as [launched w1]. simpl in HE1.
  set (w2 := onSession (withCurrentBatch (Some launched)) w1).
  set (w3 := await env (Join b) w2).
  assert (HE3 : Ext R w w3).
  { apply (Ext_mono Frame R _ _ R_Frame).
    eapply Ext_trans; [apply Frame_trans | exact HE1 |].
    eapply Ext_trans; [apply Frame_trans | | apply Ext_await].
    apply Ext_silent; [reflexivity | apply Frame_batch]. }
  pose proof (settleAll_spec env cfg Primary (isAborted w3) launched w3) as Hset.
  destruct (settleAll env cfg Primary (isAborted w3) launched w3) as [results w4].
  simpl in Hset. destruct Hset as (_ & Q4 & O4 & _).
  pose proof (processBatchResults_spec env cfg results b w4) as Hpbr.
  pose proof (forEachResult_R results (session w4)) as HR5.
  destruct (processBatchResults env cfg results b w4) as [w5 threw].
  destruct (forEachResult cfg results (session w4)) as [s5 flag].
  simpl in Hpbr, HR5. destruct Hpbr as (_ & Es5 & O5 & _).
  eapply Ext_trans; [exact R_trans | exact HE3 |].
  apply Ext_silent.
  - destruct threw; simpl; congruence.
  - eapply R_trans; [apply R_Frame, Quiet_Frame, Q4 |].
    eapply R_trans; [exact HR5 |].
    assert (E6 : session (if threw then log LogBatchError w5 else w5) = session w5)
      by (destruct threw; reflexivity).
    simpl. rewrite E6, Es5. apply R_Later.
    destruct flag; repeat split.
Qed.

Lemma batchesFrom_R (T : Z) (remaining : nat) :
  forall (b : Z) (w : World), Ext R w (batchesFrom env cfg T remaining b w).
Proof.
  induction remaining as [| remaining IH]; intros b w; simpl;
    [apply Ext_refl, R_refl |].
  destruct (isRunning (session w)); simpl; [| apply Ext_refl, R_refl].
  match goal with |- context [processBatch env cfg ?batch b w] =>
    pose proof (processBatch_R batch b w) as H1;
    set (w1 := processBatch env cfg batch b w) in *
  end.
  eapply Ext_trans; [exact R_trans | exact H1 |].
  eapply Ext_trans; [exact R_trans | | apply IH].
  destruct (isRunning (session w1) && (b <? T - 1)); [| apply Ext_refl, R_refl].
  apply (Ext_mono Frame R _ _ R_Frame), Ext_adaptiveDelay.
Qed.

(** The snapshots of a session, from its construction to the end of
    [start()], form a chain of [R]. *)
Lemma runSession_R :
  linked R (session (begin env (newSession env cfg)))
         (observed (runSession env cfg)) (session (runSession env cfg)).
Proof.
  assert (HE : Ext R (begin env (newSession env cfg)) (runSession env cfg)).
  { eapply Ext_trans; [exact R_trans | apply batchesFrom_R |].
    apply (Ext_mono Later R _ _ R_Later), afterPrimary_Ext. }
  destruct HE as (l & E & H). simpl in E. rewrite app_nil_r in E.
  rewrite E. exact H.
Qed.

End Chained.

(** [stats.sent] never decreases from one snapshot of a session to the
    next. *)
Lemma sent_never_decreases (env : Env) (cfg : Config) :
  linked Monotone (session (begin env (newSession env cfg)))
         (observed (runSession env cfg)) (session (runSession env cfg)).
Proof.
  apply (runSession_R env cfg Monotone); unfold Monotone.
  - intro s. lia.
  - intros a b c. lia.
  - intros s s' (_ & _ & E & _). lia.
  - intros r s. unfold processResult. destruct r as [[|] ref |]; simpl; try lia.
    destruct (Z.of_nat (length (retryQueue s)) <? 1000); simpl; [| lia].
    match goal with |- context [if ?c then _ else _] => destruct c end; simpl; lia.
Qed.

(** A [stop()] during the jittered launch of a batch finds
    [currentBatch] still empty: no controller is aborted, the request
    already launched runs to its end and is counted, and the rest of the
    batch is not launched. *)
Lemma stop_during_stagger :
  aborted (runSession stoppedInFirstStagger threeWithJitter) = []
  /\ calls (runSession stoppedInFirstStagger threeWithJitter) = [(Primary, 0%nat)]
  /\ sent (stats (session (runSession stoppedInFirstStagger threeWithJitter))) = 1
  /\ successful (stats (session (runSession stoppedInFirstStagger threeWithJitter))) = 1.
Proof. vm_compute. repeat split. Qed.

(** * Further properties of the session *)

(** ** Counting in the primary pass, whatever the stop schedule *)

Lemma counted_step (cfg : Config) (b : bool) (k : nat) (s : Session) :
  counted k s -> (k < length (requestQueue s))%nat ->
  counted (S k) (fst (processResult cfg (Value b k) s)).
Proof.
  intros (H1 & H2 & H3 & H4 & H5 & H6 & H7) Hk.
  assert (Hw : Forall (fun ref => (ref < S k)%nat) (retryQueue s)).
  { eapply Forall_impl; [exact H7 |]. simpl. intros; lia. }
  unfold balanced in H3.
  destruct b.
  - unfold counted, balanced. simpl. repeat split; try assumption; lia.
  - rewrite processResult_failure. cbv zeta.
    destruct (Z.of_nat (length (retryQueue s)) <? 1000).
    + match goal with |- context [if ?c then _ else _] => destruct c end;
        unfold counted, balanced; simpl; rewrite length_alter;
        repeat split; try assumption; try lia.
      * apply NoDup_app. split; [exact H6 |]. split; [| apply NoDup_singleton].
        intros x Hx Hin. apply list_elem_of_singleton in Hin. subst x.
        rewrite Forall_forall in H7. specialize (H7 _ Hx). lia.
      * apply Forall_app. split; [exact Hw |]. repeat constructor.
    + unfold counted, balanced. simpl. repeat split; try assumption; lia.
Qed.

Lemma counted_Frame (k : nat) (s s' : Session) :
  Frame s s' -> counted k s -> counted k s'.
Proof.
  intros (E1 & E2 & _ & E4 & _) H. unfold counted, balanced in *.
  rewrite E1, E2, E4. exact H.
Qed.

(** The primary pass counts a prefix of the request queue, and the whole
    queue if the session is still running when it ends. *)
Lemma primary_counted (env : Env) (cfg : Config) :
  1 <= maxRetries cfg ->
  exists k, Sched env counted k (primaryPass env cfg)
            /\ (isRunning (session (primaryPass env cfg)) = true
                -> k = Z.to_nat (impressions cfg)).
Proof.
  intro Hmax. unfold primaryPass.
  destruct (processOptimizedBatches_Sched env cfg Frame counted
              Frame_refl Frame_trans (fun s s' H => H) Frame_tracker Frame_batch
              (Ext_await env))
    with (w := begin env (newSession env cfg)) as ((k & HS & Hk) & _).
  - intros k s s'. apply counted_Frame.
  - intros k s H. exact H.
  - intros k z s H. exact H.
  - intros k s ab H Hk _.
    pose proof (executeRequest_defined env cfg Primary (Z.of_nat k + 1) ab Hmax) as Hdef.
    unfold settle. destruct (outcome _); try congruence; apply counted_step; assumption.
  - simpl. apply adjustConcurrency_pos.
  - apply begin_Sched. unfold counted, balanced. simpl.
    repeat split; try lia; constructor.
  - exists k. split; [exact HS |]. intro Hr. rewrite (Hk Hr). simpl.
    apply generateRequestQueue_length.
Qed.

(** Without a single attempt per call nothing is counted as delivered or
    failed and nothing is queued for a retry. *)
Lemma primary_idle (env : Env) (cfg : Config) :
  maxRetries cfg < 1 ->
  exists k, Sched env (fun _ => idle) k (primaryPass env cfg).
Proof.
  intro Hmax. unfold primaryPass.
  destruct (processOptimizedBatches_Sched env cfg Frame (fun _ => idle)
              Frame_refl Frame_trans (fun s s' H => H) Frame_tracker Frame_batch
              (Ext_await env))
    with (w := begin env (newSession env cfg)) as ((k & HS & _) & _).
  - intros _ s s' (E1 & _ & _ & E4 & _) H. unfold idle in *. rewrite E1, E4. exact H.
  - intros _ s H. exact H.
  - intros _ z s H. exact H.
  - intros k s ab H _ _.
    rewrite executeRequest_undefined by exact Hmax. simpl.
    intros _ _. exact H.
  - simpl. apply adjustConcurrency_pos.
  - apply begin_Sched. repeat split.
  - exists k. exact HS.
Qed.

(** A session that is never stopped is running when its primary pass
    ends. *)
Lemma primary_running (env : Env) (cfg : Config) :
  neverStopped env -> isRunning (session (primaryPass env cfg)) = true.
Proof.
  intro Hnever.
  apply (primaryPass_never env cfg Hnever (fun _ s => isRunning s = true)).
  - intros _ s s' [_ E] H. rewrite E. exact H.
  - intros _ s H. exact H.
  - intros _ z s H. exact H.
  - intros _ s H. exact H.
  - intros k s H _. destruct (settle _ _) as [b ref |].
    + destruct (processResult_Tally cfg (Value b k) s) as (E & _). rewrite E. exact H.
    + intros _ _. exact H.
  - reflexivity.
Qed.

(** When nothing waits for a retry [start()] goes from the primary pass
    straight to [complete()]. *)
Lemma runSession_idle (env : Env) (cfg : Config) :
  retryQueue (session (primaryPass env cfg)) = [] ->
  runSession env cfg = observe Finished (complete env (primaryPass env cfg)).
Proof.
  intro E. rewrite runSession_eq. unfold retryPass. rewrite E. reflexivity.
Qed.

(** ** The retry pass, whatever the answers and the stop schedule *)

Lemma countRetryResults_defined (results : list Settled) :
  Forall (fun r => r <> Undefined) results ->
  forall okc koc,
    exists okc' koc',
      countRetryResults results okc koc = (okc', koc', false)
      /\ okc <= okc' /\ koc <= koc'
      /\ okc' + koc' = okc + koc + Z.of_nat (length results).
Proof.
  induction 1 as [| r rest Hr _ IH]; intros okc koc.
  - exists okc, koc. simpl. repeat split; lia.
  - destruct r as [[] ref |]; [| | congruence]; cbn [countRetryResults].
    + destruct (IH (okc + 1) koc) as (a & b & E & ? & ? & ?).
      exists a, b. rewrite E. cbn [length]. repeat split; lia.
    + destruct (IH okc (koc + 1)) as (a & b & E & ? & ? & ?).
      exists a, b. rewrite E. cbn [length]. repeat split; lia.
Qed.

Lemma foldRetries_none (t : Stats) : foldRetries 0 0 t = t.
Proof. destruct t. unfold foldRetries. simpl. f_equal; lia. Qed.

Section RetryPass.

Variables (env : Env) (cfg : Config).
Variable F : Session -> Session -> Prop.

Hypothesis F_refl : forall s, F s s.
Hypothesis F_trans : forall a b c, F a b -> F b c -> F a c.
Hypothesis F_Frame : forall s s', F s s' -> Frame s s'.
Hypothesis F_tracker : forall d b t s, F s (updatePerformanceMetrics d b t s).
Hypothesis F_await : forall p w, Ext F w (await env p w).
Hypothesis Hmax : 1 <= maxRetries cfg.

Lemma retryResults_defined (s : Session) (chunk : list nat) :
  Forall (fun r => r <> Undefined)
         (map (resultOf env cfg Retry s (fun _ => false)) chunk).
Proof.
  induction chunk as [| ref rest IH]; constructor; [| exact IH].
  unfold resultOf, settle.
  pose proof (executeRequest_defined env cfg Retry (requestId s ref) false Hmax).
  destruct (outcome _); congruence.
Qed.

(** The loop of [processRetryQueue] from chunk [i] on: it retries the
    queued requests in queue order, each once, and counts one outcome for
    each call; it never throws. *)
Lemma retryChunksFrom_spec (rc T : Z) (remaining : nat) :
  forall (i okc koc : Z) (w : World),
    let q := retryQueue (session w) in
    let a := Z.to_nat (Z.min (i * rc) (Z.of_nat (length q))) in
    1 <= rc -> 0 <= i ->
    T = ceilDiv (Z.of_nat (length q)) rc -> i + Z.of_nat remaining = T ->
    exists w' okc' koc' m,
      retryChunksFrom env cfg rc T remaining i okc koc w = (w', okc', koc', false)
      /\ Ext F w w'
      /\ calls w' = map (pair Retry) (rev (take m (drop a q))) ++ calls w
      /\ okc <= okc' /\ koc <= koc'
      /\ okc' + koc' = okc + koc + Z.of_nat (length (take m (drop a q)))
      /\ (isRunning (session w') = true -> take m (drop a q) = drop a q)
      /\ (neverStopped env -> isRunning (session w') = isRunning (session w)).
Proof.
  induction remaining as [| remaining IH]; intros i okc koc w q a Hrc Hi HT Hrem.
  - pose proof (ceilDiv_bounds (Z.of_nat (length q)) rc Hrc ltac:(lia)) as (_ & B & _).
    rewrite <- HT in B. assert (i = T) by lia. subst i.
    assert (Ea : a = length q) by (subst a; lia).
    exists w, okc, koc, 0%nat. simpl.
    split; [reflexivity |]. split; [apply Ext_refl, F_refl |].
    split; [reflexivity |]. split; [lia |]. split; [lia |]. split; [lia |].
    split; [| reflexivity]. intros _. rewrite Ea, drop_all. reflexivity.
  - destruct (isRunning (session w)) eqn:Hrun.
    2:{ exists w, okc, koc, 0%nat. rewrite retryChunksFrom_stopped by exact Hrun.
        simpl. split; [reflexivity |]. split; [apply Ext_refl, F_refl |].
        split; [reflexivity |]. split; [lia |]. split; [lia |]. split; [lia |].
        split; [congruence | intros _; exact Hrun]. }
    pose proof (ceilDiv_bounds (Z.of_nat (length q)) rc Hrc ltac:(lia)) as (B0 & B1 & B2).
    rewrite <- HT in B0, B1, B2.
    assert (Hirc : i * rc < Z.of_nat (length q)) by nia.
    assert (Ea : a = Z.to_nat (i * rc)) by (subst a; lia).
    simpl. rewrite Hrun. simpl. fold q.
    set (mm := Z.to_nat (Z.min (i * rc + rc) (Z.of_nat (length q)) - i * rc)).
    rewrite <- Ea.
    set (chunk := take mm (drop a q)).
    assert (Hchunk : length chunk = mm).
    { subst chunk. rewrite length_take, length_drop. subst mm. lia. }
    set (w0 := retryStagger (RetryJoin i) 0 chunk w).
    destruct (retryStagger_fields (RetryJoin i) chunk 0 w) as (Es0 & Eo0 & Ed0 & _).
    fold w0 in Es0, Eo0, Ed0.
    set (w1 := await env (RetryJoin i) w0).
    assert (HE1 : Ext F w w1).
    { eapply Ext_trans; [apply F_trans | | apply F_await].
      apply Ext_silent; [exact Eo0 | rewrite Es0; apply F_refl]. }
    assert (HD1 : dispatched w1 = dispatched w).
    { subst w1. rewrite await_dispatched. exact Ed0. }
    assert (HN1 : neverStopped env -> isRunning (session w1) = isRunning (session w)).
    { intro Hn. subst w1. rewrite (await_never env Hn). simpl. rewrite Es0. reflexivity. }
    pose proof (settleAll_spec env cfg Retry (fun _ => false) chunk w1) as Hset.
    pose proof (settleAll_F env cfg F F_refl F_trans F_tracker Retry
                  (fun _ => false) chunk w1) as HF2.
    destruct (settleAll env cfg Retry (fun _ => false) chunk w1) as [results w2].
    simpl in Hset, HF2. destruct Hset as (Eres & Q2 & O2 & _ & _ & D2).
    destruct (countRetryResults_defined results) with (okc := okc) (koc := koc)
      as (okc1 & koc1 & Ec & Hok1 & Hko1 & Hsum1).
    { rewrite Eres. apply retryResults_defined. }
    rewrite Ec.
    assert (Hlen : length results = mm)
      by (rewrite Eres, length_map; exact Hchunk).
    set (w3 := if i <? T - 1
               then await env (RetryWait i) (startTimer (RetryWait i) (JS.ofZ 500) w2)
               else w2).
    assert (HE3 : Ext F w w3).
    { eapply Ext_trans; [apply F_trans | exact HE1 |].
      eapply Ext_trans; [apply F_trans | apply Ext_silent; [exact O2 | exact HF2] |].
      subst w3. destruct (i <? T - 1); [| apply Ext_refl, F_refl].
      apply (F_await _ (startTimer _ _ w2)). }
    assert (HD3 : dispatched w3 = dispatched w2).
    { subst w3. destruct (i <? T - 1); [| reflexivity].
      apply (await_dispatched env _ (startTimer _ _ w2)). }
    assert (HN3 : neverStopped env -> isRunning (session w3) = isRunning (session w)).
    { intro Hn. rewrite <- (HN1 Hn). destruct Q2 as (E & _). rewrite <- E.
      subst w3. destruct (i <? T - 1); [| reflexivity].
      rewrite (await_never env Hn). reflexivity. }
    pose proof (F_Frame _ _ (Ext_ends F F_trans _ _ HE3)) as (Eq3 & _).
    fold q in Eq3.
    destruct (IH (i + 1) okc1 koc1 w3)
      as (w' & okc' & koc' & m' & Eloop & HE' & Hcalls' & Hok' & Hko' & Hsum'
          & Hfull' & Hnev'); try lia.
    { rewrite Eq3. exact HT. }
    rewrite Eq3 in Hcalls', Hsum', Hfull'.
    assert (Enext : Z.to_nat (Z.min ((i + 1) * rc) (Z.of_nat (length q))) = (a + mm)%nat)
      by (subst mm; nia).
    rewrite Enext in Hcalls', Hsum', Hfull'.
    assert (Esplit : take (mm + m') (drop a q) = chunk ++ take m' (drop (a + mm) q)).
    { subst chunk. rewrite <- take_take_drop, drop_drop. reflexivity. }
    exists w', okc', koc', (mm + m')%nat.
    split; [exact Eloop |].
    split; [eapply Ext_trans; [apply F_trans | exact HE3 | exact HE'] |].
    split.
    { rewrite Hcalls'. unfold calls at 1. rewrite HD3, D2, HD1, map_app, calls_dispatchOf.
      fold (calls w). rewrite Esplit, rev_app_distr, map_app, app_assoc. reflexivity. }
    split; [lia |]. split; [lia |].
    split; [rewrite Esplit, length_app, Hchunk; lia |].
    split.
    { intro Hr. rewrite Esplit, (Hfull' Hr). subst chunk.
      rewrite <- drop_drop. apply take_drop. }
    intro Hn. rewrite (Hnev' Hn), (HN3 Hn). exact Hrun.
Qed.

(** [processRetryQueue] on a queue that is not empty: [w1] is the world
    when the loop has ended. *)
Lemma processRetryQueue_spec (w : World) :
  let q := retryQueue (session w) in
  1 <= concurrency (session w) -> q <> [] ->
  exists w1 w' m ok ko,
    processRetryQueue env cfg w = (w', false)
    /\ Ext F w w1
    /\ observed w' = observed w1 /\ dispatched w' = dispatched w1
    /\ Folded ok ko (session w1) (session w')
    /\ calls w1 = map (pair Retry) (rev (take m q)) ++ calls w
    /\ 0 <= ok /\ 0 <= ko /\ ok + ko = Z.of_nat (length (take m q))
    /\ (isRunning (session w1) = true -> take m q = q)
    /\ (neverStopped env -> isRunning (session w1) = isRunning (session w)).
Proof.
  intros q Hc Hq. unfold processRetryQueue. fold q.
  destruct (Z.eqb_spec (Z.of_nat (length q)) 0) as [E | _].
  { destruct q; [congruence | simpl in E; lia]. }
  set (rc := Z.max 1 (concurrency (session w) / 2)).
  set (T := ceilDiv (Z.of_nat (length q)) rc).
  pose proof (ceilDiv_bounds (Z.of_nat (length q)) rc ltac:(lia) ltac:(lia)) as (B0 & _).
  destruct (retryChunksFrom_spec rc T (Z.to_nat T) 0 0 0 (log (LogRetryQueue (length q)) w))
    as (w1 & ok & ko & m & Eloop & HE & Hcalls & Hok & Hko & Hsum & Hfull & Hnev);
    try lia; try reflexivity.
  change (retryQueue (session (log (LogRetryQueue (length q)) w))) with q
    in Hcalls, Hsum, Hfull.
  change (session (log (LogRetryQueue (length q)) w)) with (session w) in Hnev.
  change (calls (log (LogRetryQueue (length q)) w)) with (calls w) in Hcalls.
  assert (E0 : Z.to_nat (Z.min (0 * rc) (Z.of_nat (length q))) = 0%nat) by lia.
  rewrite E0 in Hcalls, Hsum, Hfull. change (drop 0 q) with q in Hcalls, Hsum, Hfull.
  rewrite Eloop.
  eexists w1, _, m, ok, ko. split; [reflexivity |].
  split; [exact HE |]. split; [reflexivity |]. split; [reflexivity |].
  split; [repeat split |]. split; [exact Hcalls |].
  split; [lia |]. split; [lia |]. split; [lia |]. split; assumption.
Qed.

(** The retry step of [start()]. *)
Lemma retryPass_spec (w : World) :
  let q := retryQueue (session w) in
  1 <= concurrency (session w) ->
  exists w1 w' m ok ko,
    retryPass env cfg w = (w', false)
    /\ Ext F w w1
    /\ observed w' = observed w1 /\ dispatched w' = dispatched w1
    /\ Folded ok ko (session w1) (session w')
    /\ calls w1 = map (pair Retry) (rev (take m q)) ++ calls w
    /\ 0 <= ok /\ 0 <= ko /\ ok + ko = Z.of_nat (length (take m q))
    /\ (isRunning (session w1) = true -> take m q = q)
    /\ (neverStopped env -> isRunning (session w1) = isRunning (session w)).
Proof.
  intros q Hc. unfold retryPass. fold q.
  destruct (Z.ltb_spec 0 (Z.of_nat (length q))) as [Hpos | Hzero].
  - apply processRetryQueue_spec; [exact Hc |].
    intro E. fold q in E. rewrite E in Hpos. simpl in Hpos. lia.
  - assert (Eq : q = []) by (destruct q; [reflexivity | simpl in Hzero; lia]).
    exists w, w, 0%nat, 0, 0. split; [reflexivity |].
    split; [apply Ext_refl, F_refl |]. split; [reflexivity |]. split; [reflexivity |].
    split; [| rewrite Eq; simpl; repeat split; try reflexivity; lia].
    unfold Folded. rewrite foldRetries_none. repeat split. exact Eq.
Qed.

(** The retry pass of a session follows its primary pass and ends in
    [complete()]: [w1] is the world when the loop of [processRetryQueue]
    has ended (or the primary pass, if nothing was queued) and [w4] the
    world handed to [complete()]. *)
Lemma afterPrimary_F :
  let wp := primaryPass env cfg in
  let q := retryQueue (session wp) in
  exists w1 w4 m ok ko,
    runSession env cfg = observe Finished (complete env w4)
    /\ Ext F wp w1
    /\ observed w4 = observed w1 /\ dispatched w4 = dispatched w1
    /\ Folded ok ko (session w1) (session w4)
    /\ calls w1 = map (pair Retry) (rev (take m q)) ++ calls wp
    /\ 0 <= ok /\ 0 <= ko /\ ok + ko = Z.of_nat (length (take m q))
    /\ (isRunning (session w1) = true -> take m q = q)
    /\ (neverStopped env -> isRunning (session w1) = isRunning (session wp)).
Proof.
  intros wp q.
  destruct (retryPass_spec wp) as (w1 & w4 & m & ok & ko & E & H).
  { apply (primaryPass_shape env cfg). }
  exists w1, w4, m, ok, ko. split; [| exact H].
  rewrite runSession_eq. fold wp. rewrite E. reflexivity.
Qed.

End RetryPass.

Lemma afterPrimary_spec (env : Env) (cfg : Config) :
  1 <= maxRetries cfg ->
  let wp := primaryPass env cfg in
  let q := retryQueue (session wp) in
  exists w1 w4 m ok ko,
    runSession env cfg = observe Finished (complete env w4)
    /\ Ext Frame wp w1
    /\ observed w4 = observed w1 /\ dispatched w4 = dispatched w1
    /\ Folded ok ko (session w1) (session w4)
    /\ calls w1 = map (pair Retry) (rev (take m q)) ++ calls wp
    /\ 0 <= ok /\ 0 <= ko /\ ok + ko = Z.of_nat (length (take m q))
    /\ (isRunning (session w1) = true -> take m q = q)
    /\ (neverStopped env -> isRunning (session w1) = isRunning (session wp)).
Proof.
  intro Hmax.
  apply (afterPrimary_F env cfg Frame Frame_refl Frame_trans (fun s s' H => H)
           Frame_tracker (Ext_await env) Hmax).
Qed.

(** ** What the recorded calls have in common *)

Section Recorded.

Variables (env : Env) (cfg : Config).
Variable P : Dispatch -> Prop.
Hypothesis P_call : forall p s ab ref, P (dispatchOf env cfg p s ab ref).

Lemma settleAll_recorded (p : Pass) (ab : nat -> bool) (launched : list nat)
    (w : World) :
  Forall P (dispatched w) ->
  Forall P (dispatched (snd (settleAll env cfg p ab launched w))).
Proof.
  intro H. pose proof (settleAll_spec env cfg p ab launched w) as Hset.
  cbv zeta in Hset. destruct Hset as (_ & _ & _ & _ & _ & D).
  rewrite D. apply Forall_app. split; [| exact H].
  apply Forall_rev. clear D.
  induction launched as [| ref rest IH]; simpl; constructor; [apply P_call | exact IH].
Qed.

Lemma processBatch_recorded (batch : list nat) (b : Z) (w : World) :
  Forall P (dispatched w) ->
  Forall P (dispatched (processBatch env cfg batch b w)).
Proof.
  intro H. unfold processBatch.
  set (w0 := log (LogProcessingBatch (b + 1) (length batch)) w).
  pose proof (launch_dispatched env cfg b batch 0 w0) as HD1.
  destruct (launch env cfg b 0 batch w0) as [launched w1]. simpl in HD1.
  set (w3 := await env (Join b) (onSession (withCurrentBatch (Some launched)) w1)).
  assert (H3 : Forall P (dispatched w3)).
  { subst w3. rewrite await_dispatched. simpl. rewrite HD1. exact H. }
  pose proof (settleAll_recorded Primary (isAborted w3) launched w3 H3) as H4.
  destruct (settleAll env cfg Primary (isAborted w3) launched w3) as [results w4].
  simpl in H4.
  pose proof (processBatchResults_spec env cfg results b w4) as Hp.
  destruct (processBatchResults env cfg results b w4) as [w5 threw].
  simpl in Hp. destruct Hp as (_ & _ & _ & _ & D5).
  destruct threw; simpl; rewrite D5; exact H4.
Qed.

Lemma batchesFrom_recorded (T : Z) (remaining : nat) :
  forall (b : Z) (w : World),
    Forall P (dispatched w) ->
    Forall P (dispatched (batchesFrom env cfg T remaining b w)).
Proof.
  induction remaining as [| remaining IH]; intros b w H; simpl; [exact H |].
  destruct (isRunning (session w)); simpl; [| exact H].
  apply IH.
  match goal with |- context [processBatch env cfg ?batch b w] =>
    pose proof (processBatch_recorded batch b w H) as H1;
    set (w1 := processBatch env cfg batch b w) in *
  end.
  destruct (isRunning (session w1) && (b <? T - 1)); [| exact H1].
  unfold adaptiveDelay. rewrite await_dispatched. exact H1.
Qed.

Lemma retryChunksFrom_recorded (rc T : Z) (remaining : nat) :
  forall (i okc koc : Z) (w : World),
    Forall P (dispatched w) ->
    Forall P (dispatched
                (fst (fst (fst (retryChunksFrom env cfg rc T remaining i okc koc w))))).
Proof.
  induction remaining as [| remaining IH]; intros i okc koc w H; simpl; [exact H |].
  destruct (isRunning (session w)); simpl; [| exact H].
  set (chunk := take _ (drop _ (retryQueue (session w)))).
  set (w1 := await env (RetryJoin i) (retryStagger (RetryJoin i) 0 chunk w)).
  assert (H1 : Forall P (dispatched w1)).
  { subst w1. rewrite await_dispatched.
    destruct (retryStagger_fields (RetryJoin i) chunk 0 w) as (_ & _ & E & _).
    rewrite E. exact H. }
  pose proof (settleAll_recorded Retry (fun _ => false) chunk w1 H1) as H2.
  destruct (settleAll env cfg Retry (fun _ => false) chunk w1) as [results w2].
  simpl in H2.
  destruct (countRetryResults results okc koc) as [[okc' koc'] threw].
  destruct threw; simpl; [exact H2 |].
  apply IH. destruct (i <? T - 1); [| exact H2].
  rewrite await_dispatched. exact H2.
Qed.

(** Every call recorded in a session has the property [P]. *)
Lemma runSession_recorded : Forall P (dispatched (runSession env cfg)).
Proof.
  rewrite runSession_eq.
  assert (Hp : Forall P (dispatched (primaryPass env cfg))).
  { unfold primaryPass, processOptimizedBatches. apply batchesFrom_recorded. constructor. }
  assert (Hr : Forall P (dispatched (fst (retryPass env cfg (primaryPass env cfg))))).
  { unfold retryPass. destruct (0 <? _); [| exact Hp].
    unfold processRetryQueue. destruct (_ =? 0); [exact Hp |].
    match goal with |- context [retryChunksFrom ?e ?c ?rc ?T ?r ?i ?a ?b ?w0] =>
      pose proof (retryChunksFrom_recorded rc T r i a b w0 Hp) as H;
      destruct (retryChunksFrom e c rc T r i a b w0) as [[[w1 okc] koc] threw]
    end.
    simpl in H. destruct threw; exact H. }
  destruct (retryPass env cfg (primaryPass env cfg)) as [w4 threw].
  simpl in Hr. destruct threw; exact Hr.
Qed.

End Recorded.

(** ** The attempts of one call *)

Lemma attemptLoop_budget (maxAttempts : Z) (answer : Z -> Response)
    (draw : Z -> Q) (fuel : nat) :
  forall attempt : Z,
    0 <= fetches (attemptLoop fuel maxAttempts answer draw attempt)
      <= Z.max 0 (maxAttempts - attempt).
Proof.
  induction fuel as [| fuel IH]; intro attempt; simpl; [lia |].
  destruct (Z.ltb_spec attempt maxAttempts); simpl; [| lia].
  destruct (classify (answer attempt)); simpl; [lia |].
  destruct (Z.eqb_spec (attempt + 1) maxAttempts); simpl; [lia |].
  specialize (IH (attempt + 1)). lia.
Qed.

Lemma executeRequest_withinAttempts (env : Env) (cfg : Config) (p : Pass)
    (s : Session) (ab : nat -> bool) (ref : nat) :
  withinAttempts cfg (dispatchOf env cfg p s ab ref).
Proof.
  unfold withinAttempts, dispatchOf. simpl.
  set (i := requestId s ref). set (a := ab ref).
  destruct (Z.le_gt_cases 1 (maxRetries cfg)) as [Hmax | Hmax].
  - pose proof (executeRequest_defined env cfg p i a Hmax) as Hdef.
    unfold executeRequest in *.
    pose proof (attemptLoop_budget (maxRetries cfg) (answers env p i a)
                  (fun k => random env (RBackoff p i k)) (Z.to_nat (maxRetries cfg)) 0) as B.
    destruct (attemptLoop_waits (maxRetries cfg) (answers env p i a)
                (fun k => random env (RBackoff p i k)) (Z.to_nat (maxRetries cfg)) 0)
      as [_ L].
    specialize (L Hdef). split; [lia |]. lia.
  - rewrite executeRequest_undefined by lia. simpl. lia.
Qed.

(** ** The calls of a whole session *)

Lemma NoDup_rev {A : Type} (l : list A) : NoDup l -> NoDup (rev l).
Proof.
  induction 1 as [| x l Hx Hl IH]; simpl; [constructor |].
  apply NoDup_app. split; [exact IH |]. split; [| apply NoDup_singleton].
  intros y Hy Hin. apply list_elem_of_singleton in Hin. subst y.
  apply Hx. apply list_elem_of_In. apply in_rev. apply list_elem_of_In. exact Hy.
Qed.

Lemma passCalls_NoDup (p : Pass) (l : list nat) :
  NoDup l -> NoDup (map (pair p) (rev l)).
Proof.
  intro H. apply (NoDup_fmap_2 (pair p)); try (apply NoDup_rev, H).
Qed.

Lemma twoPasses_NoDup (retried counted : list nat) :
  NoDup retried -> NoDup counted ->
  NoDup (map (pair Retry) (rev retried) ++ map (pair Primary) (rev counted)).
Proof.
  intros H1 H2. apply NoDup_app.
  split; [apply passCalls_NoDup, H1 |]. split; [| apply passCalls_NoDup, H2].
  intros c Hc Hc'. apply list_elem_of_In, in_map_iff in Hc as (x & <- & _).
  apply list_elem_of_In, in_map_iff in Hc' as (y & E & _). discriminate.
Qed.

Lemma retryCalls_twoPasses (retried counted : list nat) :
  List.filter isRetryCall
    (map (pair Retry) (rev retried) ++ map (pair Primary) (rev counted))
  = map (pair Retry) (rev retried).
Proof.
  rewrite List.filter_app.
  assert (H1 : forall l, List.filter isRetryCall (map (pair Retry) l) = map (pair Retry) l)
    by (induction l; simpl; congruence).
  assert (H2 : forall l, List.filter isRetryCall (map (pair Primary) l) = [])
    by (induction l; simpl; congruence).
  rewrite H1, H2, app_nil_r. reflexivity.
Qed.

(** A queue without duplicates whose entries are below [k] holds at most
    [k] of them. *)
Lemma queue_short (q : list nat) (k : nat) :
  NoDup q -> Forall (fun ref => (ref < k)%nat) q -> (length q <= k)%nat.
Proof.
  intros Hq Hk. pose proof (submseteq_length q (seq 0 k)) as H.
  rewrite length_seq in H. apply H.
  apply NoDup_submseteq; [exact Hq |]. intros x Hx. apply elem_of_seq.
  rewrite Forall_forall in Hk. specialize (Hk x Hx). lia.
Qed.

Lemma complete_session (env : Env) (w : World) :
  session (complete env w) = withRunning false (session w)
  /\ dispatched (complete env w) = dispatched w
  /\ logs (complete env w)
     = LogSessionCompleted (summarize env (withRunning false (session w))) :: logs w.
Proof. repeat split. Qed.

(** The shape of a session whose calls make at least one attempt: the
    primary pass counts the first [k] requests, the retry pass then
    retries the first [m] queued ones, and the [ok + ko] outcomes of the
    retried calls are added to [successful] and [failed]. *)
Lemma session_shape (env : Env) (cfg : Config) :
  1 <= maxRetries cfg ->
  let n := Z.to_nat (impressions cfg) in
  let wp := primaryPass env cfg in
  let w := runSession env cfg in
  let q := retryQueue (session wp) in
  exists k m ok ko,
    counted k (session wp) /\ (k <= n)%nat
    /\ calls wp = map (pair Primary) (rev (seq 0 k))
    /\ calls w = map (pair Retry) (rev (take m q)) ++ calls wp
    /\ 0 <= ok /\ 0 <= ko /\ ok + ko = Z.of_nat (length (take m q))
    /\ stats (session w) = foldRetries ok ko (stats (session wp))
    /\ requestQueue (session w) = requestQueue (session wp)
    /\ retryQueue (session w) = [] /\ isRunning (session w) = false
    /\ (isRunning (session wp) = true -> k = n)
    /\ (neverStopped env -> k = n /\ take m q = q).
Proof.
  intros Hmax n wp w q.
  destruct (primary_counted env cfg Hmax) as (k & HS & Hk). fold wp in HS, Hk.
  destruct HS as (Hc & _ & _ & _ & Hcalls).
  destruct (afterPrimary_spec env cfg Hmax)
    as (w1 & w4 & m & ok & ko & Erun & HE & _ & D4 & HF & Hc1 & Hok & Hko & Hsum
        & Hfull & Hnev).
  fold wp q in HE, Hc1, Hsum, Hfull, Hnev.
  pose proof (Ext_ends Frame Frame_trans _ _ HE) as (_ & Eq1 & _ & Es1 & _).
  destruct HF as (Er4 & _ & Eq4 & _ & _ & Es4 & Erq4).
  assert (Hlen : length (requestQueue (session wp)) = n)
    by apply (primaryPass_shape env cfg).
  exists k, m, ok, ko.
  split; [exact Hc |]. split; [destruct Hc as (H & _); lia |].
  split; [exact Hcalls |].
  unfold w. rewrite Erun.
  split; [unfold calls in *; simpl; rewrite D4; exact Hc1 |].
  split; [exact Hok |]. split; [exact Hko |]. split; [exact Hsum |].
  split; [simpl; rewrite Es4, Es1; reflexivity |].
  split; [simpl; rewrite Eq4, Eq1; reflexivity |].
  split; [simpl; exact Erq4 |]. split; [reflexivity |].
  split; [exact Hk |].
  intro Hn. pose proof (primary_running env cfg Hn) as Hr. fold wp in Hr.
  split; [apply Hk, Hr |]. apply Hfull. rewrite (Hnev Hn). exact Hr.
Qed.

Lemma fetches_bound (M : Z) (l : list Dispatch) :
  Forall (fun d => d_fetches d <= M) l ->
  fold_right Z.add 0 (map d_fetches l) <= M * Z.of_nat (length l).
Proof.
  induction 1 as [| d l Hd _ IH]; simpl fold_right; [simpl; lia |].
  cbn [length]. lia.
Qed.

(** ** What never changes in a session *)

Lemma sameSetup_chain (env : Env) (cfg : Config) :
  linked sameSetup (session (begin env (newSession env cfg)))
         (observed (runSession env cfg)) (session (runSession env cfg)).
Proof.
  apply runSession_R.
  - intro s. repeat split.
  - intros a b c (A1 & A2 & A3) (B1 & B2 & B3). unfold sameSetup. repeat split; congruence.
  - intros s s' (E1 & E2 & _ & E4). unfold sameSetup. rewrite E1, E2, E4. repeat split.
  - intros r s. destruct (processResult_Tally cfg r s) as (_ & _ & E3 & _ & E5 & _ & E7 & _).
    unfold sameSetup. repeat split; assumption.
Qed.

(** ** The values cached by the tracker *)

Lemma Q_of_Z_le (a b : Z) : a <= b -> (inject_Z a <= inject_Z b)%Q.
Proof. rewrite Zle_Qle. auto. Qed.

Lemma Q_of_Z_lt (a b : Z) : a < b -> (inject_Z a < inject_Z b)%Q.
Proof. rewrite Zlt_Qlt. auto. Qed.

Lemma share_percentage (a b : Z) :
  0 <= a <= b -> 0 < b ->
  (0 <= inject_Z a / inject_Z b * inject_Z 100 <= 100)%Q.
Proof.
  intros Ha Hb.
  assert (Hb' : (0 < inject_Z b)%Q) by (apply (Q_of_Z_lt 0 b); exact Hb).
  assert (Ha' : (0 <= inject_Z a)%Q) by (apply (Q_of_Z_le 0 a); lia).
  assert (Hab : (inject_Z a <= inject_Z b)%Q) by (apply Q_of_Z_le; lia).
  assert (H0 : (0 <= inject_Z a / inject_Z b)%Q).
  { apply Qle_shift_div_l; [exact Hb' |]. rewrite Qmult_0_l. exact Ha'. }
  assert (H1 : (inject_Z a / inject_Z b <= 1)%Q).
  { apply Qle_shift_div_r; [exact Hb' |]. rewrite Qmult_1_l. exact Hab. }
  change (inject_Z 100) with 100%Q. split; nra.
Qed.

Lemma tracker_plausible (d : Z) (b : bool) (t : Z) (s : Session) :
  plausible s -> plausible (updatePerformanceMetrics d b t s).
Proof.
  intros (Hs & (qa & Ea) & _ & _). split; [exact Hs |].
  unfold updatePerformanceMetrics, trackerSound. cbn [performance withPerformance
    averageResponseTime requestsPerSecond successRate stats].
  split; [| split].
  - rewrite Ea. eexists. reflexivity.
  - set (e := elapsedSeconds (startTime (stats s)) t).
    destruct (JS.gtb e (JS.ofZ 0)) eqn:Hg.
    + assert (He : exists x, e = JS.Fin x)
        by (unfold e, elapsedSeconds; eexists; reflexivity).
      destruct He as [x Ex]. rewrite Ex in Hg |- *.
      apply gtb_Fin in Hg. change (inject_Z 0) with 0%Q in Hg.
      destruct (represents_div (JS.ofZ (sent (stats s))) (JS.Fin x)
                  (inject_Z (sent (stats s))) x) as (q & Eq & Hq).
      * intro E. rewrite E in Hg. apply (Qlt_irrefl 0), Hg.
      * apply represents_ofZ.
      * apply represents_Fin.
      * exists q. split; [exact Eq |]. rewrite Hq.
        apply Qle_shift_div_l; [exact Hg |]. rewrite Qmult_0_l.
        apply (Q_of_Z_le 0 (sent (stats s))). lia.
    + exists (inject_Z 0). split; [reflexivity | apply Qle_refl].
  - destruct (Z.ltb_spec 0 (sent (stats s))) as [Hpos | _].
    + destruct (represents_mul
                  (JS.div (JS.ofZ (successful (stats s))) (JS.ofZ (sent (stats s))))
                  (JS.ofZ 100)
                  (inject_Z (successful (stats s)) / inject_Z (sent (stats s)))
                  (inject_Z 100)) as (q & Eq & Hq).
      * apply represents_div; try apply represents_ofZ.
        intro E. change 0%Q with (inject_Z 0) in E.
        rewrite inject_Z_injective in E. lia.
      * apply represents_ofZ.
      * exists q. split; [exact Eq |]. rewrite Hq.
        apply share_percentage; [exact Hs | exact Hpos].
    + exists (inject_Z 100). split; [reflexivity |]. split; discriminate.
Qed.

Lemma Sound_refl (s : Session) : Sound s s.
Proof. split; [apply Frame_refl | auto]. Qed.

Lemma Sound_trans (a b c : Session) : Sound a b -> Sound b c -> Sound a c.
Proof.
  intros [F1 H1] [F2 H2]. split; [eapply Frame_trans; eassumption | auto].
Qed.

Lemma Sound_tracker (d : Z) (b : bool) (t : Z) (s : Session) :
  Sound s (updatePerformanceMetrics d b t s).
Proof. split; [apply Frame_tracker | apply tracker_plausible]. Qed.

Lemma Sound_batch (c : option (list nat)) (s : Session) : Sound s (withCurrentBatch c s).
Proof. split; [apply Frame_batch | auto]. Qed.

Lemma Ext_await_Sound (env : Env) (p : Point) (w : World) : Ext Sound w (await env p w).
Proof.
  unfold await. destruct (stopAt env p); [| apply Ext_observe, Sound_refl].
  eapply Ext_trans; [apply Sound_trans | apply Ext_observe, Sound_refl |].
  eapply Ext_trans; [apply Sound_trans | | apply Ext_observe, Sound_refl].
  apply Ext_silent; [apply stop_observed |].
  split; [apply stop_Frame |]. rewrite stop_session. auto.
Qed.

Lemma plausible_counted (cfg : Config) (r : Settled) (s : Session) :
  plausible s -> plausible (fst (processResult cfg r s)).
Proof.
  intros [Hs Hp]. unfold plausible, processResult.
  destruct r as [[|] ref |]; simpl; try (split; [lia | exact Hp]).
  destruct (Z.of_nat (length (retryQueue s)) <? 1000); simpl;
    [| split; [lia | exact Hp]].
  match goal with |- context [if ?c then _ else _] => destruct c end;
    simpl; (split; [lia | exact Hp]).
Qed.

Lemma primary_plausible (env : Env) (cfg : Config) :
  exists k, Sched env (fun _ => plausible) k (primaryPass env cfg).
Proof.
  unfold primaryPass.
  destruct (processOptimizedBatches_Sched env cfg Sound (fun _ => plausible)
              Sound_refl Sound_trans (fun s s' H => proj1 H) Sound_tracker
              Sound_batch (Ext_await_Sound env))
    with (w := begin env (newSession env cfg)) as ((k & HS & _) & _).
  - intros _ s s' [_ H]. exact H.
  - intros _ s H. exact H.
  - intros _ z s H. exact H.
  - intros k s ab H _ _.
    destruct (settle k _) as [b ref |].
    + apply plausible_counted, H.
    + intros _ _. apply (plausible_counted cfg Undefined), H.
  - simpl. apply adjustConcurrency_pos.
  - apply begin_Sched. split; [simpl; lia |].
    split; [eexists; reflexivity |].
    split; [exists (inject_Z 0); split; [reflexivity | apply Qle_refl] |].
    exists (inject_Z 100). split; [reflexivity |]. split; discriminate.
  - exists k. exact HS.
Qed.

(** The tracker is sound in the last state of a session and in all its
    snapshots. *)
Lemma session_trackerSound (env : Env) (cfg : Config) :
  trackerSound (performance (session (runSession env cfg)))
  /\ snapshotsIn (fun s => trackerSound (performance s)) (runSession env cfg).
Proof.
  destruct (primary_plausible env cfg) as (k & Hp & _ & _ & Hsnap & _).
  assert (Hsnap' : snapshotsIn plausible (primaryPass env cfg)).
  { intros o Hin. destruct (Hsnap o Hin) as [_ H]. exact H. }
  assert (H : exists w1 w4,
             runSession env cfg = observe Finished (complete env w4)
             /\ observed w4 = observed w1
             /\ performance (session w4) = performance (session w1)
             /\ plausible (session w1) /\ snapshotsIn plausible w1).
  { destruct (Z.le_gt_cases 1 (maxRetries cfg)) as [Hmax | Hmax].
    - destruct (afterPrimary_F env cfg Sound Sound_refl Sound_trans
                  (fun s s' H => proj1 H) Sound_tracker (Ext_await_Sound env) Hmax)
        as (w1 & w4 & m & ok & ko & Erun & HE & O4 & _ & HF & _).
      exists w1, w4. split; [exact Erun |]. split; [exact O4 |].
      split; [apply HF |].
      apply (snapshotsIn_Ext Sound plausible (primaryPass env cfg) w1 Sound_trans);
        try assumption.
      intros s s' [_ Hs]. exact Hs.
    - destruct (primary_idle env cfg ltac:(lia)) as (k' & (Hq & _) & _).
      exists (primaryPass env cfg), (primaryPass env cfg).
      split; [apply runSession_idle, Hq |]. split; [reflexivity |].
      split; [reflexivity |]. split; [exact Hp | exact Hsnap']. }
  destruct H as (w1 & w4 & Erun & O4 & E4 & [_ H1] & Hs1).
  rewrite Erun. split; [simpl; rewrite E4; exact H1 |].
  intros o [<- | Hin].
  - simpl. rewrite E4. exact H1.
  - simpl in Hin. rewrite O4 in Hin. apply Hs1, Hin.
Qed.

(** ** A call whose signal is aborted *)

Lemma attemptLoop_ext (maxAttempts : Z) (answer answer' : Z -> Response)
    (draw : Z -> Q) (fuel : nat) :
  forall attempt : Z,
    (forall a, attempt <= a -> answer a = answer' a) ->
    attemptLoop fuel maxAttempts answer draw attempt
    = attemptLoop fuel maxAttempts answer' draw attempt.
Proof.
  induction fuel as [| fuel IH]; intros attempt H; simpl; [reflexivity |].
  rewrite (H attempt) by lia.
  destruct (attempt <? maxAttempts); [| reflexivity].
  destruct (classify _); [reflexivity |].
  destruct (_ =? _); [reflexivity |].
  rewrite (IH (attempt + 1)); [reflexivity |]. intros a Ha. apply H. lia.
Qed.

Lemma executeRequest_aborted (env : Env) (cfg : Config) (p : Pass) (i : Z) :
  1 <= maxRetries cfg -> abortSeen env i <= 0 ->
  executeRequest env cfg p i true
  = mkExecution Threw (maxRetries cfg)
      (map (fun a => backoffDelay a (random env (RBackoff p i a)))
           (zseq 1 (Z.to_nat (maxRetries cfg - 1))))
      (Some false).
Proof.
  intros Hmax Hseen. unfold executeRequest.
  rewrite (attemptLoop_ext _ _ (fun _ => FetchRejected)).
  - rewrite attemptLoop_exhausted; try lia; [| reflexivity].
    replace (maxRetries cfg - 0) with (maxRetries cfg) by lia. reflexivity.
  - intros a Ha. unfold answers. simpl.
    destruct (Z.leb_spec (abortSeen env i) a); [reflexivity | lia].
Qed.

(** ** The wait between two batches *)



(** ** Bounded selections *)

Lemma at_index_defined {A : Type} (l : list A) (i : Z) :
  0 <= i < Z.of_nat (length l) -> exists x, at_index l i = Some x /\ In x l.
Proof.
  intro Hi. unfold at_index. destruct (Z.ltb_spec i 0); [lia |].
  destruct (lookup_lt_is_Some_2 l (Z.to_nat i) ltac:(lia)) as [x Hx].
  exists x. split; [exact Hx |].
  apply list_elem_of_In, (list_elem_of_lookup_2 _ _ _ Hx).
Qed.

Lemma scaled_draw (r : Q) (n : Z) :
  (0 <= r < 1)%Q -> 0 < n -> 0 <= Qfloor (r * inject_Z n) < n.
Proof.
  intros [H0 H1] Hn.
  assert (Hn' : (0 < inject_Z n)%Q) by (apply (Q_of_Z_lt 0 n); exact Hn).
  split.
  - change 0 with (Qfloor (inject_Z 0)). apply Qfloor_resp_le.
    change (inject_Z 0) with 0%Q. nra.
  - assert (H : (inject_Z (Qfloor (r * inject_Z n)) < inject_Z n)%Q).
    { eapply Qle_lt_trans; [apply Qfloor_le |]. nra. }
    rewrite <- Zlt_Qlt in H. exact H.
Qed.

(** * The proxy pool *)

Lemma pick_In (l : list ProxyManager.Proxy) :
  forall (random : num) (p : ProxyManager.Proxy),
    ProxyManager.pick random l = Some p -> In p l.
Proof.
  induction l as [| c rest IH]; intros random p H; simpl in H; [discriminate |].
  destruct (lebNum _ _).
  - injection H as <-. left. reflexivity.
  - right. eapply IH, H.
Qed.

Lemma qualityFilter_In (quality : string) (l : list ProxyManager.Proxy)
    (p : ProxyManager.Proxy) :
  In p (ProxyManager.qualityFilter quality l) -> In p l.
Proof.
  unfold ProxyManager.qualityFilter.
  destruct (String.eqb quality "premium"); [intro H; apply filter_In in H; tauto |].
  destruct (String.eqb quality "balanced"); [intro H; apply filter_In in H; tauto |].
  auto.
Qed.

Lemma candidates_In (quality : string) (l : list ProxyManager.Proxy)
    (p : ProxyManager.Proxy) :
  In p (ProxyManager.candidates quality l) -> In p l.
Proof.
  unfold ProxyManager.candidates.
  destruct (ProxyManager.qualityFilter quality l) as [| c rest] eqn:E; [auto |].
  intro H. apply (qualityFilter_In quality). rewrite E. exact H.
Qed.

Lemma candidates_nonempty (quality : string) (l : list ProxyManager.Proxy) :
  l <> [] -> ProxyManager.candidates quality l <> [].
Proof.
  intro H. unfold ProxyManager.candidates.
  destruct (ProxyManager.qualityFilter quality l); [exact H | discriminate].
Qed.

(** The proxy selected is one of the candidates. *)
Lemma getRandomProxy_candidate (quality : string) (r : Q)
    (st : ProxyManager.State) (p : ProxyManager.Proxy) :
  ProxyManager.getRandomProxy quality r st = Some p ->
  In p (ProxyManager.candidates quality (ProxyManager.activeProxies st)).
Proof.
  unfold ProxyManager.getRandomProxy.
  destruct (ProxyManager.activeProxies st) as [| c rest]; [discriminate |].
  set (cs := ProxyManager.candidates quality (c :: rest)).
  destruct (ProxyManager.pick _ cs) as [p' |] eqn:E.
  - intro H. injection H as <-. eapply pick_In, E.
  - destruct cs; simpl; [discriminate |]. intro H. injection H as <-. left. reflexivity.
Qed.

Lemma getRandomProxy_none (quality : string) (r : Q) (st : ProxyManager.State) :
  ProxyManager.getRandomProxy quality r st = None
  <-> ProxyManager.activeProxies st = [].
Proof.
  unfold ProxyManager.getRandomProxy.
  destruct (ProxyManager.activeProxies st) as [| c rest]; [tauto |].
  pose proof (candidates_nonempty quality (c :: rest) ltac:(discriminate)) as Hne.
  destruct (ProxyManager.pick _ _); [split; discriminate |].
  destruct (ProxyManager.candidates quality (c :: rest)); [congruence |].
  simpl. split; discriminate.
Qed.

(** When a proxy passes the filter of a tier, all candidates do. *)
Lemma candidates_bound (quality : string) (bound : Z) (l : list ProxyManager.Proxy) :
  (quality = "premium"%string /\ bound = 2000)
  \/ (quality = "balanced"%string /\ bound = 4000) ->
  (exists fast, In fast l /\ ProxyManager.speed fast < bound) ->
  forall p, In p (ProxyManager.candidates quality l) -> ProxyManager.speed p < bound.
Proof.
  intros Hq (fast & Hin & Hfast) p.
  assert (E : ProxyManager.qualityFilter quality l
              = List.filter (fun p => ProxyManager.speed p <? bound) l).
  { unfold ProxyManager.qualityFilter. destruct Hq as [[-> ->] | [-> ->]]; reflexivity. }
  assert (Hf : In fast (ProxyManager.qualityFilter quality l)).
  { rewrite E. apply filter_In. split; [exact Hin |]. apply Z.ltb_lt, Hfast. }
  unfold ProxyManager.candidates.
  destruct (ProxyManager.qualityFilter quality l) as [| c rest] eqn:E'; [destruct Hf |].
  rewrite E. intro Hp. apply filter_In in Hp as [_ Hp]. apply Z.ltb_lt, Hp.
Qed.

Lemma delete_In (proxyUrl : string) (st : ProxyManager.State) (p : ProxyManager.Proxy) :
  In p (ProxyManager.activeProxies (ProxyManager.delete proxyUrl st))
  <-> In p (ProxyManager.activeProxies st) /\ ProxyManager.url p <> proxyUrl.
Proof.
  unfold ProxyManager.delete. simpl. rewrite filter_In.
  destruct (String.eqb_spec (ProxyManager.url p) proxyUrl); simpl; intuition congruence.
Qed.

Lemma has_spec (proxyUrl : string) (st : ProxyManager.State) :
  ProxyManager.has proxyUrl st = true
  <-> exists p, In p (ProxyManager.activeProxies st) /\ ProxyManager.url p = proxyUrl.
Proof.
  unfold ProxyManager.has. rewrite existsb_exists. split.
  - intros (p & Hin & E). exists p. split; [exact Hin |]. apply String.eqb_eq, E.
  - intros (p & Hin & E). exists p. split; [exact Hin |]. apply String.eqb_eq, E.
Qed.

Lemma reportProxyFailure_pool (proxyUrl : string) (st : ProxyManager.State) :
  ProxyManager.activeProxies (ProxyManager.reportProxyFailure proxyUrl st)
  = ProxyManager.activeProxies (ProxyManager.delete proxyUrl st).
Proof.
  unfold ProxyManager.reportProxyFailure.
  destruct (ProxyManager.has proxyUrl st) eqn:E.
  - cbv zeta. destruct (_ <? 10); [| reflexivity].
    unfold ProxyManager.backgroundRefresh.
    destruct (ProxyManager.refreshInProgress _); reflexivity.
  - unfold ProxyManager.delete. simpl. symmetry.
    apply forallb_filter_id. apply forallb_forall. intros p Hin.
    destruct (String.eqb_spec (ProxyManager.url p) proxyUrl) as [Eu | _]; [| reflexivity].
    assert (H : ProxyManager.has proxyUrl st = true) by (apply has_spec; eauto).
    congruence.
Qed.

Lemma reportProxyFailure_cases (proxyUrl : string) (st : ProxyManager.State) :
  let st' := ProxyManager.reportProxyFailure proxyUrl st in
  let kept := ProxyManager.activeProxies (ProxyManager.delete proxyUrl st) in
  (ProxyManager.has proxyUrl st = false /\ st' = st)
  \/ (ProxyManager.has proxyUrl st = true /\ (10 <= length kept)%nat
      /\ st' = ProxyManager.delete proxyUrl st)
  \/ (ProxyManager.has proxyUrl st = true /\ (length kept < 10)%nat
      /\ ProxyManager.refreshInProgress st = true
      /\ st' = ProxyManager.delete proxyUrl st)
  \/ (ProxyManager.has proxyUrl st = true /\ (length kept < 10)%nat
      /\ ProxyManager.refreshInProgress st = false
      /\ st' = ProxyManager.mkState kept true (S (ProxyManager.refreshes st))).
Proof.
  intros st' kept. subst st'. unfold ProxyManager.reportProxyFailure.
  destruct (ProxyManager.has proxyUrl st); [| left; split; reflexivity].
  right. cbv zeta. fold kept.
  destruct (Z.ltb_spec (Z.of_nat (length kept)) 10) as [Hlt | Hge].
  - right. unfold ProxyManager.backgroundRefresh.
    change (ProxyManager.refreshInProgress (ProxyManager.delete proxyUrl st))
      with (ProxyManager.refreshInProgress st).
    destruct (ProxyManager.refreshInProgress st).
    + left. repeat split. lia.
    + right. repeat split. lia.
  - left. repeat split. lia.
Qed.

(** * The log *)

Lemma slice_last {A : Type} (n : Z) (l : list A) :
  0 < n -> Logger.slice (- n) l = drop (length l - Z.to_nat n) l.
Proof.
  intro Hn. unfold Logger.slice.
  destruct (Z.ltb_spec (- n) 0); [| lia]. f_equal. lia.
Qed.

Lemma log_rejected (lvl : Logger.Level) (msg : string) (t : Z) (st : Logger.State) :
  Logger.levels lvl < Logger.currentLevel st -> Logger.log lvl msg t st = st.
Proof.
  intro H. unfold Logger.log.
  destruct (Z.ltb_spec (Logger.levels lvl) (Logger.currentLevel st)); [reflexivity | lia].
Qed.

Lemma log_accepted (lvl : Logger.Level) (msg : string) (t : Z) (st : Logger.State) :
  Logger.currentLevel st <= Logger.levels lvl ->
  let all := Logger.logs st ++ [Logger.mkEntry lvl msg t] in
  Logger.log lvl msg t st
  = Logger.mkState (Logger.currentLevel st) (drop (length all - 2000) all).
Proof.
  intros H all. unfold Logger.log.
  destruct (Z.ltb_spec (Logger.levels lvl) (Logger.currentLevel st)); [lia |].
  cbv zeta. fold all. f_equal.
  destruct (Z.ltb_spec Logger.maxEntries (Z.of_nat (length all))) as [Hlt | Hge].
  - apply slice_last. reflexivity.
  - unfold Logger.maxEntries in Hge.
    replace (length all - 2000)%nat with 0%nat by lia. reflexivity.
Qed.

Lemma log_bounded (lvl : Logger.Level) (msg : string) (t : Z) (st : Logger.State) :
  Z.of_nat (length (Logger.logs st)) <= Logger.maxEntries ->
  Z.of_nat (length (Logger.logs (Logger.log lvl msg t st))) <= Logger.maxEntries
  /\ Logger.currentLevel (Logger.log lvl msg t st) = Logger.currentLevel st.
Proof.
  intro H. unfold Logger.maxEntries in *.
  destruct (Z.lt_ge_cases (Logger.levels lvl) (Logger.currentLevel st)) as [Hr | Ha].
  - rewrite log_rejected by exact Hr. split; [exact H | reflexivity].
  - rewrite log_accepted by exact Ha. simpl.
    rewrite length_drop, length_app. simpl. split; [lia | reflexivity].
Qed.

(** ** Escaping *)

Lemma append_assoc (r s t : string) :
  ((r ++ s) ++ t)%string = (r ++ (s ++ t))%string.
Proof. induction r as [| y r IH]; simpl; [reflexivity |]. rewrite IH. reflexivity. Qed.

Lemma replaceAll_app (c : Ascii.ascii) (r s t : string) :
  Logger.replaceAll c r (s ++ t)
  = (Logger.replaceAll c r s ++ Logger.replaceAll c r t)%string.
Proof.
  induction s as [| x s IH]; simpl; [reflexivity |].
  destruct (Ascii.eqb x c); rewrite IH; [| reflexivity].
  symmetry. apply append_assoc.
Qed.

Lemma escapeHtml_app (s t : string) :
  Logger.escapeHtml (s ++ t) = (Logger.escapeHtml s ++ Logger.escapeHtml t)%string.
Proof. unfold Logger.escapeHtml. rewrite !replaceAll_app. reflexivity. Qed.

Lemma isSpecial_false (c : Ascii.ascii) :
  Logger.isSpecial c = false ->
  Ascii.eqb c Logger.ampersand = false /\ Ascii.eqb c Logger.lessThan = false
  /\ Ascii.eqb c Logger.greaterThan = false /\ Ascii.eqb c Logger.doubleQuote = false
  /\ Ascii.eqb c Logger.apostrophe = false.
Proof.
  unfold Logger.isSpecial. intro H.
  repeat (apply orb_false_iff in H as [H ?]). repeat split; assumption.
Qed.

Lemma escapeHtml_char (c : Ascii.ascii) :
  Logger.escapeHtml (String c EmptyString) = Logger.escapeChar c.
Proof.
  destruct (Logger.isSpecial c) eqn:E.
  - unfold Logger.isSpecial in E.
    repeat (apply orb_true_iff in E as [E | E]);
      apply Ascii.eqb_eq in E; subst c; reflexivity.
  - apply isSpecial_false in E as (E1 & E2 & E3 & E4 & E5).
    unfold Logger.escapeHtml, Logger.escapeChar. simpl.
    rewrite E1. simpl. rewrite E2. simpl. rewrite E3. simpl. rewrite E4. simpl.
    rewrite E5. reflexivity.
Qed.

Lemma escapeHtml_escapeAll (s : string) :
  Logger.escapeHtml s = Logger.escapeAll s.
Proof.
  induction s as [| c s IH]; [reflexivity |].
  change (String c s) with (String c EmptyString ++ s)%string.
  rewrite escapeHtml_app, escapeHtml_char, IH. reflexivity.
Qed.

Lemma chars_app (s t : string) :
  Logger.chars (s ++ t) = Logger.chars s ++ Logger.chars t.
Proof. induction s as [| c s IH]; simpl; [reflexivity |]. rewrite IH. reflexivity. Qed.

(** The characters written for one character of the input: none of them
    can open or close a tag or end an attribute. *)
Lemma escapeChar_safe (c x : Ascii.ascii) :
  In x (Logger.chars (Logger.escapeChar c)) ->
  x <> Logger.lessThan /\ x <> Logger.greaterThan
  /\ x <> Logger.doubleQuote /\ x <> Logger.apostrophe.
Proof.
  destruct (Logger.isSpecial c) eqn:E.
  - unfold Logger.isSpecial in E.
    repeat (apply orb_true_iff in E as [E | E]);
      apply Ascii.eqb_eq in E; subst c; simpl;
      intro H; repeat (destruct H as [<- | H]; [repeat split; discriminate |]);
      destruct H.
  - apply isSpecial_false in E as (E1 & E2 & E3 & E4 & E5).
    unfold Logger.escapeChar. rewrite E1, E2, E3, E4, E5. simpl.
    intros [<- | []]. repeat split; intro Ex; subst c;
      rewrite Ascii.eqb_refl in *; discriminate.
Qed.

Lemma escapeChar_shape (c : Ascii.ascii) :
  (Logger.isSpecial c = false /\ Logger.escapeChar c = String c EmptyString)
  \/ (c = Logger.ampersand /\ Logger.escapeChar c = "&amp;"%string)
  \/ (c = Logger.lessThan /\ Logger.escapeChar c = "&lt;"%string)
  \/ (c = Logger.greaterThan /\ Logger.escapeChar c = "&gt;"%string)
  \/ (c = Logger.doubleQuote /\ Logger.escapeChar c = "&quot;"%string)
  \/ (c = Logger.apostrophe /\ Logger.escapeChar c = "&#039;"%string).
Proof.
  destruct (Logger.isSpecial c) eqn:E.
  - right. unfold Logger.isSpecial in E.
    repeat (apply orb_true_iff in E as [E | E]);
      apply Ascii.eqb_eq in E; subst c; tauto.
  - left. split; [reflexivity |].
    apply isSpecial_false in E as (E1 & E2 & E3 & E4 & E5).
    unfold Logger.escapeChar. rewrite E1, E2, E3, E4, E5. reflexivity.
Qed.

Lemma escapeAll_cons (c : Ascii.ascii) (s : string) :
  Logger.escapeAll (String c s) = (Logger.escapeChar c ++ Logger.escapeAll s)%string.
Proof. reflexivity. Qed.

Lemma special_not_plain (c : Ascii.ascii) :
  Logger.isSpecial c = false -> c <> Logger.ampersand.
Proof. intros H ->. discriminate. Qed.

Lemma escapeAll_injective (s t : string) :
  Logger.escapeAll s = Logger.escapeAll t -> s = t.
Proof.
  revert t. induction s as [| c s IH]; intros [| d t] H.
  - reflexivity.
  - exfalso. rewrite escapeAll_cons in H.
    destruct (escapeChar_shape d) as [[_ E] | [[_ E] | [[_ E] | [[_ E] | [[_ E] | [_ E]]]]]];
      rewrite E in H; discriminate.
  - exfalso. rewrite escapeAll_cons in H.
    destruct (escapeChar_shape c) as [[_ E] | [[_ E] | [[_ E] | [[_ E] | [[_ E] | [_ E]]]]]];
      rewrite E in H; discriminate.
  - rewrite !escapeAll_cons in H.
    destruct (escapeChar_shape c) as [[Nc Ec] | [[Hc Ec] | [[Hc Ec] | [[Hc Ec] | [[Hc Ec] | [Hc Ec]]]]]];
      destruct (escapeChar_shape d) as [[Nd Ed] | [[Hd Ed] | [[Hd Ed] | [[Hd Ed] | [[Hd Ed] | [Hd Ed]]]]]];
      rewrite Ec, Ed in H; simpl in H;
      try (apply special_not_plain in Nc); try (apply special_not_plain in Nd);
      try (subst c); try (subst d);
      try discriminate;
      try (injection H as H; f_equal; apply IH; exact H);
      try (exfalso; injection H as H1 H;
           first [apply Nc; exact H1 | apply Nd; symmetry; exact H1]).
    injection H as -> H. f_equal. apply IH. exact H.
Qed.

(** ** The entries kept *)

Lemma newest_short {A : Type} (l : list A) :
  Z.of_nat (length l) <= Logger.maxEntries -> Logger.newest l = l.
Proof.
  unfold Logger.newest, Logger.maxEntries. intro H.
  replace (length l - Z.to_nat 2000)%nat with 0%nat by lia. reflexivity.
Qed.

Lemma newest_length {A : Type} (l : list A) :
  length (Logger.newest l) = Nat.min (length l) (Z.to_nat Logger.maxEntries).
Proof. unfold Logger.newest. rewrite length_drop. lia. Qed.

Lemma newest_app {A : Type} (l m : list A) :
  Logger.newest (Logger.newest l ++ m) = Logger.newest (l ++ m).
Proof.
  unfold Logger.newest at 1 3.
  rewrite length_app, newest_length, length_app.
  unfold Logger.newest.
  rewrite <- (drop_app_le l m) by lia.
  rewrite drop_drop. f_equal. lia.
Qed.

Lemma log_newest (lvl : Logger.Level) (msg : string) (t : Z) (st : Logger.State) :
  Logger.currentLevel st <= Logger.levels lvl ->
  Logger.logs (Logger.log lvl msg t st)
  = Logger.newest (Logger.logs st ++ [Logger.mkEntry lvl msg t]).
Proof. intro H. rewrite log_accepted by exact H. reflexivity. Qed.

Lemma logAll_newest (calls : list (Logger.Level * string * Z)) (st : Logger.State) :
  Z.of_nat (length (Logger.logs st)) <= Logger.maxEntries ->
  Logger.logs (Logger.logAll calls st)
  = Logger.newest (Logger.logs st ++ Logger.accepted (Logger.currentLevel st) calls)
  /\ Logger.currentLevel (Logger.logAll calls st) = Logger.currentLevel st.
Proof.
  revert st. induction calls as [| [[lvl msg] t] calls IH]; intros st Hlen.
  - unfold Logger.accepted. simpl. rewrite app_nil_r.
    split; [symmetry; apply newest_short; exact Hlen | reflexivity].
  - change (Logger.logAll ((lvl, msg, t) :: calls) st)
      with (Logger.logAll calls (Logger.log lvl msg t st)).
    destruct (log_bounded lvl msg t st Hlen) as [Hlen1 Hlevel].
    destruct (IH _ Hlen1) as [IH1 IH2]. rewrite IH1, IH2, Hlevel.
    split; [| reflexivity].
    unfold Logger.accepted. simpl.
    destruct (Z.leb_spec (Logger.currentLevel st) (Logger.levels lvl)) as [Ha | Hr].
    + rewrite log_newest by exact Ha. rewrite newest_app.
      simpl. rewrite <- app_assoc. reflexivity.
    + rewrite log_rejected by exact Hr. reflexivity.
Qed.

(** * The form *)

Lemma validateForm_spec (isValidUrl : string -> bool) (data : TrafficSenderApp.FormData) :
  TrafficSenderApp.validateForm isValidUrl data = true <->
  TrafficSenderApp.adUrl data <> EmptyString
  /\ isValidUrl (TrafficSenderApp.adUrl data) = true
  /\ TrafficSenderApp.country data <> EmptyString
  /\ (exists n, TrafficSenderApp.impressions data = Some n /\ 100 <= n)
  /\ (forall d, TrafficSenderApp.delay data = Some d -> 200 <= d <= 5000).
Proof.
  unfold TrafficSenderApp.validateForm, TrafficSenderApp.formErrors.
  destruct data as [u c i dt q d m j rf]. simpl.
  split.
  - intro H.
    destruct u as [| u0 u']; [discriminate |]. simpl in H.
    destruct (isValidUrl (String u0 u')); [| discriminate]. simpl in H.
    destruct c as [| c0 c']; [discriminate |]. simpl in H.
    destruct i as [n |]; [| discriminate].
    destruct (Z.eqb_spec n 0); [discriminate |].
    destruct (Z.ltb_spec n 100); [discriminate |]. simpl in H.
    split; [discriminate |]. split; [reflexivity |]. split; [discriminate |].
    split; [exists n; split; [reflexivity | lia] |].
    intros d0 ->.
    destruct (Z.ltb_spec d0 200); [discriminate |].
    destruct (Z.ltb_spec 5000 d0); [discriminate |]. lia.
  - intros (Hu & Hv & Hc & (n & -> & Hn) & Hd).
    destruct u as [| u0 u']; [congruence |]. simpl. rewrite Hv. simpl.
    destruct c as [| c0 c']; [congruence |]. simpl.
    destruct (Z.eqb_spec n 0); [lia |].
    destruct (Z.ltb_spec n 100); [lia |]. simpl.
    destruct d as [d0 |]; [| reflexivity].
    specialize (Hd d0 eq_refl).
    destruct (Z.ltb_spec d0 200); [lia |].
    destruct (Z.ltb_spec 5000 d0); [lia |]. reflexivity.
Qed.

Lemma baseConcurrency_validated (d : Z) :
  200 <= d <= 5000 ->
  baseConcurrency d = Z.max 1 (1000 / d) /\ 1 <= baseConcurrency d <= 5.
Proof.
  intro H. unfold baseConcurrency.
  destruct (Z.eqb_spec d 0); [lia |].
  assert (0 <= 1000 / d) by (apply Z.div_pos; lia).
  assert (1000 / d <= 5).
  { apply Z.lt_succ_r. apply Z.div_lt_upper_bound; lia. }
  lia.
Qed.

(** * The executor, attempt by attempt *)

Lemma length_zseq (from : Z) (n : nat) : length (zseq from n) = n.
Proof. unfold zseq. rewrite length_map, length_seq. reflexivity. Qed.

Section Attempts.

Variable maxAttempts : Z.
Variable answer : Z -> Response.
Variable draw : Z -> Q.

Let backoff (a : Z) : num := backoffDelay a (draw a).

Lemma attemptLoop_fetches (fuel : nat) :
  forall attempt : Z,
    0 <= fetches (attemptLoop fuel maxAttempts answer draw attempt).
Proof.
  induction fuel as [| fuel IH]; intro attempt; simpl; [lia |].
  destruct (attempt <? maxAttempts); [| simpl; lia].
  destruct (classify (answer attempt)); [simpl; lia |].
  destruct (attempt + 1 =? maxAttempts); [simpl; lia |].
  simpl. specialize (IH (attempt + 1)). lia.
Qed.

(** A call that enters the loop body makes a [fetch]. *)
Lemma attemptLoop_fetches_pos (fuel : nat) (attempt : Z) :
  attempt < maxAttempts ->
  1 <= fetches (attemptLoop (S fuel) maxAttempts answer draw attempt).
Proof.
  intro Hlt. simpl. destruct (Z.ltb_spec attempt maxAttempts); [| lia].
  destruct (classify (answer attempt)); [simpl; lia |].
  destruct (attempt + 1 =? maxAttempts); [simpl; lia |].
  simpl. pose proof (attemptLoop_fetches fuel (attempt + 1)). lia.
Qed.

(** [j] attempts in a row that end in the [catch] block, none of them the
    last one: each is followed by its backoff wait, and the loop goes on
    with the next attempt. *)
Lemma attemptLoop_caught (j : nat) :
  forall (fuel : nat) (attempt : Z),
    (forall a, attempt <= a < attempt + Z.of_nat j -> classify (answer a) = Caught) ->
    attempt + Z.of_nat j < maxAttempts ->
    attemptLoop (j + fuel) maxAttempts answer draw attempt
    = let rest := attemptLoop fuel maxAttempts answer draw (attempt + Z.of_nat j) in
      mkExecution (outcome rest) (Z.of_nat j + fetches rest)
        (map backoff (zseq (attempt + 1) j) ++ waits rest) (tracked rest).
Proof.
  induction j as [| j IH]; intros fuel attempt Hcaught Hlt.
  - cbv zeta. change (0 + fuel)%nat with fuel.
    change (Z.of_nat 0) with 0. rewrite Z.add_0_r.
    destruct (attemptLoop fuel maxAttempts answer draw attempt). reflexivity.
  - change (S j + fuel)%nat with (S (j + fuel)).
    cbn [attemptLoop].
    destruct (Z.ltb_spec attempt maxAttempts); [| lia].
    rewrite Hcaught by lia.
    destruct (Z.eqb_spec (attempt + 1) maxAttempts); [lia |].
    rewrite IH by (try (intros a Ha; apply Hcaught); lia).
    cbv zeta. cbn [outcome fetches waits tracked].
    replace (attempt + 1 + Z.of_nat j) with (attempt + Z.of_nat (S j)) by lia.
    rewrite zseq_S. cbn [map app]. f_equal. lia.
Qed.

End Attempts.

(** The call after [k] attempts that ended in the [catch] block. *)
Lemma executeRequest_after (env : Env) (cfg : Config) (p : Pass) (i : Z)
    (ab : bool) (k : Z) :
  0 <= k < maxRetries cfg ->
  (forall a, 0 <= a < k -> classify (answers env p i ab a) = Caught) ->
  executeRequest env cfg p i ab
  = let rest := attemptLoop (Z.to_nat (maxRetries cfg - k)) (maxRetries cfg)
                  (answers env p i ab)
                  (fun a => random env (RBackoff p i a)) k in
    mkExecution (outcome rest) (k + fetches rest)
      (map (fun a => backoffDelay a (random env (RBackoff p i a)))
           (zseq 1 (Z.to_nat k)) ++ waits rest)
      (tracked rest).
Proof.
  intros Hk Hcaught. unfold executeRequest.
  replace (Z.to_nat (maxRetries cfg))
    with (Z.to_nat k + Z.to_nat (maxRetries cfg - k))%nat by lia.
  rewrite attemptLoop_caught.
  - cbv zeta. rewrite Z2Nat.id by lia. change (0 + k) with k.
    change (0 + 1) with 1. reflexivity.
  - intros a Ha. apply Hcaught. lia.
  - lia.
Qed.

(** A delivery at attempt [k], after [k] attempts that ended in the
    [catch] block. *)
Lemma executeRequest_delivered_at (env : Env) (cfg : Config) (p : Pass) (i : Z)
    (ab : bool) (k : Z) (note : option string) :
  0 <= k < maxRetries cfg ->
  (forall a, 0 <= a < k -> classify (answers env p i ab a) = Caught) ->
  classify (answers env p i ab k) = Delivered note ->
  executeRequest env cfg p i ab
  = mkExecution (Returned note) (k + 1)
      (map (fun a => backoffDelay a (random env (RBackoff p i a)))
           (zseq 1 (Z.to_nat k)))
      (Some true).
Proof.
  intros Hk Hcaught Hd. rewrite (executeRequest_after env cfg p i ab k Hk Hcaught).
  replace (Z.to_nat (maxRetries cfg - k))
    with (S (Z.to_nat (maxRetries cfg - k - 1))) by lia.
  erewrite attemptLoop_delivered; [| lia | exact Hd].
  cbv zeta. cbn [outcome fetches waits tracked]. rewrite app_nil_r. reflexivity.
Qed.

(** Every attempt ends in the [catch] block: the last one throws. *)
Lemma executeRequest_thrown (env : Env) (cfg : Config) (p : Pass) (i : Z)
    (ab : bool) :
  1 <= maxRetries cfg ->
  (forall a, 0 <= a < maxRetries cfg -> classify (answers env p i ab a) = Caught) ->
  executeRequest env cfg p i ab
  = mkExecution Threw (maxRetries cfg)
      (map (fun a => backoffDelay a (random env (RBackoff p i a)))
           (zseq 1 (Z.to_nat (maxRetries cfg - 1))))
      (Some false).
Proof.
  intros Hmax Hcaught.
  rewrite (executeRequest_after env cfg p i ab (maxRetries cfg - 1))
    by (try (intros a Ha; apply Hcaught); lia).
  replace (Z.to_nat (maxRetries cfg - (maxRetries cfg - 1))) with 1%nat by lia.
  cbn [attemptLoop].
  destruct (Z.ltb_spec (maxRetries cfg - 1) (maxRetries cfg)); [| lia].
  rewrite Hcaught by lia.
  destruct (Z.eqb_spec (maxRetries cfg - 1 + 1) (maxRetries cfg)); [| lia].
  cbv zeta. cbn [outcome fetches waits tracked]. rewrite app_nil_r.
  f_equal. lia.
Qed.

(** An attempt that ends in the [catch] block and is not the last one is
    followed by its backoff wait and by another [fetch]. *)
Lemma executeRequest_retried (env : Env) (cfg : Config) (p : Pass) (i : Z)
    (ab : bool) (k : Z) :
  1 <= k < maxRetries cfg ->
  (forall a, 0 <= a < k -> classify (answers env p i ab a) = Caught) ->
  waits (executeRequest env cfg p i ab) !! Z.to_nat (k - 1)
  = Some (backoffDelay k (random env (RBackoff p i k)))
  /\ k + 1 <= fetches (executeRequest env cfg p i ab).
Proof.
  intros Hk Hcaught.
  rewrite (executeRequest_after env cfg p i ab k) by (exact Hcaught || lia).
  cbv zeta. cbn [outcome fetches waits tracked]. split.
  - rewrite lookup_app_l by (rewrite length_map, length_zseq; lia).
    change (map ?f ?l) with (f <$> l). rewrite list_lookup_fmap.
    rewrite zseq_lookup by lia.
    replace (1 + Z.of_nat (Z.to_nat (k - 1))) with k by lia. reflexivity.
  - replace (Z.to_nat (maxRetries cfg - k))
      with (S (Z.to_nat (maxRetries cfg - k - 1))) by lia.
    pose proof (attemptLoop_fetches_pos (maxRetries cfg) (answers env p i ab)
                  (fun a => random env (RBackoff p i a))
                  (Z.to_nat (maxRetries cfg - k - 1)) k).
    lia.
Qed.

(** * The claims *)

(** ** C1 *)

(** C1 (the code breaks it).  The claim: after every batch of the primary
    pass and again when the session has completed, retry pass included,
    [sent = successful + failed].  The primary pass keeps that balance
    ([primary_balanced]), but [processRetryQueue] adds the outcomes of the
    retried calls to [successful] and [failed] and leaves [sent] alone.
    One request that always gets HTTP 500, with [maxRetries = 3]: the
    session ends with [sent = 1], [successful = 0] and [failed = 2]. *)
Theorem retry_pass_unbalances_counters :
  balanced (session (primaryPass failing500 oneRequest))
  /\ sent (stats (session (runSession failing500 oneRequest))) = 1
  /\ successful (stats (session (runSession failing500 oneRequest))) = 0
  /\ failed (stats (session (runSession failing500 oneRequest))) = 2
  /\ ~ balanced (session (runSession failing500 oneRequest)).
Proof.
  split; [apply primary_balanced; simpl; lia |].
  assert (E : stats (session (runSession failing500 oneRequest))
              = mkStats 1 0 2 1 0 1250 1) by (vm_compute; reflexivity).
  unfold balanced. rewrite E. simpl. repeat split. lia.
Qed.

(** ** C2 *)

(** C2.  For a positive [delay] the planner returns
    [min(cap, clamp(floor(1000 / delay), 1, 10))] with the cap 8 for
    "premium", 12 for "balanced", 15 for "aggressive" and 5 for any other
    tier; the width is at least 1; a delay of 1000 with the tier
    "balanced" gives the width 1. *)
Theorem adjustConcurrency_width (cfg : Config) :
  0 < delay cfg ->
  let base := Z.max 1 (Z.min 10 (1000 / delay cfg)) in
  let width := adjustConcurrency cfg in
  (proxyQuality cfg = "premium"%string -> width = Z.min 8 base)
  /\ (proxyQuality cfg = "balanced"%string -> width = Z.min 12 base)
  /\ (proxyQuality cfg = "aggressive"%string -> width = Z.min 15 base)
  /\ (proxyQuality cfg <> "premium"%string ->
      proxyQuality cfg <> "balanced"%string ->
      proxyQuality cfg <> "aggressive"%string -> width = Z.min 5 base)
  /\ 1 <= width
  /\ (delay cfg = 1000 -> proxyQuality cfg = "balanced"%string -> width = 1).
Proof.
  intros Hpos base width.
  assert (Hbase : baseConcurrency (delay cfg) = base).
  { unfold baseConcurrency. destruct (Z.eqb_spec (delay cfg) 0); [lia | reflexivity]. }
  assert (Hq : 0 <= 1000 / delay cfg) by (apply Z.div_pos; lia).
  subst width. unfold adjustConcurrency. rewrite Hbase.
  destruct (tierCap_cases (proxyQuality cfg))
    as [[E C] | [[E C] | [[E C] | (N1 & N2 & N3 & C)]]];
    rewrite C; repeat split; intros; subst base; try congruence; try lia.
  match goal with H : delay cfg = 1000 |- _ => rewrite H end. reflexivity.
Qed.

Lemma adjustConcurrency_width_witness :
  0 < delay (mkConfig 100 1000 "balanced" 3 false)
  /\ adjustConcurrency (mkConfig 100 1000 "balanced" 3 false) = 1.
Proof.
  split; [reflexivity |].
  apply (adjustConcurrency_width (mkConfig 100 1000 "balanced" 3 false));
    reflexivity.
Defined.

(** ** C3 *)

(** C3.  One attempt of the executor: a status of 500 or more ends in the
    [catch] block, 403 and 404 return at once as a delivery with the note
    "HTTP <status>", every other 4xx status and every rejection of
    [fetch] end in the [catch] block, a 2xx or 3xx status is a delivery.
    The executor acts on that classification, for every request, pass
    and signal: the first answer that is a delivery ends the call with a
    success, after one [fetch] per earlier answer and with nothing
    fetched after it; an answer that ends in the [catch] block and is not
    the last attempt is followed by its backoff wait and another
    [fetch]; when all [maxRetries] answers end in the [catch] block the
    call throws after the last one and is counted as failed.  Hence a
    session that is not stopped and in which every request is answered
    404 makes one [fetch] per request and ends with [successful = total],
    [failed = 0] and [sent = total]. *)
Theorem outcome_classification (env : Env) (cfg : Config) :
  1 <= maxRetries cfg ->
  let backoff := fun p i a => backoffDelay a (random env (RBackoff p i a)) in
  (forall status, 500 <= status -> classify (HttpResponse status) = Caught)
  /\ (forall status, status = 403 \/ status = 404 ->
        classify (HttpResponse status)
        = Delivered (Some ("HTTP " ++ showZ status)%string))
  /\ (forall status, 400 <= status < 500 -> status <> 403 -> status <> 404 ->
        classify (HttpResponse status) = Caught)
  /\ classify FetchRejected = Caught
  /\ (forall status, 200 <= status < 400 ->
        classify (HttpResponse status) = Delivered None)
  /\ (forall p i a, answers env p i false a = fetch env p i a)
  /\ (forall p i ab k note,
        0 <= k < maxRetries cfg ->
        (forall a, 0 <= a < k -> classify (answers env p i ab a) = Caught) ->
        classify (answers env p i ab k) = Delivered note ->
        executeRequest env cfg p i ab
        = mkExecution (Returned note) (k + 1)
            (map (backoff p i) (zseq 1 (Z.to_nat k))) (Some true)
        /\ forall ref, settle ref (executeRequest env cfg p i ab) = Value true ref)
  /\ (forall p i ab k,
        1 <= k < maxRetries cfg ->
        (forall a, 0 <= a < k -> classify (answers env p i ab a) = Caught) ->
        k + 1 <= fetches (executeRequest env cfg p i ab)
        /\ waits (executeRequest env cfg p i ab) !! Z.to_nat (k - 1)
           = Some (backoff p i k))
  /\ (forall p i ab,
        (forall a, 0 <= a < maxRetries cfg ->
                   classify (answers env p i ab a) = Caught) ->
        executeRequest env cfg p i ab
        = mkExecution Threw (maxRetries cfg)
            (map (backoff p i) (zseq 1 (Z.to_nat (maxRetries cfg - 1))))
            (Some false)
        /\ forall ref, settle ref (executeRequest env cfg p i ab) = Value false ref)
  /\ (neverStopped env -> allAnswer env 404 -> 0 <= impressions cfg ->
      (forall i, executeRequest env cfg Primary i false
                 = mkExecution (Returned (Some "HTTP 404"%string)) 1 [] (Some true))
      /\ successful (stats (session (runSession env cfg)))
         = total (stats (session (runSession env cfg)))
      /\ failed (stats (session (runSession env cfg))) = 0
      /\ sent (stats (session (runSession env cfg)))
         = total (stats (session (runSession env cfg)))).
Proof.
  intros Hmax backoff.
  split; [exact classify_server_error |].
  split; [exact classify_blocked |].
  split; [exact classify_client_error |].
  split; [reflexivity |].
  split; [exact classify_success |].
  split; [reflexivity |].
  split.
  { intros p i ab k note Hk Hcaught Hd.
    rewrite (executeRequest_delivered_at env cfg p i ab k note Hk Hcaught Hd).
    split; reflexivity. }
  split.
  { intros p i ab k Hk Hcaught.
    destruct (executeRequest_retried env cfg p i ab k Hk Hcaught) as [Hw Hf].
    split; [exact Hf | exact Hw]. }
  split.
  { intros p i ab Hcaught.
    rewrite (executeRequest_thrown env cfg p i ab Hmax Hcaught).
    split; reflexivity. }
  intros Hnever H404 Himp.
  split.
  { intro i.
    apply (executeRequest_delivered env cfg Primary i (Some "HTTP 404"%string) Hmax).
    rewrite H404. reflexivity. }
  destruct (allDelivered_primary env cfg Hnever H404 Hmax)
    as ((_ & A2 & A3 & A4 & A5 & A6) & _).
  destruct (runSession_noRetry env cfg A6) as [Es _].
  rewrite Es. simpl. rewrite A2, A3, A4, A5. repeat split; lia.
Qed.

Lemma outcome_classification_witness :
  1 <= maxRetries (mkConfig 7 1000 "balanced" 3 false)
  /\ neverStopped answering404 /\ allAnswer answering404 404
  /\ 0 <= impressions (mkConfig 7 1000 "balanced" 3 false)
  /\ failed (stats (session (runSession answering404
                               (mkConfig 7 1000 "balanced" 3 false)))) = 0.
Proof.
  assert (H1 : 1 <= maxRetries (mkConfig 7 1000 "balanced" 3 false)) by (simpl; lia).
  assert (H2 : neverStopped answering404) by (intro p; reflexivity).
  assert (H3 : allAnswer answering404 404) by (intros p i a; reflexivity).
  assert (H4 : 0 <= impressions (mkConfig 7 1000 "balanced" 3 false)) by (simpl; lia).
  repeat (split; [assumption |]).
  apply (outcome_classification answering404
           (mkConfig 7 1000 "balanced" 3 false) H1); assumption.
Defined.

(** ** C4 *)

(** C4 (counterexample).  One request, every answer HTTP 500,
    [maxRetries = 3].  The claim: the task enters the retry queue with its
    retry counter at 3, is excluded from resubmission, and the session
    ends with [failed = total].  The code: the counter of the queued task
    is 1, the task is handed to [executeRequest] again in the retry pass,
    and the session ends with [failed = 2] for [total = 1]. *)
Lemma all_500_counterexample :
  retryQueue (session (primaryPass failing500 oneRequest)) = [0%nat]
  /\ retryCountAt (session (primaryPass failing500 oneRequest)) 0 = 1
  /\ retryCountAt (session (primaryPass failing500 oneRequest)) 0 <> 3
  /\ calls (runSession failing500 oneRequest) = [(Retry, 0%nat); (Primary, 0%nat)]
  /\ failed (stats (session (runSession failing500 oneRequest))) = 2
  /\ total (stats (session (runSession failing500 oneRequest))) = 1
  /\ failed (stats (session (runSession failing500 oneRequest)))
     <> total (stats (session (runSession failing500 oneRequest))).
Proof.
  set (wp := primaryPass failing500 oneRequest).
  set (w := runSession failing500 oneRequest).
  assert (E1 : retryQueue (session wp) = [0%nat]) by (vm_compute; reflexivity).
  assert (E2 : retryCountAt (session wp) 0 = 1) by (vm_compute; reflexivity).
  assert (E3 : calls w = [(Retry, 0%nat); (Primary, 0%nat)]) by (vm_compute; reflexivity).
  assert (E4 : failed (stats (session w)) = 2) by (vm_compute; reflexivity).
  assert (E5 : total (stats (session w)) = 1) by (vm_compute; reflexivity).
  rewrite E2, E4, E5. repeat split; try assumption; lia.
Qed.

(** C4 (amended).  In a session that is not stopped, with at most 1000
    impressions, every request answered HTTP 500 and [maxRetries = 3]:
    every call of [executeRequest] makes 3 attempts and throws; when the
    primary pass ends, every request was called once, [sent], [failed] and
    [total] are equal, [successful = 0], and every request is in the retry
    queue with its retry counter at 1; the retry pass then calls every
    request once more, and the counters of the requests are still 1 when
    the session ends. *)
Theorem all_500_session (env : Env) (cfg : Config) :
  neverStopped env -> allAnswer env 500 ->
  maxRetries cfg = 3 -> 0 <= impressions cfg <= 1000 ->
  let n := Z.to_nat (impressions cfg) in
  let wp := primaryPass env cfg in
  let w := runSession env cfg in
  (forall p i,
     outcome (executeRequest env cfg p i false) = Threw
     /\ fetches (executeRequest env cfg p i false) = 3
     /\ waits (executeRequest env cfg p i false)
        = [backoffDelay 1 (random env (RBackoff p i 1));
           backoffDelay 2 (random env (RBackoff p i 2))])
  /\ calls wp = map (pair Primary) (rev (seq 0 n))
  /\ sent (stats (session wp)) = total (stats (session wp))
  /\ failed (stats (session wp)) = total (stats (session wp))
  /\ successful (stats (session wp)) = 0
  /\ retryQueue (session wp) = seq 0 n
  /\ (forall ref, (ref < n)%nat -> retryCountAt (session wp) ref = 1)
  /\ calls w = map (pair Retry) (rev (seq 0 n)) ++ map (pair Primary) (rev (seq 0 n))
  /\ (forall ref, (ref < n)%nat -> retryCountAt (session w) ref = 1)
  /\ sent (stats (session w)) = total (stats (session w)).
Proof.
  intros Hnever H500 Hmax Himp n wp w.
  assert (Hall : allCaught env) by (intros p i a; rewrite H500; reflexivity).
  assert (Hmax1 : 1 <= maxRetries cfg) by lia.
  split.
  { intros p i. rewrite (allCaught_exhausted env cfg p i Hall Hmax1), Hmax.
    repeat split. }
  destruct (allFailed_primary env cfg Hnever Hall Hmax1 ltac:(lia))
    as ((A1 & A2 & A3 & A4 & A5 & A6 & A7 & A8) & _ & _ & _ & Hcalls).
  fold wp n in A1, A2, A3, A4, A5, A6, A7, A8, Hcalls.
  assert (Hlen : length (requestQueue (session wp)) = n)
    by apply (primaryPass_shape env cfg).
  assert (Hcount : forall ref, (ref < n)%nat -> retryCountAt (session wp) ref = 1).
  { intros ref Href. unfold retryCountAt.
    destruct (lookup_lt_is_Some_2 (requestQueue (session wp)) ref ltac:(lia)) as [r Hr].
    rewrite Hr, (A8 ref r Hr). destruct (Nat.ltb_spec ref n); [reflexivity | lia]. }
  split; [exact Hcalls |].
  split; [lia |]. split; [lia |]. split; [exact A4 |]. split; [exact A6 |].
  split; [exact Hcount |].
  pose proof (Ext_ends Later Later_trans _ _ (afterPrimary_Ext env cfg))
    as (Eq & _ & Es & Et).
  fold wp w in Eq, Es, Et.
  assert (Hcw : calls w = map (pair Retry) (rev (seq 0 n)) ++ calls wp).
  { unfold w. rewrite runSession_eq. fold wp. unfold retryPass.
    destruct (Z.ltb_spec 0 (Z.of_nat (length (retryQueue (session wp))))) as [Hpos | Hzero].
    - assert (Hc : 1 <= concurrency (session wp))
        by apply (primaryPass_shape env cfg).
      destruct (processRetryQueue_allFail env cfg Hnever Hall Hmax1 wp A1 Hc)
        as (Ef & _ & _ & Ec).
      { intro E. rewrite E in Hpos. simpl in Hpos. lia. }
      destruct (processRetryQueue env cfg wp) as [w4 threw]. simpl in Ef, Ec.
      subst threw. rewrite A6 in Ec. exact Ec.
    - rewrite A6, length_seq in Hzero. assert (n = 0)%nat as -> by lia. reflexivity. }
  split; [rewrite Hcw, Hcalls; reflexivity |].
  split.
  - intros ref Href. unfold retryCountAt. rewrite Eq. apply Hcount, Href.
  - rewrite Es, Et. lia.
Qed.

Lemma all_500_session_witness :
  neverStopped failing500 /\ allAnswer failing500 500
  /\ maxRetries (mkConfig 4 300 "aggressive" 3 false) = 3
  /\ 0 <= impressions (mkConfig 4 300 "aggressive" 3 false) <= 1000
  /\ retryQueue (session (primaryPass failing500
                            (mkConfig 4 300 "aggressive" 3 false)))
     = [0; 1; 2; 3]%nat.
Proof.
  assert (H1 : neverStopped failing500) by (intro p; reflexivity).
  assert (H2 : allAnswer failing500 500) by (intros p i a; reflexivity).
  assert (H3 : maxRetries (mkConfig 4 300 "aggressive" 3 false) = 3) by reflexivity.
  assert (H4 : 0 <= impressions (mkConfig 4 300 "aggressive" 3 false) <= 1000)
    by (simpl; lia).
  repeat (split; [assumption |]).
  apply (all_500_session failing500 (mkConfig 4 300 "aggressive" 3 false) H1 H2 H3 H4).
Defined.

(** ** C5 *)

(** C5.  A request that failed in the primary pass is pushed on the retry
    queue exactly when the queue holds fewer than 1000 entries and its
    retry counter, once incremented, is at most [maxRetries]; and at every
    point at which the session can be observed, the end included, no
    retry counter exceeds [maxRetries]. *)
Theorem retry_admission (env : Env) (cfg : Config) :
  0 <= maxRetries cfg ->
  (forall s ref,
     (ref < length (requestQueue s))%nat ->
     let s' := fst (processResult cfg (Value false ref) s) in
     (retryQueue s' = retryQueue s ++ [ref]
      /\ Z.of_nat (length (retryQueue s)) < 1000
      /\ retryCountAt s' ref = retryCountAt s ref + 1
      /\ retryCountAt s' ref <= maxRetries cfg)
     \/ (retryQueue s' = retryQueue s
         /\ (1000 <= Z.of_nat (length (retryQueue s))
             \/ maxRetries cfg < retryCountAt s' ref)))
  /\ snapshotsIn (withinBudget cfg) (runSession env cfg)
  /\ withinBudget cfg (session (runSession env cfg)).
Proof.
  intro Hmax. split; [| split].
  - intros s ref Href s'. subst s'. rewrite processResult_failure. cbv zeta.
    destruct (lookup_lt_is_Some_2 (requestQueue s) ref Href) as [r0 Hr0].
    set (s2 := withStats incFailed (withStats incSent s)).
    set (s3 := withRequestQueue (alter incRetryCount ref (requestQueue s)) s2).
    assert (Hcount : retryCountAt s3 ref = retryCountAt s ref + 1).
    { unfold retryCountAt. simpl. rewrite list_lookup_alter.
      destruct (decide (ref = ref)); [| congruence]. rewrite Hr0. reflexivity. }
    destruct (Z.ltb_spec (Z.of_nat (length (retryQueue s))) 1000) as [Hlt | Hge].
    + destruct (Z.leb_spec (retryCountAt s3 ref) (maxRetries cfg)) as [Hle | Hgt].
      * left. repeat split; assumption.
      * right. split; [reflexivity | right; exact Hgt].
    + right. split; [reflexivity | left; exact Hge].
  - apply session_withinBudget, Hmax.
  - apply (session_withinBudget env cfg Hmax (Finished, session (runSession env cfg))).
    apply runSession_finished.
Qed.

Lemma retry_admission_witness :
  0 <= maxRetries (mkConfig 5 400 "premium" 2 true)
  /\ withinBudget (mkConfig 5 400 "premium" 2 true)
       (session (runSession stoppedInFirstJoin (mkConfig 5 400 "premium" 2 true))).
Proof.
  split; [simpl; lia |].
  apply (retry_admission stoppedInFirstJoin (mkConfig 5 400 "premium" 2 true)).
  simpl. lia.
Defined.

(** ** C6 *)



(** ** C7 *)

(** C7 (counterexample).  The claim: the wait between batches never drops
    below 200 ms.  A session of 100 impressions with [delay = 200], jitter
    enabled and [Math.random()] returning 0: the wait after batch index 11
    is [max(200, 200 * (1 - 0.6 * 0.3)) * 0.8 = 160] ms. *)
Lemma adaptiveDelay_counterexample :
  In (InterBatch 11, JS.Fin 160) (timers (runSession lowJitter hundredWithJitter))
  /\ adaptiveDelayMs hundredWithJitter (mkStats 60 60 0 100 0 1250 12) 11 0
     = JS.Fin 160
  /\ JS.gtb (JS.ofZ 200) (JS.Fin 160) = true.
Proof.
  split; [| split; reflexivity].
  vm_compute. repeat (first [left; reflexivity | right]).
Qed.

(** C7 (amended).  With [p = sent / total] for a positive [total] and a
    draw [r] of [Math.random()] in [0, 1), [adaptiveDelay] waits [ms]
    milliseconds, where [base] is [delay] when the batch index is at most
    10 and [max(200, delay * (1 - p * 0.3))] when it exceeds 10, and [ms]
    is [base], multiplied by [r * 0.4 + 0.8] if jitter is enabled.  The
    200 ms floor holds for the wait without jitter after batch index 10;
    with jitter the wait after batch index 10 is at least 160 ms. *)
Theorem adaptiveDelay_floor (env : Env) (cfg : Config) (w : World) (b : Z) :
  0 < total (stats (session w)) ->
  (0 <= random env (RAdaptive b) < 1)%Q ->
  let t := stats (session w) in
  let r := random env (RAdaptive b) in
  let p := (inject_Z (sent t) / inject_Z (total t))%Q in
  let d := inject_Z (delay cfg) in
  let base := if 10 <? b then Qmax 200 (d * (1 - p * (3 # 10))) else d in
  let ms := if enableJitter cfg then (base * (r * (4 # 10) + (8 # 10)))%Q else base in
  timers (adaptiveDelay env cfg b w)
  = (InterBatch b, adaptiveDelayMs cfg t b r) :: timers w
  /\ represents (adaptiveDelayMs cfg t b r) ms
  /\ (10 < b -> enableJitter cfg = false -> (200 <= ms)%Q)
  /\ (10 < b -> enableJitter cfg = true -> (160 <= ms)%Q)
  /\ (b <= 10 -> enableJitter cfg = false -> ms = d).
Proof.
  intros Htotal Hr t r p d base ms.
  assert (Hbase : represents
            (if 10 <? b
             then JS.max (JS.ofZ 200)
                    (JS.mul (JS.ofZ (delay cfg))
                       (JS.sub (JS.ofZ 1)
                          (JS.mul (JS.div (JS.ofZ (sent t)) (JS.ofZ (total t)))
                                  (JS.Fin (3 # 10)))))
             else JS.ofZ (delay cfg)) base).
  { subst base. destruct (10 <? b); [| apply represents_ofZ].
    apply (represents_max _ _ (inject_Z 200)); [apply represents_ofZ |].
    apply represents_mul; [apply represents_ofZ |].
    apply (represents_sub _ _ (inject_Z 1)); [apply represents_ofZ |].
    apply represents_mul; [| apply represents_Fin].
    apply represents_div; try apply represents_ofZ.
    change 0%Q with (inject_Z 0). rewrite inject_Z_injective. unfold t. lia. }
  assert (Hfloor : 10 < b -> (200 <= base)%Q).
  { intro Hb. subst base. destruct (Z.ltb_spec 10 b); [| lia]. apply Q.le_max_l. }
  split; [apply adaptiveDelay_timers |].
  split; [| split; [| split]].
  - unfold adaptiveDelayMs. fold t. subst ms. destruct (enableJitter cfg).
    + apply represents_mul; [exact Hbase | apply jitter_value].
    + exact Hbase.
  - intros Hb Hj. subst ms. rewrite Hj. apply Hfloor, Hb.
  - intros Hb Hj. subst ms. rewrite Hj. specialize (Hfloor Hb).
    fold r in Hr. nra.
  - intros Hb Hj. subst ms base. rewrite Hj.
    destruct (Z.ltb_spec 10 b); [lia | reflexivity].
Qed.

Lemma adaptiveDelay_floor_witness :
  0 < total (stats (session (begin lowJitter (newSession lowJitter hundredWithJitter))))
  /\ (0 <= random lowJitter (RAdaptive 12) < 1)%Q
  /\ represents
       (adaptiveDelayMs hundredWithJitter
          (stats (session (begin lowJitter (newSession lowJitter hundredWithJitter))))
          12 (random lowJitter (RAdaptive 12)))
       (Qmax 200 (inject_Z 200 * (1 - (inject_Z 0 / inject_Z 100) * (3 # 10)))
        * (0 * (4 # 10) + (8 # 10))).
Proof.
  assert (H1 : 0 < total (stats (session
                 (begin lowJitter (newSession lowJitter hundredWithJitter)))))
    by reflexivity.
  assert (H2 : (0 <= random lowJitter (RAdaptive 12) < 1)%Q) by (simpl; lra).
  split; [exact H1 |]. split; [exact H2 |].
  apply (adaptiveDelay_floor lowJitter hundredWithJitter
           (begin lowJitter (newSession lowJitter hundredWithJitter)) 12 H1 H2).
Defined.

(** ** C8 *)

(** C8 (the code breaks it).  The claim: the tracker's [successRate] is
    100 as long as [sent = 0], and once the first request has failed, so
    that [sent = 1] and [successful = 0], [getStats()] reports 0.  The
    first half holds at every point of every session
    ([session_untouched]), and the formula gives 0 for [sent = 1] and
    [successful = 0] ([tracker_first_failure]).  But [executeRequest]
    updates the tracker before [processBatchResults] counts the outcome:
    in a session of two requests answered HTTP 500, between the first and
    the second batch [getStats()] reports [sent = 1], [successful = 0] and
    a [successRate] of 100. *)
Theorem tracker_lags_behind_counters :
  exists s,
    In (InterBatch 0, s) (observed (runSession failing500 twoSingleAttempts))
    /\ sent (fst (getStats s)) = 1
    /\ successful (fst (getStats s)) = 0
    /\ failed (fst (getStats s)) = 1
    /\ successRate (snd (getStats s)) = JS.ofZ 100
    /\ successRate (snd (getStats s)) <> JS.Fin 0.
Proof.
  exists (mkSession true None [0%nat] [mkRequest 1 1; mkRequest 2 0] 1
            (mkStats 1 0 1 2 0 1250 1)
            (mkPerformance (JS.Fin (25 # 2)) (JS.Fin 0) (JS.Fin 100))).
  split; [| simpl; repeat split; discriminate].
  vm_compute. repeat (first [left; reflexivity | right]).
Qed.

(** ** C9 *)

(** C9 (counterexample).  The claim: after [stop()] the retry-queue pass
    is never entered.  Two requests, [stop()] called while the first batch
    is joined: the aborted request fails and is queued for a retry, the
    second batch is not dispatched, and [start()] does call
    [processRetryQueue], which logs the queue of one request and its
    completion with no success and no failure. *)
Lemma stop_counterexample :
  isRunning (session (primaryPass stoppedInFirstJoin twoRequests)) = false
  /\ In (LogRetryQueue 1) (logs (runSession stoppedInFirstJoin twoRequests))
  /\ In (LogRetryCompleted 0 0) (logs (runSession stoppedInFirstJoin twoRequests))
  /\ calls (runSession stoppedInFirstJoin twoRequests) = [(Primary, 0%nat)].
Proof.
  split; [vm_compute; reflexivity |].
  split; [| split]; vm_compute; try reflexivity;
    repeat (first [left; reflexivity | right]).
Qed.

(** C9 (amended).  [stop()] clears the running flag, aborts every
    controller of [currentBatch] and is idempotent on the session and on
    the aborted controllers.  When it is called while batch [b] of a
    running session is joined: every controller of the requests launched
    in that batch is aborted, the loop of [processOptimizedBatches] ends
    with that batch, and the session stays stopped.  The retry step of a
    stopped session calls no request and counts nothing, so a session
    stopped during its primary pass ends with the calls and the counters
    of the primary pass. *)
Theorem stop_during_join (env : Env) (cfg : Config) (T : Z) (remaining : nat)
    (b : Z) (w : World) :
  isRunning (session w) = true -> stopAt env (Join b) = true ->
  let s := session w in
  let startIdx := b * concurrency s in
  let endIdx := Z.min (startIdx + concurrency s)
                      (Z.of_nat (length (requestQueue s))) in
  let batch := sliceQueue startIdx endIdx in
  let w' := batchesFrom env cfg T (S remaining) b w in
  (forall v,
     isRunning (session (stop v)) = false
     /\ currentBatch (session (stop v)) = None
     /\ (forall controllers c,
           currentBatch (session v) = Some controllers ->
           In c controllers -> In c (aborted (stop v)))
     /\ session (stop (stop v)) = session (stop v)
     /\ aborted (stop (stop v)) = aborted (stop v))
  /\ w' = processBatch env cfg batch b w
  /\ isRunning (session w') = false
  /\ (forall ref,
        In ref (fst (launch env cfg b 0 batch
                       (log (LogProcessingBatch (b + 1) (length batch)) w))) ->
        In ref (aborted w'))
  /\ (forall v,
        isRunning (session v) = false ->
        snd (retryPass env cfg v) = false
        /\ dispatched (fst (retryPass env cfg v)) = dispatched v
        /\ observed (fst (retryPass env cfg v)) = observed v
        /\ sent (stats (session (fst (retryPass env cfg v)))) = sent (stats (session v))
        /\ successful (stats (session (fst (retryPass env cfg v))))
           = successful (stats (session v))
        /\ failed (stats (session (fst (retryPass env cfg v))))
           = failed (stats (session v)))
  /\ (isRunning (session (primaryPass env cfg)) = false ->
      calls (runSession env cfg) = calls (primaryPass env cfg)
      /\ (forall c, In c (calls (runSession env cfg)) -> fst c = Primary)
      /\ sent (stats (session (runSession env cfg)))
         = sent (stats (session (primaryPass env cfg)))
      /\ successful (stats (session (runSession env cfg)))
         = successful (stats (session (primaryPass env cfg)))
      /\ failed (stats (session (runSession env cfg)))
         = failed (stats (session (primaryPass env cfg)))).
Proof.
  intros Hrun Hstop s startIdx endIdx batch w'.
  assert (Ew : w' = processBatch env cfg batch b w)
    by apply (batchesFrom_stopped_at env cfg T remaining b w Hrun Hstop).
  destruct (processBatch_stopped env cfg batch b w Hstop) as [Hr Hab].
  split; [| split; [exact Ew | split; [| split; [| split]]]].
  - intro v. split; [rewrite stop_session; reflexivity |].
    split; [rewrite stop_session; reflexivity |].
    split; [| apply stop_idempotent].
    intros controllers c E Hin. rewrite stop_aborted, E.
    apply in_or_app. left. exact Hin.
  - rewrite Ew. exact Hr.
  - rewrite Ew. exact Hab.
  - intros v Hv. apply (retryPass_stopped env cfg v Hv).
  - intro Hp. apply (runSession_stopped env cfg Hp).
Qed.

Lemma stop_during_join_witness :
  isRunning (session (begin stoppedInFirstJoin
                        (newSession stoppedInFirstJoin twoRequests))) = true
  /\ stopAt stoppedInFirstJoin (Join 0) = true
  /\ isRunning (session (batchesFrom stoppedInFirstJoin twoRequests 2 (S 1) 0
                           (begin stoppedInFirstJoin
                              (newSession stoppedInFirstJoin twoRequests))))
     = false.
Proof.
  assert (H1 : isRunning (session (begin stoppedInFirstJoin
                 (newSession stoppedInFirstJoin twoRequests))) = true)
    by reflexivity.
  assert (H2 : stopAt stoppedInFirstJoin (Join 0) = true) by reflexivity.
  split; [exact H1 |]. split; [exact H2 |].
  apply (stop_during_join stoppedInFirstJoin twoRequests 2 1 0 _ H1 H2).
Defined.

(** ** C10 *)



(** * Further properties of the code *)

(** ** The session as a whole *)

(** X1.  Whatever the stop schedule, when every call may make at least
    one attempt the primary pass hands the requests to [executeRequest]
    in queue order, each at most once, and [stats.sent] is the number of
    requests handed over; all requests are handed over if the session is
    still running when the pass ends, as it is when [stop()] is never
    called. *)
Theorem primary_pass_in_order (env : Env) (cfg : Config) :
  1 <= maxRetries cfg ->
  let n := Z.to_nat (impressions cfg) in
  let wp := primaryPass env cfg in
  exists k,
    (k <= n)%nat
    /\ calls wp = map (pair Primary) (rev (seq 0 k))
    /\ sent (stats (session wp)) = Z.of_nat k
    /\ (isRunning (session wp) = true -> k = n)
    /\ (neverStopped env -> k = n).
Proof.
  intros Hmax n wp.
  destruct (primary_counted env cfg Hmax) as (k & HS & Hk). fold wp in HS, Hk.
  destruct HS as ((Hlen & Hsent & _) & _ & _ & _ & Hcalls).
  assert (Hn : length (requestQueue (session wp)) = n)
    by apply (primaryPass_shape env cfg).
  exists k. split; [lia |]. split; [exact Hcalls |]. split; [exact Hsent |].
  split; [exact Hk |]. intro Hnever. apply Hk, primary_running, Hnever.
Qed.

Lemma primary_pass_in_order_witness :
  1 <= maxRetries twoRequests
  /\ exists k,
       (k <= 2)%nat
       /\ sent (stats (session (primaryPass stoppedInFirstJoin twoRequests)))
          = Z.of_nat k.
Proof.
  assert (H : 1 <= maxRetries twoRequests) by (simpl; lia).
  split; [exact H |].
  destruct (primary_pass_in_order stoppedInFirstJoin twoRequests H)
    as (k & Hk & _ & Hs & _).
  exists k. split; [exact Hk | exact Hs].
Defined.

(** X2.  A session that is never stopped, with [maxRetries >= 1] and a
    target of [n >= 0] impressions: the primary pass calls every request
    once, in queue order; the retry pass then calls once more, in queue
    order, every request of the retry queue, which holds no request twice;
    the session ends stopped, with an empty retry queue, [sent = n], and
    [successful + failed = n] plus the number of retried requests. *)
Theorem never_stopped_session (env : Env) (cfg : Config) :
  neverStopped env -> 1 <= maxRetries cfg -> 0 <= impressions cfg ->
  let n := Z.to_nat (impressions cfg) in
  let w := runSession env cfg in
  let q := retryQueue (session (primaryPass env cfg)) in
  calls w = map (pair Retry) (rev q) ++ map (pair Primary) (rev (seq 0 n))
  /\ NoDup q /\ (forall ref, In ref q -> (ref < n)%nat)
  /\ sent (stats (session w)) = impressions cfg
  /\ successful (stats (session w)) + failed (stats (session w))
     = impressions cfg + Z.of_nat (length q)
  /\ retryQueue (session w) = [] /\ isRunning (session w) = false.
Proof.
  intros Hnever Hmax Himp n w q.
  destruct (session_shape env cfg Hmax)
    as (k & m & ok & ko & Hc & _ & Hcp & Hcw & Hok & Hko & Hsum & Es & _ & Erq & Er
        & _ & Hn).
  destruct (Hn Hnever) as [-> Hfull]. rewrite Hfull in Hcw, Hsum.
  destruct Hc as (_ & Hsent & Hbal & _ & _ & Hnd & Hlt). unfold balanced in Hbal.
  subst n w q.
  split; [rewrite Hcw, Hcp; reflexivity |].
  split; [exact Hnd |].
  split; [intros ref Hin; rewrite Forall_forall in Hlt; apply Hlt, list_elem_of_In, Hin |].
  rewrite Es. simpl.
  split; [lia |]. split; [lia |]. split; assumption.
Qed.

Lemma never_stopped_session_witness :
  neverStopped failing500 /\ 1 <= maxRetries twoRequests
  /\ 0 <= impressions twoRequests
  /\ sent (stats (session (runSession failing500 twoRequests))) = 2.
Proof.
  assert (H1 : neverStopped failing500) by (intro p; reflexivity).
  assert (H2 : 1 <= maxRetries twoRequests) by (simpl; lia).
  assert (H3 : 0 <= impressions twoRequests) by (simpl; lia).
  repeat (split; [assumption |]).
  apply (never_stopped_session failing500 twoRequests H1 H2 H3).
Defined.

(** X3.  In every session, whatever the answers, the configuration and
    the stop schedule, no request is handed to [executeRequest] twice in
    the same pass: a request is called at most once by the primary pass
    and at most once by the retry pass. *)
Theorem no_request_called_twice (env : Env) (cfg : Config) :
  NoDup (calls (runSession env cfg))
  /\ forall ref,
       (length (List.filter (fun c => Nat.eqb (snd c) ref)
                            (calls (runSession env cfg))) <= 2)%nat.
Proof.
  assert (Hnd : NoDup (calls (runSession env cfg))).
  { destruct (Z.le_gt_cases 1 (maxRetries cfg)) as [Hmax | Hmax].
    - destruct (session_shape env cfg Hmax)
        as (k & m & ok & ko & Hc & _ & Hcp & Hcw & _).
      rewrite Hcw, Hcp. apply twoPasses_NoDup; [| apply NoDup_seq].
      destruct Hc as (_ & _ & _ & _ & _ & Hq & _).
      eapply sublist_NoDup; [exact Hq | apply sublist_take].
    - destruct (primary_idle env cfg ltac:(lia)) as (k & (Hq & _) & _ & _ & _ & Hcp).
      rewrite (runSession_idle env cfg Hq).
      change (calls (observe Finished (complete env (primaryPass env cfg))))
        with (calls (primaryPass env cfg)).
      rewrite Hcp. apply passCalls_NoDup, NoDup_seq. }
  split; [exact Hnd |]. intro ref.
  set (l := calls (runSession env cfg)) in *.
  assert (Hsub : forall c, c ∈ List.filter (fun c => Nat.eqb (snd c) ref) l ->
                           c ∈ [(Primary, ref); (Retry, ref)]).
  { intros [p r] Hin. apply list_elem_of_In, filter_In in Hin as [_ E].
    simpl in E. apply Nat.eqb_eq in E. subst r.
    destruct p; [left | right; left]. }
  apply (submseteq_length _ [(Primary, ref); (Retry, ref)]).
  apply NoDup_submseteq; [| exact Hsub].
  clear Hsub. induction Hnd as [| c l' Hc Hl IH]; simpl; [constructor |].
  destruct (Nat.eqb (snd c) ref); [| exact IH].
  constructor; [| exact IH]. intro Hin. apply Hc.
  apply list_elem_of_In, filter_In in Hin as [Hin _]. apply list_elem_of_In, Hin.
Qed.

(** X4.  [start()] always reaches [complete()]: whatever the answers, the
    configuration and the stop schedule, [processRetryQueue] does not
    throw, the session ends with [isRunning = false] and an empty retry
    queue, and the summary of the final counters is the last line logged
    and the last entry stored. *)
Theorem start_completes (env : Env) (cfg : Config) :
  let w := runSession env cfg in
  let summary := summarize env (session w) in
  isRunning (session w) = false
  /\ retryQueue (session w) = []
  /\ head (logs w) = Some (LogSessionCompleted summary)
  /\ last (storage w) = Some summary
  /\ fs_totalRequests summary = sent (stats (session w))
  /\ fs_successful summary = successful (stats (session w))
  /\ fs_failed summary = failed (stats (session w)).
Proof.
  intros w summary.
  assert (H : exists w4, w = observe Finished (complete env w4)
                         /\ retryQueue (session w4) = []).
  { destruct (Z.le_gt_cases 1 (maxRetries cfg)) as [Hmax | Hmax].
    - destruct (afterPrimary_spec env cfg Hmax)
        as (w1 & w4 & m & ok & ko & Erun & _ & _ & _ & HF & _).
      exists w4. split; [exact Erun |]. apply HF.
    - destruct (primary_idle env cfg ltac:(lia)) as (k & (Hq & _) & _).
      exists (primaryPass env cfg). split; [| exact Hq].
      apply runSession_idle, Hq. }
  destruct H as (w4 & Ew & Hq).
  subst summary. rewrite Ew.
  split; [reflexivity |]. split; [exact Hq |]. split; [reflexivity |].
  split; [| repeat split].
  apply (saveSessionResults_last _ (log _ _)).
Qed.

(** X5.  At the end of every session whose calls may make at least one
    attempt, whatever the stop schedule, [successful + failed] exceeds
    [sent] by exactly the number of calls made by the retry pass; the
    three counters balance exactly when nothing was retried. *)
Theorem retried_calls_counted_twice (env : Env) (cfg : Config) :
  1 <= maxRetries cfg ->
  let t := stats (session (runSession env cfg)) in
  successful t + failed t = sent t + retryCalls (runSession env cfg)
  /\ (balanced (session (runSession env cfg)) <-> retryCalls (runSession env cfg) = 0).
Proof.
  intros Hmax t.
  destruct (session_shape env cfg Hmax)
    as (k & m & ok & ko & Hc & _ & Hcp & Hcw & Hok & Hko & Hsum & Es & _).
  destruct Hc as (_ & Hsent & Hbal & _). unfold balanced in Hbal.
  assert (Er : retryCalls (runSession env cfg) = ok + ko).
  { unfold retryCalls. rewrite Hcw, Hcp, retryCalls_twoPasses, length_map, length_rev.
    lia. }
  assert (E : successful t + failed t = sent t + retryCalls (runSession env cfg)).
  { rewrite Er. subst t. rewrite Es. simpl. lia. }
  split; [exact E |]. unfold balanced. fold t. lia.
Qed.

Lemma retried_calls_counted_twice_witness :
  1 <= maxRetries oneRequest
  /\ retryCalls (runSession failing500 oneRequest) = 1.
Proof.
  assert (H : 1 <= maxRetries oneRequest) by (simpl; lia).
  split; [exact H |].
  pose proof (retried_calls_counted_twice failing500 oneRequest H) as [E _].
  assert (Es : stats (session (runSession failing500 oneRequest))
               = mkStats 1 0 2 1 0 1250 1) by (vm_compute; reflexivity).
  rewrite Es in E. simpl in E. lia.
Defined.

(** X6.  With [maxRetries < 1] the loop of [executeRequest] never runs:
    no call makes a single [fetch] or waits, every call returns
    [undefined], the callback of [processBatchResults] throws on it, and
    the session ends with nothing counted as delivered or as failed and
    nothing retried. *)
Theorem no_attempt_no_traffic (env : Env) (cfg : Config) :
  maxRetries cfg < 1 ->
  let w := runSession env cfg in
  (forall p i ab, outcome (executeRequest env cfg p i ab) = ReturnedUndefined)
  /\ (forall s, snd (processResult cfg Undefined s) = true)
  /\ fetchesMade w = 0
  /\ Forall (fun d => d_fetches d = 0 /\ d_waits d = []) (dispatched w)
  /\ successful (stats (session w)) = 0
  /\ failed (stats (session w)) = 0
  /\ retryCalls w = 0.
Proof.
  intros Hmax w.
  assert (Hrec : Forall (fun d => d_fetches d = 0 /\ d_waits d = []) (dispatched w)).
  { apply runSession_recorded. intros p s ab ref. unfold dispatchOf.
    rewrite executeRequest_undefined by exact Hmax. split; reflexivity. }
  destruct (primary_idle env cfg Hmax) as (k & (Hq & Hs & Hf) & _ & _ & _ & Hcp).
  assert (Ew : w = observe Finished (complete env (primaryPass env cfg)))
    by apply runSession_idle, Hq.
  split; [intros p i ab; rewrite executeRequest_undefined by exact Hmax; reflexivity |].
  split; [reflexivity |].
  split.
  { unfold fetchesMade. induction Hrec as [| d l [Hd _] _ IH]; simpl; [reflexivity |].
    rewrite Hd, IH. reflexivity. }
  split; [exact Hrec |].
  rewrite Ew. simpl. split; [exact Hs |]. split; [exact Hf |].
  unfold retryCalls.
  change (calls (observe Finished (complete env (primaryPass env cfg))))
    with (calls (primaryPass env cfg)).
  rewrite Hcp. clear. induction (rev (seq 0 k)); simpl; [reflexivity | assumption].
Qed.

Lemma no_attempt_no_traffic_witness :
  maxRetries threeWithoutAttempts < 1
  /\ fetchesMade (runSession failing500 threeWithoutAttempts) = 0.
Proof.
  assert (H : maxRetries threeWithoutAttempts < 1) by (simpl; lia).
  split; [exact H |].
  apply (no_attempt_no_traffic failing500 threeWithoutAttempts H).
Defined.

(** X7.  A bound on the traffic of a session: every call of
    [executeRequest] makes at most [maxRetries] fetches, with one backoff
    wait between two of them, and a whole session makes at most
    [2 * maxRetries * impressions] fetches, whatever the answers and the
    stop schedule. *)
Theorem fetch_budget (env : Env) (cfg : Config) :
  let w := runSession env cfg in
  Forall (withinAttempts cfg) (dispatched w)
  /\ fetchesMade w <= 2 * Z.max 0 (maxRetries cfg) * Z.max 0 (impressions cfg).
Proof.
  intro w.
  assert (Hrec : Forall (withinAttempts cfg) (dispatched w))
    by (apply runSession_recorded; intros; apply executeRequest_withinAttempts).
  split; [exact Hrec |].
  assert (Hle : Forall (fun d => d_fetches d <= Z.max 0 (maxRetries cfg)) (dispatched w)).
  { eapply Forall_impl; [exact Hrec |]. intros d [H _]. lia. }
  pose proof (fetches_bound _ _ Hle) as B. fold (fetchesMade w) in B.
  destruct (Z.le_gt_cases 1 (maxRetries cfg)) as [Hmax | Hmax]; [| nia].
  assert (Hlen : Z.of_nat (length (dispatched w)) <= 2 * Z.max 0 (impressions cfg)); [| nia].
  replace (length (dispatched w)) with (length (calls w))
    by (unfold calls; apply length_map).
  destruct (session_shape env cfg Hmax)
    as (k & m & ok & ko & Hc & Hk & Hcp & Hcw & _).
  fold w in Hcw. rewrite Hcw, Hcp, length_app, !length_map, !length_rev, length_seq.
  destruct Hc as (_ & _ & _ & _ & _ & Hq & Hlt).
  pose proof (queue_short _ _ Hq Hlt) as Hshort.
  rewrite length_take. lia.
Qed.

(** X8.  Whatever the session does, [getStats()] never reports a value
    that is not a number: at every point at which the session can be
    observed, and when [start()] has resolved, the three cached values of
    the tracker are finite, [requestsPerSecond] is not negative and
    [successRate] lies between 0 and 100. *)
Theorem tracker_always_sound (env : Env) (cfg : Config) :
  trackerSound (snd (getStats (session (runSession env cfg))))
  /\ snapshotsIn (fun s => trackerSound (snd (getStats s))) (runSession env cfg).
Proof. exact (session_trackerSound env cfg). Qed.

(** X9.  The set-up of a session never changes: at every point at which
    the session can be observed, and when [start()] has resolved,
    [stats.total] is the number of impressions asked for, [concurrency]
    is the width computed by the constructor, and the request queue holds
    the requests numbered 1, 2, ... in that order. *)
Theorem setup_never_changes (env : Env) (cfg : Config) :
  let kept := fun s =>
    total (stats s) = impressions cfg
    /\ concurrency s = adjustConcurrency cfg
    /\ map id (requestQueue s) = zseq 1 (Z.to_nat (impressions cfg)) in
  kept (session (runSession env cfg))
  /\ snapshotsIn kept (runSession env cfg).
Proof.
  intro kept.
  assert (H0 : kept (session (begin env (newSession env cfg)))).
  { split; [reflexivity |]. split; [reflexivity |].
    pose proof (newSession_wellNumbered env cfg) as H. unfold wellNumbered in H.
    rewrite H. simpl. rewrite generateRequestQueue_length. reflexivity. }
  assert (Hk : forall s, sameSetup (session (begin env (newSession env cfg))) s -> kept s).
  { intros s (E1 & E2 & E3). destruct H0 as (A1 & A2 & A3).
    split; [congruence |]. split; congruence. }
  assert (Ht : forall a b c, sameSetup a b -> sameSetup b c -> sameSetup a c).
  { intros a b c (A1 & A2 & A3) (B1 & B2 & B3). unfold sameSetup.
    repeat split; congruence. }
  pose proof (sameSetup_chain env cfg) as Hchain.
  split.
  - apply Hk. apply (linked_ends sameSetup Ht _ _ _ Hchain).
  - intros o Hin. apply Hk.
    apply (linked_In sameSetup Ht _ _ _ o Hchain Hin).
Qed.



(** X11.  [stop()] does not cut short the requests in flight: a call
    whose signal is aborted before its first [fetch] still makes all its
    [maxRetries] attempts, each of them rejected, waits the whole backoff
    schedule between them, and only then throws; its result is counted as
    failed. *)
Theorem aborted_call_runs_all_attempts (env : Env) (cfg : Config) (p : Pass)
    (i : Z) (ref : nat) :
  1 <= maxRetries cfg -> abortSeen env i <= 0 ->
  let e := executeRequest env cfg p i true in
  (forall a, 0 <= a -> classify (answers env p i true a) = Caught)
  /\ outcome e = Threw
  /\ fetches e = maxRetries cfg
  /\ waits e = map (fun a => backoffDelay a (random env (RBackoff p i a)))
                   (zseq 1 (Z.to_nat (maxRetries cfg - 1)))
  /\ settle ref e = Value false ref.
Proof.
  intros Hmax Hseen e. subst e.
  rewrite (executeRequest_aborted env cfg p i Hmax Hseen).
  split; [| repeat split].
  intros a Ha. unfold answers. simpl.
  destruct (Z.leb_spec (abortSeen env i) a); [reflexivity | lia].
Qed.

Lemma aborted_call_runs_all_attempts_witness :
  1 <= maxRetries twoRequests /\ abortSeen stoppedInFirstJoin 1 <= 0
  /\ fetches (executeRequest stoppedInFirstJoin twoRequests Primary 1 true) = 3.
Proof.
  assert (H1 : 1 <= maxRetries twoRequests) by (simpl; lia).
  assert (H2 : abortSeen stoppedInFirstJoin 1 <= 0) by (simpl; lia).
  split; [exact H1 |]. split; [exact H2 |].
  apply (aborted_call_runs_all_attempts stoppedInFirstJoin twoRequests Primary 1 0%nat
           H1 H2).
Defined.

(** X12.  The history of sessions kept in local storage is bounded:
    [saveSessionResults] appends the new summary and keeps the last ten
    entries, so the stored list never holds more than ten summaries, ends
    with the newest one, keeps a shorter history whole and drops the
    oldest entries of a full one. *)
Theorem session_history_bounded (summary : FinalStats) (w : World) :
  let h := storage (saveSessionResults summary w) in
  (length h <= 10)%nat
  /\ last h = Some summary
  /\ suffix h (storage w ++ [summary])
  /\ ((length (storage w) < 10)%nat -> h = storage w ++ [summary])
  /\ ((10 <= length (storage w))%nat ->
      h = drop (length (storage w) - 9) (storage w) ++ [summary]).
Proof.
  intro h.
  assert (Eh : h = drop (length (storage w) + 1 - 10) (storage w ++ [summary])).
  { subst h. unfold saveSessionResults. simpl. rewrite length_app. reflexivity. }
  split; [rewrite Eh, length_drop, length_app; simpl; lia |].
  split; [apply (saveSessionResults_last summary w) |].
  split; [rewrite Eh; apply suffix_drop |].
  split.
  - intro H. rewrite Eh.
    replace (length (storage w) + 1 - 10)%nat with 0%nat by lia. reflexivity.
  - intro H. rewrite Eh, drop_app_le by lia. f_equal. f_equal. lia.
Qed.

(** X13.  The seconds of the estimate logged by [start()], when the
    estimate computed in binary64 is a finite number [x] that is not
    negative: the text ends with the seconds [S] and "s", after the
    minutes and "m " when the minutes are positive; [S] is the remainder
    of [x] modulo 60 rounded up to a whole number, so it lies between 0
    and 60 and is 60 whenever the remainder exceeds 59: the seconds are
    not carried into the minutes. *)
Theorem estimated_time_rounds_up (cfg : Config) (s : Session) (x : Q) :
  Binary64.value (estimatedSeconds cfg s) = JS.Fin x -> (0 <= x)%Q ->
  let rest := (x - 60 * inject_Z (Qfloor (x / 60)))%Q in
  exists S : Z,
    calculateEstimatedTime cfg s
    = (if JS.gtb (shownMinutes cfg s) (JS.ofZ 0)
       then (showInt (shownMinutes cfg s) ++ "m " ++ showZ S ++ "s")%string
       else (showZ S ++ "s")%string)
    /\ 0 <= S <= 60
    /\ (0 <= rest < 60)%Q
    /\ (rest <= inject_Z S)%Q /\ (inject_Z S < rest + 1)%Q
    /\ (S = 60 <-> (59 < rest)%Q).
Proof.
  intros Ex Hx rest.
  set (M := Qfloor (x / 60)) in *.
  set (S := Qceiling rest).
  assert (HM : (inject_Z M <= x / 60)%Q) by apply Qfloor_le.
  assert (HM' : (x / 60 < inject_Z (M + 1))%Q) by apply Qlt_floor.
  assert (H60 : (x / 60 * 60 == x)%Q) by field.
  rewrite inject_Z_plus in HM'. change (inject_Z 1) with 1%Q in HM'.
  assert (Hr0 : (0 <= rest)%Q) by (subst rest; nra).
  assert (Hr1 : (rest < 60)%Q) by (subst rest; nra).
  assert (HS : (rest <= inject_Z S)%Q) by apply Qle_ceiling.
  assert (HS' : (inject_Z (S - 1) < rest)%Q) by apply Qceiling_lt.
  unfold Z.sub in HS'. rewrite inject_Z_plus in HS'.
  change (inject_Z (- (1))) with (- (1))%Q in HS'.
  assert (HS0 : 0 <= S <= 60).
  { split.
    - change 0 with (Qceiling (inject_Z 0)). apply Qceiling_resp_le. exact Hr0.
    - change 60 with (Qceiling (inject_Z 60)). apply Qceiling_resp_le.
      apply Qlt_le_weak. exact Hr1. }
  exists S. split; [| split; [exact HS0 | split; [split; assumption |
                     split; [exact HS | split; [lra |]]]]].
  - unfold calculateEstimatedTime. cbv zeta.
    assert (Es : shownSeconds cfg s = JS.ofZ S).
    { unfold shownSeconds. rewrite Ex.
      change (remNum (JS.Fin x) (JS.ofZ 60))
        with (JS.fin (x - inject_Z 60 * inject_Z (Qtrunc (x / inject_Z 60)))).
      change (inject_Z 60) with 60%Q.
      assert (Etr : Qtrunc (x / 60) = M).
      { unfold Qtrunc. destruct (Qle_bool 0 (x / 60)) eqn:E; [reflexivity |].
        exfalso. assert (H : Qle_bool 0 (x / 60) = true); [| congruence].
        apply Qle_bool_iff. apply Qle_shift_div_l; [reflexivity |].
        rewrite Qmult_0_l. exact Hx. }
      rewrite Etr. unfold JS.fin, ceilNum.
      rewrite (Qceiling_comp _ _ (Qred_correct (x - 60 * inject_Z M))).
      reflexivity. }
    rewrite Es. unfold showInt at 2 3, JS.ofZ. rewrite Qfloor_Z. reflexivity.
  - split.
    + intro E. rewrite E in HS'. change (inject_Z 60) with 60%Q in HS'. lra.
    + intro H59. assert (H : 59 < S); [| lia].
      rewrite Zlt_Qlt. change (inject_Z 59) with 59%Q. lra.
Qed.

Lemma estimated_time_rounds_up_witness :
  Binary64.value (estimatedSeconds thousandAt240
                    (session (newSession failing500 thousandAt240)))
  = JS.Fin (8444249301319679 # 140737488355328)
  /\ (0 <= 8444249301319679 # 140737488355328)%Q
  /\ (exists S : Z,
        calculateEstimatedTime thousandAt240
          (session (newSession failing500 thousandAt240))
        = (showZ S ++ "s")%string
        /\ S = 60)
  /\ calculateEstimatedTime thousandAt240
       (session (newSession failing500 thousandAt240))
     = "60s"%string
  /\ calculateEstimatedTime sixHundredAt255
       (session (newSession failing500 sixHundredAt255))
     = "52s"%string.
Proof.
  assert (H1 : Binary64.value (estimatedSeconds thousandAt240
                                 (session (newSession failing500 thousandAt240)))
               = JS.Fin (8444249301319679 # 140737488355328))
    by (vm_compute; reflexivity).
  assert (H2 : (0 <= 8444249301319679 # 140737488355328)%Q) by (vm_compute; discriminate).
  split; [exact H1 |]. split; [exact H2 |].
  split; [| split; vm_compute; reflexivity].
  destruct (estimated_time_rounds_up thousandAt240
              (session (newSession failing500 thousandAt240)) _ H1 H2)
    as (S & E & _ & _ & _ & _ & HS).
  exists S. split.
  - rewrite E. reflexivity.
  - apply HS. vm_compute. reflexivity.
Defined.

(** X14.  The referrer of a request is never [undefined]: for every draw
    of [Math.random()] in [0, 1), [getRandomReferrer()] returns one of
    the ten referrers of its list, and without [enableReferrer] the
    referrer is the first of them. *)
Theorem referrer_always_defined (enableReferrer : bool) (r : Q) :
  (0 <= r < 1)%Q ->
  (exists u, getRandomReferrer r = Some u /\ In u referrers)
  /\ (exists u, referrerOf enableReferrer r = Some u /\ In u referrers)
  /\ referrerOf false r = head referrers.
Proof.
  intro Hr.
  assert (H : exists u, getRandomReferrer r = Some u /\ In u referrers).
  { unfold getRandomReferrer. apply at_index_defined.
    apply scaled_draw; [exact Hr | reflexivity]. }
  split; [exact H |]. split; [| reflexivity].
  destruct enableReferrer; [exact H |].
  eexists. split; [reflexivity |]. left. reflexivity.
Qed.

Lemma referrer_always_defined_witness :
  (0 <= 1 # 2 < 1)%Q
  /\ exists u, referrerOf true (1 # 2) = Some u /\ In u referrers.
Proof.
  assert (H : (0 <= 1 # 2 < 1)%Q) by lra.
  split; [exact H |].
  apply (referrer_always_defined true (1 # 2) H).
Defined.

(** ** The proxy pool *)

(** X15.  [getRandomProxy] returns [null] exactly when no proxy is
    active; otherwise it returns one of the active proxies, whatever the
    tier asked for and the random draw, and [getProxyForRequest] hands
    that proxy on with its address in the three forwarding headers. *)
Theorem proxy_selection_from_pool (quality : string) (r : Q)
    (st : ProxyManager.State) :
  (ProxyManager.getRandomProxy quality r st = None
   <-> ProxyManager.activeProxies st = [])
  /\ (forall p, ProxyManager.getRandomProxy quality r st = Some p ->
        In p (ProxyManager.activeProxies st))
  /\ (ProxyManager.getProxyForRequest quality r st = None
      <-> ProxyManager.activeProxies st = [])
  /\ (forall c, ProxyManager.getProxyForRequest quality r st = Some c ->
        exists p,
          In p (ProxyManager.activeProxies st)
          /\ ProxyManager.pc_url c = ProxyManager.url p
          /\ ProxyManager.pc_ip c = ProxyManager.ip p
          /\ ProxyManager.pc_headers c
             = [ ("X-Forwarded-For", ProxyManager.ip p);
                 ("X-Real-IP", ProxyManager.ip p);
                 ("Via", "1.1 " ++ ProxyManager.ip p) ]%string).
Proof.
  assert (Hin : forall p, ProxyManager.getRandomProxy quality r st = Some p ->
                          In p (ProxyManager.activeProxies st)).
  { intros p H. eapply candidates_In, getRandomProxy_candidate, H. }
  split; [apply getRandomProxy_none |]. split; [exact Hin |].
  unfold ProxyManager.getProxyForRequest.
  destruct (ProxyManager.getRandomProxy quality r st) as [p |] eqn:E.
  - split.
    + split; [discriminate |]. intro H. apply (getRandomProxy_none quality r) in H.
      congruence.
    + intros c Hc. injection Hc as <-. exists p. split; [apply Hin; reflexivity |].
      repeat split.
  - split; [| discriminate]. split; [intros _ | reflexivity].
    apply (getRandomProxy_none quality r), E.
Qed.

(** X16.  The tier bounds the speed of the proxy selected whenever some
    active proxy meets it: for "premium" the proxy selected answered its
    test in less than 2000 ms, for "balanced" in less than 4000 ms.  (When
    no active proxy meets the bound a slower one is selected.) *)
Theorem proxy_selection_respects_tier (quality : string) (bound : Z) (r : Q)
    (st : ProxyManager.State) (p : ProxyManager.Proxy) :
  (quality = "premium"%string /\ bound = 2000)
  \/ (quality = "balanced"%string /\ bound = 4000) ->
  (exists fast, In fast (ProxyManager.activeProxies st)
                /\ ProxyManager.speed fast < bound) ->
  ProxyManager.getRandomProxy quality r st = Some p ->
  ProxyManager.speed p < bound.
Proof.
  intros Hq Hfast Hp.
  apply (candidates_bound quality bound (ProxyManager.activeProxies st) Hq Hfast).
  apply (getRandomProxy_candidate quality r), Hp.
Qed.

Lemma proxy_selection_respects_tier_witness :
  ProxyManager.getRandomProxy "premium" (9 # 10) twoProxies = Some fastProxy
  /\ ProxyManager.speed fastProxy < 2000.
Proof.
  assert (H : ProxyManager.getRandomProxy "premium" (9 # 10) twoProxies = Some fastProxy)
    by (vm_compute; reflexivity).
  split; [exact H |].
  apply (proxy_selection_respects_tier "premium" 2000 (9 # 10) twoProxies fastProxy).
  - left. split; reflexivity.
  - exists fastProxy. split; [right; left; reflexivity | reflexivity].
  - exact H.
Defined.

(** X17.  A proxy reported as failed leaves the pool and is not selected
    again: [reportProxyFailure(url)] removes the proxy of that url and
    no other, a second report changes nothing, a report of an unknown
    url changes nothing, and a refresh is started exactly when the
    removal leaves fewer than ten active proxies and no refresh is under
    way. *)
Theorem failed_proxy_not_reused (proxyUrl : string) (st : ProxyManager.State) :
  let st' := ProxyManager.reportProxyFailure proxyUrl st in
  (forall p, In p (ProxyManager.activeProxies st')
             <-> In p (ProxyManager.activeProxies st)
                 /\ ProxyManager.url p <> proxyUrl)
  /\ (forall quality r p, ProxyManager.getRandomProxy quality r st' = Some p ->
        ProxyManager.url p <> proxyUrl)
  /\ ProxyManager.reportProxyFailure proxyUrl st' = st'
  /\ (ProxyManager.has proxyUrl st = false -> st' = st)
  /\ (ProxyManager.refreshes st' = S (ProxyManager.refreshes st)
      <-> ProxyManager.has proxyUrl st = true
          /\ (length (ProxyManager.activeProxies st') < 10)%nat
          /\ ProxyManager.refreshInProgress st = false)
  /\ (ProxyManager.refreshes st' <> S (ProxyManager.refreshes st) ->
      ProxyManager.refreshes st' = ProxyManager.refreshes st
      /\ ProxyManager.refreshInProgress st' = ProxyManager.refreshInProgress st).
Proof.
  intro st'.
  assert (Hpool : forall p, In p (ProxyManager.activeProxies st')
                            <-> In p (ProxyManager.activeProxies st)
                                /\ ProxyManager.url p <> proxyUrl).
  { intro p. subst st'. rewrite reportProxyFailure_pool. apply delete_In. }
  assert (Hgone : ProxyManager.has proxyUrl st' = false).
  { destruct (ProxyManager.has proxyUrl st') eqn:E; [| reflexivity].
    apply has_spec in E as (p & Hin & Eu). apply Hpool in Hin. tauto. }
  split; [exact Hpool |].
  split.
  { intros quality r p H.
    apply getRandomProxy_candidate, candidates_In, Hpool in H. tauto. }
  split; [unfold ProxyManager.reportProxyFailure at 1; rewrite Hgone; reflexivity |].
  assert (Elen : length (ProxyManager.activeProxies st')
                 = length (ProxyManager.activeProxies (ProxyManager.delete proxyUrl st)))
    by (subst st'; rewrite reportProxyFailure_pool; reflexivity).
  rewrite Elen.
  destruct (reportProxyFailure_cases proxyUrl st)
    as [(Eh & E) | [(Eh & Hl & E) | [(Eh & Hl & Er & E) | (Eh & Hl & Er & E)]]];
    fold st' in E; rewrite E, Eh; simpl in *.
  - split; [reflexivity |]. split; [| intros _; split; reflexivity].
    split; [intro H; exfalso; lia | intros (H & _); discriminate].
  - split; [discriminate |]. split; [| intros _; split; reflexivity].
    split; [intro H; exfalso; lia | intros (_ & H & _); exfalso; lia].
  - split; [discriminate |]. split; [| intros _; split; reflexivity].
    split; [intro H; exfalso; lia | intros (_ & _ & H); congruence].
  - split; [discriminate |]. split; [| congruence].
    split; [intros _; repeat split; assumption | reflexivity].
Qed.

(** * The log *)

(** X19. Starting from a log of at most 2000 entries, after any sequence
    of [Logger.log] calls the log holds the newest 2000 of the old entries
    followed by the entries of the calls at or above the threshold, in the
    order of the calls; calls below the threshold leave no entry, and the
    threshold is unchanged. *)
Theorem log_keeps_newest_accepted (calls : list (Logger.Level * string * Z))
    (st : Logger.State) :
  Z.of_nat (length (Logger.logs st)) <= Logger.maxEntries ->
  let st' := Logger.logAll calls st in
  Logger.logs st'
  = Logger.newest (Logger.logs st ++ Logger.accepted (Logger.currentLevel st) calls)
  /\ Z.of_nat (length (Logger.logs st')) <= Logger.maxEntries
  /\ Logger.currentLevel st' = Logger.currentLevel st.
Proof.
  intros Hlen st'. subst st'.
  destruct (logAll_newest calls st Hlen) as [E1 E2].
  split; [exact E1 |]. split; [| exact E2].
  rewrite E1, newest_length. unfold Logger.maxEntries. lia.
Qed.

Lemma log_keeps_newest_accepted_witness :
  Z.of_nat (length (Logger.logs Logger.initial)) <= Logger.maxEntries
  /\ Logger.logs (Logger.logAll threeCalls Logger.initial)
     = [Logger.mkEntry Logger.INFO "started" 2; Logger.mkEntry Logger.ERROR "failed" 3].
Proof.
  assert (H : Z.of_nat (length (Logger.logs Logger.initial)) <= Logger.maxEntries)
    by (vm_compute; discriminate).
  split; [exact H |].
  destruct (log_keeps_newest_accepted threeCalls Logger.initial H) as [E _].
  rewrite E. reflexivity.
Defined.

(** X20. [getRecentLogs(count)] returns the last [count] entries, or all of
    them when there are fewer, for [count >= 1]; for [count = 0] it returns
    the whole log, not the empty list; for a negative [count] it leaves out
    the oldest [-count] entries. *)
Theorem recent_logs_window (count : Z) (st : Logger.State) :
  let all := Logger.logs st in
  (1 <= count ->
     Logger.getRecentLogs count st = drop (length all - Z.to_nat count) all
     /\ length (Logger.getRecentLogs count st) = Nat.min (Z.to_nat count) (length all))
  /\ Logger.getRecentLogs 0 st = all
  /\ (count < 0 ->
        Logger.getRecentLogs count st = drop (Z.to_nat (- count)) all).
Proof.
  intro all. unfold Logger.getRecentLogs. fold all.
  split; [| split].
  - intro H. rewrite slice_last by lia. rewrite length_drop.
    split; [reflexivity | lia].
  - unfold Logger.slice. change (- 0 <? 0) with false. cbv iota zeta.
    rewrite Z.min_l by lia. reflexivity.
  - intro H. unfold Logger.slice.
    destruct (Z.ltb_spec (- count) 0); [lia |].
    destruct (Z.le_gt_cases (- count) (Z.of_nat (length all))) as [Hle | Hgt].
    + rewrite Z.min_l by exact Hle. reflexivity.
    + rewrite Z.min_r by lia. rewrite Nat2Z.id.
      rewrite !drop_ge by lia. reflexivity.
Qed.

(** X21. [setLevel] with a name that is not a level changes nothing.  With
    the name of a level it sets the threshold, and its confirmation line
    is logged only when the new level is DEBUG or INFO: after
    [setLevel('WARN')] or [setLevel('ERROR')] the log is as it was. *)
Theorem setLevel_confirmation (name : string) (t : Z) (st : Logger.State) :
  (Logger.levelOfName name = None -> Logger.setLevel name t st = st)
  /\ (forall l, Logger.levelOfName name = Some l ->
        let st' := Logger.setLevel name t st in
        Logger.currentLevel st' = Logger.levels l
        /\ (l = Logger.DEBUG \/ l = Logger.INFO ->
              Logger.logs st'
              = Logger.newest
                  (Logger.logs st
                   ++ [Logger.mkEntry Logger.INFO ("Log level set to: " ++ name) t]))
        /\ (l = Logger.WARN \/ l = Logger.ERROR -> Logger.logs st' = Logger.logs st)).
Proof.
  unfold Logger.setLevel. split.
  - intros ->. reflexivity.
  - intros l ->. cbv zeta. unfold Logger.info. split; [| split].
    + destruct (Z.lt_ge_cases (Logger.levels Logger.INFO) (Logger.levels l)) as [Hr | Ha].
      * rewrite log_rejected by exact Hr. reflexivity.
      * rewrite log_accepted by exact Ha. reflexivity.
    + intros [-> | ->];
        apply (log_newest Logger.INFO _ t (Logger.mkState _ (Logger.logs st)));
        simpl; lia.
    + intros [-> | ->]; rewrite log_rejected by (simpl; lia); reflexivity.
Qed.

(** X22. The output of [escapeHtml] contains no [<], no [>], no double
    quote and no apostrophe, whatever the input; a string without any of
    the five special characters is returned as it is. *)
Theorem escapeHtml_output_safe (unsafe : string) :
  Forall (fun x => x <> Logger.lessThan /\ x <> Logger.greaterThan
                   /\ x <> Logger.doubleQuote /\ x <> Logger.apostrophe)
         (Logger.chars (Logger.escapeHtml unsafe))
  /\ (forallb (fun c => negb (Logger.isSpecial c)) (Logger.chars unsafe) = true ->
      Logger.escapeHtml unsafe = unsafe).
Proof.
  rewrite escapeHtml_escapeAll. split.
  - induction unsafe as [| c s IH]; [constructor |].
    rewrite escapeAll_cons, chars_app. apply Forall_app. split; [| exact IH].
    apply Forall_forall. intros x Hx. apply (escapeChar_safe c).
    apply list_elem_of_In. exact Hx.
  - induction unsafe as [| c s IH]; [reflexivity |].
    simpl. intro H. apply andb_true_iff in H as [Hc Hs].
    apply negb_true_iff in Hc.
    destruct (escapeChar_shape c) as [[_ E] | [[-> _] | [[-> _] | [[-> _] | [[-> _] | [-> _]]]]]];
      try discriminate.
    rewrite E. simpl. f_equal. apply IH. exact Hs.
Qed.

(** X23. [escapeHtml] loses nothing: two strings with the same escaped
    form are the same string. *)
Theorem escapeHtml_injective (s t : string) :
  Logger.escapeHtml s = Logger.escapeHtml t -> s = t.
Proof. rewrite !escapeHtml_escapeAll. apply escapeAll_injective. Qed.

Lemma escapeHtml_injective_witness :
  Logger.escapeHtml "a<b & c" = Logger.escapeHtml "a<b & c"
  /\ "a<b & c"%string = "a<b & c"%string.
Proof.
  split; [reflexivity |].
  apply (escapeHtml_injective "a<b & c" "a<b & c"). reflexivity.
Defined.

(** * The form *)

(** X24. [validateForm] accepts a form exactly when the URL is not empty
    and is a valid URL, the country is not empty, the impressions are a
    number of at least 100, and the delay, if it is a number, lies between
    200 and 5000.  A delay that is not a number is accepted, and the
    retry count is not looked at. *)
Theorem validateForm_accepts (isValidUrl : string -> bool)
    (data : TrafficSenderApp.FormData) :
  TrafficSenderApp.validateForm isValidUrl data = true <->
  TrafficSenderApp.adUrl data <> EmptyString
  /\ isValidUrl (TrafficSenderApp.adUrl data) = true
  /\ TrafficSenderApp.country data <> EmptyString
  /\ (exists n, TrafficSenderApp.impressions data = Some n /\ 100 <= n)
  /\ (forall d, TrafficSenderApp.delay data = Some d -> 200 <= d <= 5000).
Proof. apply validateForm_spec. Qed.

(** X25. For a form that passes [validateForm] and whose three numbers
    are numbers, the session gets at least 100 impressions and a
    concurrency of [max(1, floor(1000 / delay))], between 1 and 5: the cap
    of the proxy quality tier (5, 8, 12 or 15) never applies. *)
Theorem validated_form_concurrency (isValidUrl : string -> bool)
    (data : TrafficSenderApp.FormData) (cfg : Config) :
  TrafficSenderApp.validateForm isValidUrl data = true ->
  TrafficSenderApp.toConfig data = Some cfg ->
  100 <= impressions cfg
  /\ 200 <= delay cfg <= 5000
  /\ adjustConcurrency cfg = Z.max 1 (1000 / delay cfg)
  /\ 1 <= adjustConcurrency cfg <= 5.
Proof.
  intros Hv Hc.
  apply validateForm_spec in Hv as (_ & _ & _ & (n & Hn & Hn100) & Hd).
  unfold TrafficSenderApp.toConfig in Hc. rewrite Hn in Hc.
  destruct (TrafficSenderApp.delay data) as [d |] eqn:Ed; [| discriminate].
  destruct (TrafficSenderApp.maxRetries data) as [m |]; [| discriminate].
  injection Hc as <-. specialize (Hd d eq_refl).
  destruct (baseConcurrency_validated d Hd) as [Eb Hb].
  unfold adjustConcurrency. simpl. rewrite <- Eb.
  destruct (tierCap_cases (TrafficSenderApp.proxyQuality data))
    as [[_ C] | [[_ C] | [[_ C] | (_ & _ & _ & C)]]]; rewrite C; lia.
Qed.

Lemma validated_form_concurrency_witness :
  TrafficSenderApp.validateForm hasColon sampleForm = true
  /\ TrafficSenderApp.toConfig sampleForm
     = Some (mkConfig 500 250 "aggressive" 3 true)
  /\ adjustConcurrency (mkConfig 500 250 "aggressive" 3 true) = 4.
Proof.
  assert (H1 : TrafficSenderApp.validateForm hasColon sampleForm = true)
    by reflexivity.
  assert (H2 : TrafficSenderApp.toConfig sampleForm
               = Some (mkConfig 500 250 "aggressive" 3 true)) by reflexivity.
  split; [exact H1 |]. split; [exact H2 |].
  destruct (validated_form_concurrency hasColon sampleForm _ H1 H2)
    as (_ & _ & E & _).
  rewrite E. reflexivity.
Defined.
